(** * Sport Performance Protocol: settlement core

    A shallow embedding of the reward/burn engines (Solidity
    [DeflatinaryBurn.sol], Move [deflatinary_burn.move] with
    [reward_tiers.move]), of the Move performance oracle, of the adapters'
    cricket tier selection and Aptos address canonicalisation, and of the
    chain registry, followed by the properties established about them.

    Unsigned machine integers ([uint8], [uint256], [u8], [u64]) are values of
    [N]; the checked arithmetic of Solidity 0.8 and of the Move VM is written
    out: an operation whose result leaves the type's range fails.  Byte
    vectors are lists of [N] below 256.  Contract storage mappings and Move
    tables are finite maps. *)

From Stdlib Require Import ZArith NArith Ascii String List Lia.
From Stdlib Require QArith Qround.
From stdpp Require Import gmap list.

Local Open Scope N_scope.

(** ** Results of fallible calls *)

Inductive result (E A : Type) : Type :=
| Ok (a : A)
| Err (e : E).
Arguments Ok {E A} a.
Arguments Err {E A} e.

Definition bind {E A B : Type} (r : result E A) (k : A -> result E B) : result E B :=
  match r with
  | Ok a => k a
  | Err e => Err e
  end.

Notation "x <- r ;; k" := (bind r (fun x => k))
  (at level 100, r at next level, right associativity).

(** A failed transaction is rolled back by the ledger: the storage after the
    call is the storage before it. *)
Definition commit {E S : Type} (before : S) (r : result E S) : S :=
  match r with
  | Ok after => after
  | Err _ => before
  end.

(** Big-endian encoding of a number on [n] bytes, as [abi.encodePacked] does
    for [bytes32] and [address], and BCS for a 32-byte account address. *)
Fixpoint be_bytes (n : nat) (x : N) : list N :=
  match n with
  | O => []
  | S k => be_bytes k (x / 256) ++ [x mod 256]
  end.

(** Reading of a storage mapping with numeric values: absent keys read 0. *)
Definition get (m : gmap N N) (k : N) : N := default 0 (m !! k).

(** ** DeflatinaryBurn.sol *)

Module Sol.

Definition MAX_UINT256 : N := 2 ^ 256 - 1.

Definition TIER_NIFTY_FIFTY : N := 0.
Definition TIER_GAYLE_STORM : N := 1.
Definition TIER_FIVE_WICKET_HAUL : N := 2.
Definition TIER_HAT_TRICK : N := 3.
Definition TIER_MAIDEN_MASTER : N := 4.
Definition TIER_RUN_MACHINE : N := 5.
Definition TIER_GOLDEN_ARM : N := 6.
Definition TIER_ALL_ROUNDER : N := 7.

(** Custom errors of the contract, failed [require]s, the access-control
    error of [Ownable] and the arithmetic panic of checked arithmetic. *)
Inductive error : Type :=
| InvalidTier
| InvalidEffortScore
| BurnAlreadyExecuted
| RequireFailed (reason : string)
| OwnableUnauthorizedAccount
| Panic.

Definition checked_add (a b : N) : result error N :=
  if a + b <=? MAX_UINT256 then Ok (a + b) else Err Panic.

Definition checked_mul (a b : N) : result error N :=
  if a * b <=? MAX_UINT256 then Ok (a * b) else Err Panic.

Record BurnTransaction : Type := mkBurnTransaction {
  bt_matchId : N;
  bt_player : N;
  bt_burnAmount : N;
  bt_rewardAmount : N;
  bt_tier : N;
  bt_effortScore : N;
  bt_timestamp : N;
  bt_executed : bool
}.

Record State : Type := mkState {
  owner : N;
  tokenContract : N;
  oracleContract : N;
  burnMultipliers : gmap N N;
  baseRewards : gmap N N;
  totalBurnedAmount : N;
  totalRewardsDistributed : N;
  playerTotalRewards : gmap N N;
  playerTotalBurned : gmap N N;
  burnTransactions : gmap N BurnTransaction
}.

(** What a call sees of its transaction. *)
Record Env : Type := mkEnv {
  msg_sender : N;
  block_timestamp : N
}.

Definition E18 : N := 10 ^ 18.

Definition constructor (env : Env) (_tokenContract _oracleContract : N)
  : result error State :=
  if _tokenContract =? 0 then Err (RequireFailed "Invalid token contract") else
  if _oracleContract =? 0 then Err (RequireFailed "Invalid oracle contract") else
  Ok {| owner := msg_sender env;
        tokenContract := _tokenContract;
        oracleContract := _oracleContract;
        burnMultipliers :=
          <[TIER_ALL_ROUNDER := 20]> (<[TIER_GOLDEN_ARM := 13]>
          (<[TIER_RUN_MACHINE := 40]> (<[TIER_MAIDEN_MASTER := 15]>
          (<[TIER_HAT_TRICK := 30]> (<[TIER_FIVE_WICKET_HAUL := 25]>
          (<[TIER_GAYLE_STORM := 30]> (<[TIER_NIFTY_FIFTY := 15]> ∅)))))));
        baseRewards :=
          <[TIER_ALL_ROUNDER := 120 * E18]> (<[TIER_GOLDEN_ARM := 40 * E18]>
          (<[TIER_RUN_MACHINE := 250 * E18]> (<[TIER_MAIDEN_MASTER := 30 * E18]>
          (<[TIER_HAT_TRICK := 200 * E18]> (<[TIER_FIVE_WICKET_HAUL := 100 * E18]>
          (<[TIER_GAYLE_STORM := 150 * E18]> (<[TIER_NIFTY_FIFTY := 50 * E18]> ∅)))))));
        totalBurnedAmount := 0;
        totalRewardsDistributed := 0;
        playerTotalRewards := ∅;
        playerTotalBurned := ∅;
        burnTransactions := ∅ |}.

(** [modifier onlyOracle] *)
Definition onlyOracle (env : Env) (s : State) : bool :=
  (msg_sender env =? oracleContract s) || (msg_sender env =? owner s).

(** [modifier onlyOwner] of [Ownable] *)
Definition onlyOwner (env : Env) (s : State) : bool :=
  msg_sender env =? owner s.

Definition setOracleContract (env : Env) (s : State) (_oracleContract : N)
  : result error State :=
  if negb (onlyOwner env s) then Err OwnableUnauthorizedAccount else
  if _oracleContract =? 0 then Err (RequireFailed "Invalid oracle address") else
  Ok {| owner := owner s;
        tokenContract := tokenContract s;
        oracleContract := _oracleContract;
        burnMultipliers := burnMultipliers s;
        baseRewards := baseRewards s;
        totalBurnedAmount := totalBurnedAmount s;
        totalRewardsDistributed := totalRewardsDistributed s;
        playerTotalRewards := playerTotalRewards s;
        playerTotalBurned := playerTotalBurned s;
        burnTransactions := burnTransactions s |}.

Definition calculateReward (s : State) (tier effortScore : N) : result error N :=
  if TIER_ALL_ROUNDER <? tier then Err InvalidTier else
  if 100 <? effortScore then Err InvalidEffortScore else
  let baseReward := get (baseRewards s) tier in
  let burnMultiplier := get (burnMultipliers s) tier in
  scaled <- checked_mul baseReward effortScore ;;
  let effortAdjusted := scaled / 100 in
  product <- checked_mul effortAdjusted burnMultiplier ;;
  let finalReward := product / 10 in
  Ok finalReward.

Definition updateTier (env : Env) (s : State) (tier multiplier baseReward : N)
  : result error State :=
  if negb (onlyOwner env s) then Err OwnableUnauthorizedAccount else
  if TIER_ALL_ROUNDER <? tier then Err InvalidTier else
  Ok {| owner := owner s;
        tokenContract := tokenContract s;
        oracleContract := oracleContract s;
        burnMultipliers := <[tier := multiplier]> (burnMultipliers s);
        baseRewards := <[tier := baseReward]> (baseRewards s);
        totalBurnedAmount := totalBurnedAmount s;
        totalRewardsDistributed := totalRewardsDistributed s;
        playerTotalRewards := playerTotalRewards s;
        playerTotalBurned := playerTotalBurned s;
        burnTransactions := burnTransactions s |}.

(** Reading [burnTransactions[txId].executed]: an unset slot reads [false]. *)
Definition executed (s : State) (txId : N) : bool :=
  match burnTransactions s !! txId with
  | Some t => bt_executed t
  | None => false
  end.

Section Hashed.

(** The hash function of the chain, on byte strings. *)
Variable keccak256 : list N -> N.

Definition _computeTxId (matchId player : N) : N :=
  keccak256 (be_bytes 32 matchId ++ be_bytes 20 player).

Definition burnForPerformance (env : Env) (s : State)
    (matchId player tier effortScore : N) : result error (N * N * State) :=
  if negb (onlyOracle env s) then Err (RequireFailed "Not authorized") else
  let txId := _computeTxId matchId player in
  if executed s txId then Err BurnAlreadyExecuted else
  rewardAmount <- calculateReward s tier effortScore ;;
  let burnAmount := rewardAmount / 10 in
  let transactions :=
    <[txId := {| bt_matchId := matchId;
                 bt_player := player;
                 bt_burnAmount := burnAmount;
                 bt_rewardAmount := rewardAmount;
                 bt_tier := tier;
                 bt_effortScore := effortScore;
                 bt_timestamp := block_timestamp env;
                 bt_executed := true |}]> (burnTransactions s) in
  burned <- checked_add (totalBurnedAmount s) burnAmount ;;
  distributed <- checked_add (totalRewardsDistributed s) rewardAmount ;;
  rewards <- checked_add (get (playerTotalRewards s) player) rewardAmount ;;
  burns <- checked_add (get (playerTotalBurned s) player) burnAmount ;;
  Ok (burnAmount, rewardAmount,
      {| owner := owner s;
         tokenContract := tokenContract s;
         oracleContract := oracleContract s;
         burnMultipliers := burnMultipliers s;
         baseRewards := baseRewards s;
         totalBurnedAmount := burned;
         totalRewardsDistributed := distributed;
         playerTotalRewards := <[player := rewards]> (playerTotalRewards s);
         playerTotalBurned := <[player := burns]> (playerTotalBurned s);
         burnTransactions := transactions |}).

Definition getBurnTransaction (s : State) (matchId player : N)
  : option BurnTransaction :=
  burnTransactions s !! _computeTxId matchId player.

(** The state-changing entry points of the contract. *)
Inductive call : Type :=
| CallSetOracleContract (_oracleContract : N)
| CallUpdateTier (tier multiplier baseReward : N)
| CallBurnForPerformance (matchId player tier effortScore : N).

Definition run (env : Env) (s : State) (c : call) : result error State :=
  match c with
  | CallSetOracleContract o => setOracleContract env s o
  | CallUpdateTier t m b => updateTier env s t m b
  | CallBurnForPerformance m p t e =>
      r <- burnForPerformance env s m p t e ;; Ok (snd r)
  end.

(** The storage after a sequence of transactions, each one committed or
    rolled back. *)
Fixpoint run_all (s : State) (txs : list (Env * call)) : State :=
  match txs with
  | [] => s
  | (env, c) :: rest => run_all (commit s (run env s c)) rest
  end.

End Hashed.

(** The read-only entry points. *)
Definition getRewardTier (s : State) (tier : N) : result error (N * N) :=
  if TIER_ALL_ROUNDER <? tier then Err InvalidTier else
  Ok (get (burnMultipliers s) tier, get (baseRewards s) tier).

Definition totalBurned (s : State) : N := totalBurnedAmount s.

Definition totalRewards (s : State) : N := totalRewardsDistributed s.

Definition getPlayerRewards (s : State) (player : N) : N :=
  get (playerTotalRewards s) player.

Definition getPlayerBurned (s : State) (player : N) : N :=
  get (playerTotalBurned s) player.

End Sol.

(** ** PerformanceOracle.sol *)

Module SolOracle.

Inductive error : Type :=
| MatchNotFound
| MatchAlreadyFinalized
| MatchAlreadyExists
| InvalidPlayer
| RequireFailed (reason : string)
| Panic.

Record MatchData : Type := mkMatchData {
  md_matchId : N;
  organizer : N;
  registeredAt : N;
  finalizedAt : N;
  isFinalized : bool;
  totalPlayers : N;
  dataHash : N
}.

Record PlayerPerformance : Type := mkPlayerPerformance {
  pp_player : N;
  runsScored : N;
  wicketsTaken : N;
  ballsFaced : N;
  ballsBowled : N;
  strikeRate : N;
  pp_tier : N;
  pp_effortScore : N;
  verified : bool
}.

Record State : Type := mkState {
  owner : N;
  matches : gmap N MatchData;
  performances : gmap (N * N) PlayerPerformance;
  playerMatchHistory : gmap N (list N);
  totalMatches : N;
  authorizedOracles : gmap N bool
}.

(** Reading [matches[matchId]]: an unset slot reads as the zero record. *)
Definition match_at (s : State) (matchId : N) : MatchData :=
  default (mkMatchData 0 0 0 0 false 0 0) (matches s !! matchId).

(** [modifier onlyAuthorized] *)
Definition onlyAuthorized (sender : N) (s : State) : bool :=
  default false (authorizedOracles s !! sender) || (sender =? owner s).

Definition registerMatch (sender now : N) (s : State) (matchId : N)
  : result error State :=
  if negb (onlyAuthorized sender s) then Err (RequireFailed "Not authorized") else
  if negb (registeredAt (match_at s matchId) =? 0) then Err MatchAlreadyExists else
  if Sol.MAX_UINT256 <? totalMatches s + 1 then Err Panic else
  Ok {| owner := owner s;
        matches := <[matchId := mkMatchData matchId sender now 0 false 0 0]> (matches s);
        performances := performances s;
        playerMatchHistory := playerMatchHistory s;
        totalMatches := totalMatches s + 1;
        authorizedOracles := authorizedOracles s |}.

Definition finalizeMatch (sender now : N) (s : State) (matchId hash playerCount : N)
  : result error State :=
  if negb (onlyAuthorized sender s) then Err (RequireFailed "Not authorized") else
  let matchData := match_at s matchId in
  if registeredAt matchData =? 0 then Err MatchNotFound else
  if isFinalized matchData then Err MatchAlreadyFinalized else
  Ok {| owner := owner s;
        matches :=
          <[matchId := mkMatchData (md_matchId matchData) (organizer matchData)
                         (registeredAt matchData) now true playerCount hash]> (matches s);
        performances := performances s;
        playerMatchHistory := playerMatchHistory s;
        totalMatches := totalMatches s;
        authorizedOracles := authorizedOracles s |}.

Definition recordPerformance (sender : N) (s : State)
    (matchId player runs wickets faced bowled tier effortScore : N)
  : result error State :=
  if negb (onlyAuthorized sender s) then Err (RequireFailed "Not authorized") else
  if registeredAt (match_at s matchId) =? 0 then Err MatchNotFound else
  if isFinalized (match_at s matchId) then Err MatchAlreadyFinalized else
  if negb (effortScore <=? 100) then Err (RequireFailed "Invalid effort score") else
  if negb (tier <=? 7) then Err (RequireFailed "Invalid tier") else
  if (0 <? faced) && (Sol.MAX_UINT256 <? runs * 100) then Err Panic else
  let rate := if 0 <? faced then runs * 100 / faced else 0 in
  Ok {| owner := owner s;
        matches := matches s;
        performances :=
          <[(matchId, player) :=
              mkPlayerPerformance player runs wickets faced bowled rate tier effortScore true]>
            (performances s);
        playerMatchHistory :=
          <[player := default [] (playerMatchHistory s !! player) ++ [matchId]]>
            (playerMatchHistory s);
        totalMatches := totalMatches s;
        authorizedOracles := authorizedOracles s |}.

(** [constructor]: the deployer owns the contract and is authorized. *)
Definition constructor (sender : N) : State :=
  {| owner := sender;
     matches := ∅;
     performances := ∅;
     playerMatchHistory := ∅;
     totalMatches := 0;
     authorizedOracles := {[sender := true]} |}.

(** A failure of the inherited [onlyOwner] modifier, or of the contract. *)
Inductive owner_error : Type :=
| OwnableUnauthorizedAccount (account : N)
| Reverted (e : error).

Definition setOracleAuthorization (sender : N) (s : State) (oracle : N) (authorized : bool)
  : result owner_error State :=
  if negb (sender =? owner s) then Err (OwnableUnauthorizedAccount sender) else
  if oracle =? 0 then Err (Reverted (RequireFailed "Invalid oracle address")) else
  Ok {| owner := owner s;
        matches := matches s;
        performances := performances s;
        playerMatchHistory := playerMatchHistory s;
        totalMatches := totalMatches s;
        authorizedOracles := <[oracle := authorized]> (authorizedOracles s) |}.

(** The read-only entry points. *)
Definition getMatchProof (s : State) (matchId : N) : N * bool * N :=
  let matchData := match_at s matchId in
  (dataHash matchData, isFinalized matchData, finalizedAt matchData).

Definition performance_at (s : State) (matchId player : N) : PlayerPerformance :=
  default (mkPlayerPerformance 0 0 0 0 0 0 0 0 false) (performances s !! (matchId, player)).

Definition verifyPerformance (s : State) (matchId player : N) : bool :=
  verified (performance_at s matchId player).

Definition getPlayerPerformance (s : State) (matchId player : N)
  : result error PlayerPerformance :=
  let perf := performance_at s matchId player in
  if negb (verified perf) then Err InvalidPlayer else Ok perf.

Definition getTotalMatches (s : State) : N := totalMatches s.

Definition getMatchDetails (s : State) (matchId : N) : result error MatchData :=
  if registeredAt (match_at s matchId) =? 0 then Err MatchNotFound
  else Ok (match_at s matchId).

(** The state-changing entry points, and the storage after a sequence of
    transactions, each one sent by [sender] at time [now] and committed or
    rolled back. *)
Inductive call : Type :=
| CallSetOracleAuthorization (oracle : N) (authorized : bool)
| CallRegisterMatch (matchId : N)
| CallFinalizeMatch (matchId hash playerCount : N)
| CallRecordPerformance (matchId player runs wickets faced bowled tier effortScore : N).

Definition step (s : State) (tx : N * N * call) : State :=
  let sender := fst (fst tx) in
  let now := snd (fst tx) in
  match snd tx with
  | CallSetOracleAuthorization oracle authorized =>
      commit s (setOracleAuthorization sender s oracle authorized)
  | CallRegisterMatch matchId => commit s (registerMatch sender now s matchId)
  | CallFinalizeMatch matchId hash playerCount =>
      commit s (finalizeMatch sender now s matchId hash playerCount)
  | CallRecordPerformance matchId player runs wickets faced bowled tier effortScore =>
      commit s (recordPerformance sender s matchId player runs wickets faced bowled
                  tier effortScore)
  end.

Definition run_all (s : State) (txs : list (N * N * call)) : State :=
  fold_left step txs s.

End SolOracle.

(** ** Move modules of [spp_protocol] *)

Module Move.

Definition MAX_U64 : N := 2 ^ 64 - 1.

(** How a Move transaction fails: an [assert!] or [abort] with its code, an
    arithmetic overflow, a missing or already published resource, a table
    operation on the wrong key, or an abort inside the fungible-asset
    framework called by [spp_token]. *)
Inductive abort : Type :=
| Abort (code : N)
| ArithmeticError
| MissingResource
| ResourceExists
| TableError
| FrameworkAbort.

Definition add64 (a b : N) : result abort N :=
  if a + b <=? MAX_U64 then Ok (a + b) else Err ArithmeticError.

Definition mul64 (a b : N) : result abort N :=
  if a * b <=? MAX_U64 then Ok (a * b) else Err ArithmeticError.

Definition assert (c : bool) (code : N) : result abort unit :=
  if c then Ok tt else Err (Abort code).

(** [borrow_global] and [borrow_global_mut] at [@spp_protocol]. *)
Definition borrow_global {R : Type} (published : option R) : result abort R :=
  match published with
  | Some r => Ok r
  | None => Err MissingResource
  end.

(** [bcs::to_bytes] of an account address: its 32 bytes. *)
Definition bcs_to_bytes (addr : N) : list N := be_bytes 32 addr.

(** The account the modules are published under: a named address, fixed
    when the package is published; nothing depends on its value. *)
Definition spp_protocol : N := 0xcafe.

End Move.

Module reward_tiers.
Import Move.

Definition E_NOT_AUTHORIZED : N := 1.
Definition E_INVALID_TIER : N := 2.

Record TierConfig : Type := mkTierConfig {
  tier : N;
  multiplier : N;
  base_reward : N;
  min_score : N
}.

Record TiersState : Type := mkTiersState {
  admin : N;
  tier_0 : TierConfig;
  tier_1 : TierConfig;
  tier_2 : TierConfig;
  tier_3 : TierConfig;
  tier_4 : TierConfig;
  tier_5 : TierConfig;
  tier_6 : TierConfig;
  tier_7 : TierConfig
}.

(** [move_to(admin, ...)] publishes the resource under the signer's
    account; [global] is what is published at [@spp_protocol]. *)
Definition initialize (global : option TiersState) (admin_addr : N)
  : result abort (option TiersState) :=
  if negb (admin_addr =? spp_protocol) then Ok global else
  match global with
  | Some _ => Err ResourceExists
  | None =>
      Ok (Some
        {| admin := admin_addr;
           tier_0 := mkTierConfig 0 150 5000000000 50;
           tier_1 := mkTierConfig 1 300 15000000000 70;
           tier_2 := mkTierConfig 2 250 10000000000 60;
           tier_3 := mkTierConfig 3 300 20000000000 80;
           tier_4 := mkTierConfig 4 150 3000000000 40;
           tier_5 := mkTierConfig 5 400 25000000000 90;
           tier_6 := mkTierConfig 6 130 4000000000 45;
           tier_7 := mkTierConfig 7 200 12000000000 65 |})
  end.

Definition set_tier (state : TiersState) (t : N) (c : TierConfig) : TiersState :=
  if t =? 0 then
    mkTiersState (admin state) c (tier_1 state) (tier_2 state) (tier_3 state)
      (tier_4 state) (tier_5 state) (tier_6 state) (tier_7 state)
  else if t =? 1 then
    mkTiersState (admin state) (tier_0 state) c (tier_2 state) (tier_3 state)
      (tier_4 state) (tier_5 state) (tier_6 state) (tier_7 state)
  else if t =? 2 then
    mkTiersState (admin state) (tier_0 state) (tier_1 state) c (tier_3 state)
      (tier_4 state) (tier_5 state) (tier_6 state) (tier_7 state)
  else if t =? 3 then
    mkTiersState (admin state) (tier_0 state) (tier_1 state) (tier_2 state) c
      (tier_4 state) (tier_5 state) (tier_6 state) (tier_7 state)
  else if t =? 4 then
    mkTiersState (admin state) (tier_0 state) (tier_1 state) (tier_2 state)
      (tier_3 state) c (tier_5 state) (tier_6 state) (tier_7 state)
  else if t =? 5 then
    mkTiersState (admin state) (tier_0 state) (tier_1 state) (tier_2 state)
      (tier_3 state) (tier_4 state) c (tier_6 state) (tier_7 state)
  else if t =? 6 then
    mkTiersState (admin state) (tier_0 state) (tier_1 state) (tier_2 state)
      (tier_3 state) (tier_4 state) (tier_5 state) c (tier_7 state)
  else if t =? 7 then
    mkTiersState (admin state) (tier_0 state) (tier_1 state) (tier_2 state)
      (tier_3 state) (tier_4 state) (tier_5 state) (tier_6 state) c
  else state.

Definition update_tier (global : option TiersState) (admin_addr : N)
    (t mult base min : N) : result abort (option TiersState) :=
  state <- borrow_global global ;;
  _ <- assert (admin_addr =? admin state) E_NOT_AUTHORIZED ;;
  _ <- assert (t <=? 7) E_INVALID_TIER ;;
  let new_config := mkTierConfig t mult base min in
  Ok (Some (set_tier state t new_config)).

Definition get_tier_config (global : option TiersState) (t : N)
  : result abort (N * N) :=
  state <- borrow_global global ;;
  _ <- assert (t <=? 7) E_INVALID_TIER ;;
  let config :=
    if t =? 0 then tier_0 state
    else if t =? 1 then tier_1 state
    else if t =? 2 then tier_2 state
    else if t =? 3 then tier_3 state
    else if t =? 4 then tier_4 state
    else if t =? 5 then tier_5 state
    else if t =? 6 then tier_6 state
    else tier_7 state in
  Ok (multiplier config, base_reward config).

Definition get_all_tiers (global : option TiersState) : result abort (list TierConfig) :=
  state <- borrow_global global ;;
  Ok [tier_0 state; tier_1 state; tier_2 state; tier_3 state;
      tier_4 state; tier_5 state; tier_6 state; tier_7 state].

End reward_tiers.

Module deflatinary_burn.
Import Move.

Definition E_NOT_AUTHORIZED : N := 1.
Definition E_MATCH_NOT_FOUND : N := 2.
Definition E_ALREADY_BURNED : N := 3.
Definition E_INSUFFICIENT_BALANCE : N := 4.
Definition E_INVALID_TIER : N := 5.

Record BurnRecord : Type := mkBurnRecord {
  match_id : list N;
  player : N;
  burn_amount : N;
  reward_amount : N;
  tier : N;
  effort_score : N;
  timestamp : N
}.

Record BurnEngineState : Type := mkBurnEngineState {
  admin : N;
  burn_records : gmap (list N) BurnRecord;
  total_burned : N;
  total_rewards : N;
  player_rewards : gmap N N;
  player_burned : gmap N N
}.

(** What a call sees outside the two modules: the ledger clock and whether
    the [spp_token] calls go through for the given account and amount.
    [spp_token::burn] ends in the fungible-asset framework, which aborts on
    an insufficient balance; [spp_token::mint] asserts that the minting
    account is [@spp_protocol] before it does. *)
Record Env : Type := mkEnv {
  now_seconds : N;
  spp_token_burn : N -> N -> bool;
  spp_token_mint : N -> N -> bool
}.

Definition initialize (global : option BurnEngineState) (admin_addr : N)
  : result abort (option BurnEngineState) :=
  if negb (admin_addr =? spp_protocol) then Ok global else
  match global with
  | Some _ => Err ResourceExists
  | None =>
      Ok (Some {| admin := admin_addr;
                  burn_records := ∅;
                  total_burned := 0;
                  total_rewards := 0;
                  player_rewards := ∅;
                  player_burned := ∅ |})
  end.

Definition calculate_reward (tiers : option reward_tiers.TiersState)
    (t effort : N) : result abort N :=
  config <- reward_tiers.get_tier_config tiers t ;;
  let multiplier := fst config in
  let base_reward := snd config in
  let effort_multiplier := effort in
  weighted <- mul64 base_reward multiplier ;;
  product <- mul64 weighted effort_multiplier ;;
  let reward := product / 10000 in
  Ok reward.

(** The per-player tallies: add to the entry, or create it. *)
Definition bump (table : gmap N N) (addr amount : N) : result abort (gmap N N) :=
  match table !! addr with
  | Some current =>
      updated <- add64 current amount ;;
      Ok (<[addr := updated]> table)
  | None => Ok (<[addr := amount]> table)
  end.

Definition burn_for_performance (env : Env)
    (tiers : option reward_tiers.TiersState) (global : option BurnEngineState)
    (player_addr : N) (id : list N) (t performance_score effort : N)
  : result abort BurnEngineState :=
  state <- borrow_global global ;;
  _ <- assert (t <=? 7) E_INVALID_TIER ;;
  let burn_key := id ++ bcs_to_bytes player_addr in
  _ <- assert (negb (bool_decide (is_Some (burn_records state !! burn_key))))
         E_ALREADY_BURNED ;;
  reward <- calculate_reward tiers t effort ;;
  let burned := reward / 10 in
  _ <- (if spp_token_burn env player_addr burned then Ok tt else Err FrameworkAbort) ;;
  let record := {| match_id := id;
                   player := player_addr;
                   burn_amount := burned;
                   reward_amount := reward;
                   tier := t;
                   effort_score := effort;
                   timestamp := now_seconds env |} in
  let records := <[burn_key := record]> (burn_records state) in
  new_total_burned <- add64 (total_burned state) burned ;;
  new_total_rewards <- add64 (total_rewards state) reward ;;
  new_player_burned <- bump (player_burned state) player_addr burned ;;
  new_player_rewards <- bump (player_rewards state) player_addr reward ;;
  _ <- (if spp_token_mint env player_addr reward then Ok tt else Err FrameworkAbort) ;;
  Ok {| admin := admin state;
        burn_records := records;
        total_burned := new_total_burned;
        total_rewards := new_total_rewards;
        player_rewards := new_player_rewards;
        player_burned := new_player_burned |}.

Definition get_burn_record (global : option BurnEngineState)
    (id : list N) (player_addr : N) : result abort BurnRecord :=
  state <- borrow_global global ;;
  let burn_key := id ++ bcs_to_bytes player_addr in
  match burn_records state !! burn_key with
  | Some r => Ok r
  | None => Err (Abort E_MATCH_NOT_FOUND)
  end.

(** One burn request: who asks, and with which arguments. *)
Record request : Type := mkRequest {
  rq_player : N;
  rq_match_id : list N;
  rq_tier : N;
  rq_performance_score : N;
  rq_effort_score : N
}.

Definition serve (env : Env) (tiers : option reward_tiers.TiersState)
    (global : option BurnEngineState) (rq : request) : result abort BurnEngineState :=
  burn_for_performance env tiers global (rq_player rq) (rq_match_id rq)
    (rq_tier rq) (rq_performance_score rq) (rq_effort_score rq).

(** Sums over the tables of the engine. *)
Definition sum_records (f : BurnRecord -> N) (m : gmap (list N) BurnRecord) : N :=
  map_fold (fun _ r acc => f r + acc) 0 m.

Definition sum_tally (m : gmap N N) : N :=
  map_fold (fun _ v acc => v + acc) 0 m.

(** The view functions [total_burned], [total_rewards], [get_player_rewards]
    and [get_player_burned]; the first two share their names with the fields
    they read. *)
Definition total_burned_view (global : option BurnEngineState) : result abort N :=
  state <- borrow_global global ;; Ok (total_burned state).

Definition total_rewards_view (global : option BurnEngineState) : result abort N :=
  state <- borrow_global global ;; Ok (total_rewards state).

Definition get_player_rewards (global : option BurnEngineState) (player_addr : N)
  : result abort N :=
  state <- borrow_global global ;;
  match player_rewards state !! player_addr with
  | Some amount => Ok amount
  | None => Ok 0
  end.

Definition get_player_burned (global : option BurnEngineState) (player_addr : N)
  : result abort N :=
  state <- borrow_global global ;;
  match player_burned state !! player_addr with
  | Some amount => Ok amount
  | None => Ok 0
  end.

End deflatinary_burn.

Module performance_oracle.
Import Move.

Definition E_NOT_AUTHORIZED : N := 1.
Definition E_MATCH_NOT_FOUND : N := 2.
Definition E_MATCH_ALREADY_EXISTS : N := 3.
Definition E_MATCH_ALREADY_FINALIZED : N := 4.
Definition E_MATCH_NOT_FINALIZED : N := 5.

Definition STATUS_REGISTERED : N := 0.
Definition STATUS_IN_PROGRESS : N := 1.
Definition STATUS_FINALIZED : N := 2.
Definition STATUS_CANCELLED : N := 3.

Record Match : Type := mkMatch {
  match_id : list N;
  sport : N;
  status : N;
  winner : N;
  data_hash : list N;
  player_count : N;
  registered_at : N;
  finalized_at : N
}.

Record Performance : Type := mkPerformance {
  perf_match_id : list N;
  perf_player : N;
  performance_score : N;
  effort_score : N;
  reward_tier : N;
  perf_timestamp : N;
  verified : bool
}.

Record CricketPerformance : Type := mkCricketPerformance {
  cp_match_id : list N;
  cp_player : N;
  runs : N;
  balls_faced : N;
  wickets : N;
  overs_bowled : N;
  runs_conceded : N;
  maiden_overs : N;
  cp_timestamp : N
}.

Record OracleState : Type := mkOracleState {
  admin : N;
  oracle_addresses : list N;
  match_store : gmap (list N) Match;
  performance_store : gmap (list N) Performance;
  cricket_performance_store : gmap (list N) CricketPerformance
}.

Definition initialize (global : option OracleState) (admin_addr : N)
  : result abort (option OracleState) :=
  if negb (admin_addr =? spp_protocol) then Ok global else
  match global with
  | Some _ => Err ResourceExists
  | None =>
      Ok (Some {| admin := admin_addr;
                  oracle_addresses := [];
                  match_store := ∅;
                  performance_store := ∅;
                  cricket_performance_store := ∅ |})
  end.

(** The authorisation test shared by the entry functions. *)
Definition authorized (state : OracleState) (oracle_addr : N) : bool :=
  (oracle_addr =? admin state)
  || bool_decide (oracle_addr ∈ oracle_addresses state).

Definition add_oracle (global : option OracleState) (admin_addr oracle_addr : N)
  : result abort OracleState :=
  state <- borrow_global global ;;
  _ <- assert (admin_addr =? admin state) E_NOT_AUTHORIZED ;;
  Ok {| admin := admin state;
        oracle_addresses := oracle_addresses state ++ [oracle_addr];
        match_store := match_store state;
        performance_store := performance_store state;
        cricket_performance_store := cricket_performance_store state |}.

Definition register_match (now : N) (global : option OracleState)
    (oracle_addr : N) (id : list N) (sp : N) : result abort OracleState :=
  state <- borrow_global global ;;
  _ <- assert (authorized state oracle_addr) E_NOT_AUTHORIZED ;;
  _ <- assert (negb (bool_decide (is_Some (match_store state !! id))))
         E_MATCH_ALREADY_EXISTS ;;
  let match_data := {| match_id := id;
                       sport := sp;
                       status := STATUS_REGISTERED;
                       winner := 0;
                       data_hash := [];
                       player_count := 0;
                       registered_at := now;
                       finalized_at := 0 |} in
  Ok {| admin := admin state;
        oracle_addresses := oracle_addresses state;
        match_store := <[id := match_data]> (match_store state);
        performance_store := performance_store state;
        cricket_performance_store := cricket_performance_store state |}.

Definition finalize_match (now : N) (global : option OracleState)
    (oracle_addr : N) (id : list N) (win : N) (hash : list N)
  : result abort OracleState :=
  state <- borrow_global global ;;
  _ <- assert (authorized state oracle_addr) E_NOT_AUTHORIZED ;;
  match match_store state !! id with
  | None => Err (Abort E_MATCH_NOT_FOUND)
  | Some match_data =>
      _ <- assert (negb (status match_data =? STATUS_FINALIZED))
             E_MATCH_ALREADY_FINALIZED ;;
      let finalized := {| match_id := match_id match_data;
                          sport := sport match_data;
                          status := STATUS_FINALIZED;
                          winner := win;
                          data_hash := hash;
                          player_count := player_count match_data;
                          registered_at := registered_at match_data;
                          finalized_at := now |} in
      Ok {| admin := admin state;
            oracle_addresses := oracle_addresses state;
            match_store := <[id := finalized]> (match_store state);
            performance_store := performance_store state;
            cricket_performance_store := cricket_performance_store state |}
  end.

Definition record_performance (now : N) (global : option OracleState)
    (oracle_addr : N) (id : list N) (player_addr score effort t : N)
  : result abort OracleState :=
  state <- borrow_global global ;;
  _ <- assert (authorized state oracle_addr) E_NOT_AUTHORIZED ;;
  _ <- assert (bool_decide (is_Some (match_store state !! id))) E_MATCH_NOT_FOUND ;;
  let perf_key := id ++ bcs_to_bytes player_addr in
  let performance := {| perf_match_id := id;
                        perf_player := player_addr;
                        performance_score := score;
                        effort_score := effort;
                        reward_tier := t;
                        perf_timestamp := now;
                        verified := true |} in
  Ok {| admin := admin state;
        oracle_addresses := oracle_addresses state;
        match_store := match_store state;
        performance_store := <[perf_key := performance]> (performance_store state);
        cricket_performance_store := cricket_performance_store state |}.

Definition record_cricket_performance (now : N) (global : option OracleState)
    (oracle_addr : N) (id : list N)
    (player_addr r faced w overs conceded maidens : N)
  : result abort OracleState :=
  state <- borrow_global global ;;
  _ <- assert (authorized state oracle_addr) E_NOT_AUTHORIZED ;;
  _ <- assert (bool_decide (is_Some (match_store state !! id))) E_MATCH_NOT_FOUND ;;
  let perf_key := id ++ bcs_to_bytes player_addr in
  let cricket_perf := {| cp_match_id := id;
                         cp_player := player_addr;
                         runs := r;
                         balls_faced := faced;
                         wickets := w;
                         overs_bowled := overs;
                         runs_conceded := conceded;
                         maiden_overs := maidens;
                         cp_timestamp := now |} in
  Ok {| admin := admin state;
        oracle_addresses := oracle_addresses state;
        match_store := match_store state;
        performance_store := performance_store state;
        cricket_performance_store :=
          <[perf_key := cricket_perf]> (cricket_performance_store state) |}.

Definition get_match (global : option OracleState) (id : list N)
  : result abort Match :=
  state <- borrow_global global ;;
  match match_store state !! id with
  | Some m => Ok m
  | None => Err (Abort E_MATCH_NOT_FOUND)
  end.

Definition get_performance (global : option OracleState) (id : list N)
    (player_addr : N) : result abort Performance :=
  state <- borrow_global global ;;
  match performance_store state !! (id ++ bcs_to_bytes player_addr) with
  | Some p => Ok p
  | None => Err (Abort E_MATCH_NOT_FOUND)
  end.

End performance_oracle.

(** ** Adapters: reward tier of a cricket performance *)

(** [enum RewardTier] of [chain-adapter.interface.ts]. *)
Inductive RewardTier : Type :=
| NIFTY_FIFTY
| GAYLE_STORM
| FIVE_WICKET_HAUL
| HAT_TRICK
| MAIDEN_MASTER
| RUN_MACHINE
| GOLDEN_ARM
| ALL_ROUNDER.

Definition RewardTier_value (t : RewardTier) : N :=
  match t with
  | NIFTY_FIFTY => 0
  | GAYLE_STORM => 1
  | FIVE_WICKET_HAUL => 2
  | HAT_TRICK => 3
  | MAIDEN_MASTER => 4
  | RUN_MACHINE => 5
  | GOLDEN_ARM => 6
  | ALL_ROUNDER => 7
  end.

(** [interface CricketPerformanceParams]; the counters are JavaScript
    numbers, here integers. *)
Record CricketPerformanceParams : Type := mkCricketPerformanceParams {
  matchId : string;
  player : string;
  runs : Z;
  ballsFaced : Z;
  wickets : Z;
  oversBowled : Z;
  runsConceded : Z;
  maidenOvers : Z
}.

Module AptosAdapter.

Definition determineCricketTier (params : CricketPerformanceParams) : RewardTier :=
  if (runs params >=? 100)%Z then GAYLE_STORM
  else if (runs params >=? 50)%Z then NIFTY_FIFTY
  else if (wickets params >=? 5)%Z then FIVE_WICKET_HAUL
  else if (wickets params >=? 3)%Z then HAT_TRICK
  else if (maidenOvers params >=? 3)%Z then MAIDEN_MASTER
  else ALL_ROUNDER.

(** JavaScript strings as sequences of code units; the model covers the
    code units below 256. *)
Definition jsstring : Type := list ascii.

Definition code (c : ascii) : N := N_of_ascii c.

Definition between (lo hi : N) (c : ascii) : bool :=
  (lo <=? code c) && (code c <=? hi).

(** [String.prototype.toLowerCase] on one code unit: the ASCII capitals and
    the capitals of the Latin-1 block (except the multiplication sign) move
    to their small letters, 32 places up. *)
Definition lower_char (c : ascii) : ascii :=
  if between 65 90 c || (between 192 222 c && negb (code c =? 215))
  then ascii_of_N (code c + 32)
  else c.

Definition toLowerCase (s : jsstring) : jsstring := map lower_char s.

(** [s.replace(/^0x/, '')] *)
Definition strip_0x (s : jsstring) : jsstring :=
  match s with
  | c1 :: c2 :: rest =>
      if Ascii.eqb c1 "0" && Ascii.eqb c2 "x" then rest else s
  | _ => s
  end.

(** [s.padStart(n, '0')] *)
Definition padStart (n : nat) (s : jsstring) : jsstring :=
  repeat "0"%char (n - length s)%nat ++ s.

(** The character class [a-fA-F0-9]. *)
Definition is_hex (c : ascii) : bool :=
  between 97 102 c || between 65 70 c || between 48 57 c.

(** The character class [a-f0-9]. *)
Definition is_lower_hex (c : ascii) : bool :=
  between 97 102 c || between 48 57 c.

Definition formatAddress (address : jsstring) : jsstring :=
  let cleanAddress := strip_0x (toLowerCase address) in
  let cleanAddress := padStart 64 cleanAddress in
  "0"%char :: "x"%char :: cleanAddress.

(** The test of [/^[a-fA-F0-9]{1,64}$/]. *)
Definition validateAddress (address : jsstring) : bool :=
  let cleanAddress := strip_0x address in
  forallb is_hex cleanAddress
  && (1 <=? length cleanAddress)%nat && (length cleanAddress <=? 64)%nat.

End AptosAdapter.

Module OpBNBAdapter.

Definition determineCricketTier (params : CricketPerformanceParams) : RewardTier :=
  if (runs params >=? 100)%Z then GAYLE_STORM
  else if (runs params >=? 50)%Z then NIFTY_FIFTY
  else if (wickets params >=? 5)%Z then FIVE_WICKET_HAUL
  else if (wickets params >=? 3)%Z then HAT_TRICK
  else if (maidenOvers params >=? 3)%Z then MAIDEN_MASTER
  else ALL_ROUNDER.

(** EVM addresses: [formatAddress] lowers the case and [validateAddress]
    is the test of [/^0x[a-fA-F0-9]{40}$/]. *)
Definition formatAddress (address : AptosAdapter.jsstring) : AptosAdapter.jsstring :=
  AptosAdapter.toLowerCase address.

Definition validateAddress (address : AptosAdapter.jsstring) : bool :=
  match address with
  | c1 :: c2 :: rest =>
      Ascii.eqb c1 "0" && Ascii.eqb c2 "x"
      && forallb AptosAdapter.is_hex rest && (length rest =? 40)%nat
  | _ => false
  end.

End OpBNBAdapter.

Module ArbitrumAdapter.

(** The tier that [recordCricketPerformance] passes on as [rewardTier]: a
    variable assigned by a sequence of independent tests. *)
Definition recordCricketPerformance_tier (params : CricketPerformanceParams)
  : RewardTier :=
  let tier := ALL_ROUNDER in
  let tier := if (runs params >=? 50)%Z then NIFTY_FIFTY else tier in
  let tier := if (runs params >=? 100)%Z then GAYLE_STORM else tier in
  let tier := if (wickets params >=? 3)%Z then HAT_TRICK else tier in
  let tier := if (wickets params >=? 5)%Z then FIVE_WICKET_HAUL else tier in
  let tier := if (maidenOvers params >=? 3)%Z then MAIDEN_MASTER else tier in
  tier.

(** EVM addresses: [formatAddress] lowers the case and [validateAddress]
    is the test of [/^0x[a-fA-F0-9]{40}$/]. *)
Definition formatAddress (address : AptosAdapter.jsstring) : AptosAdapter.jsstring :=
  AptosAdapter.toLowerCase address.

Definition validateAddress (address : AptosAdapter.jsstring) : bool :=
  match address with
  | c1 :: c2 :: rest =>
      Ascii.eqb c1 "0" && Ascii.eqb c2 "x"
      && forallb AptosAdapter.is_hex rest && (length rest =? 40)%nat
  | _ => false
  end.

End ArbitrumAdapter.

(** The ordered rule evaluation the adapters are to agree on, highest
    priority first. *)
Definition cricket_tier_rules (r w m : Z) : RewardTier :=
  if (100 <=? r)%Z then GAYLE_STORM
  else if (50 <=? r)%Z then NIFTY_FIFTY
  else if (5 <=? w)%Z then FIVE_WICKET_HAUL
  else if (3 <=? w)%Z then HAT_TRICK
  else if (3 <=? m)%Z then MAIDEN_MASTER
  else ALL_ROUNDER.

(** ** ChainRegistryService *)

Module Registry.

Local Open Scope Z_scope.

Inductive ChainType : Type := ARBITRUM | SOLANA | BNB | OPBNB | APTOS.

#[export] Instance ChainType_eq_dec : EqDecision ChainType.
Proof. solve_decision. Defined.

Definition ChainType_name (c : ChainType) : string :=
  match c with
  | ARBITRUM => "arbitrum"
  | SOLANA => "solana"
  | BNB => "bnb"
  | OPBNB => "opbnb"
  | APTOS => "aptos"
  end.

(** An adapter instance: the object [createChainAdapter] built, told apart
    by the order of creation. *)
Record IChainAdapter : Type := mkAdapter {
  adapter_chain : ChainType;
  adapter_serial : N
}.

Record ChainStatus : Type := mkChainStatus {
  chainType : ChainType;
  isHealthy : bool;
  lastHealthCheck : Z;
  failureCount : Z;
  lastError : option string
}.

(** [undefined] fields are [None]. *)
Record RegistryConfig : Type := mkRegistryConfig {
  healthCheckInterval : option Z;
  maxFailures : option Z;
  enableFailover : option bool;
  primaryChain : option ChainType
}.

Record ChainEntry : Type := mkChainEntry {
  adapter : IChainAdapter;
  status : ChainStatus
}.

Inductive Event : Type :=
| chain_registered (c : ChainType)
| chain_unregistered (c : ChainType)
| chain_recovered (c : ChainType)
| chain_unhealthy (c : ChainType).

(** The service: [chains] is a JavaScript [Map], which iterates in
    insertion order and keeps the place of a key that is set again. *)
Record State : Type := mkState {
  chains : list (ChainType * ChainEntry);
  config : RegistryConfig;
  emitted : list Event;
  created : N
}.

Definition initial : State :=
  {| chains := [];
     config := {| healthCheckInterval := Some 60000;
                  maxFailures := Some 3;
                  enableFailover := Some true;
                  primaryChain := Some ARBITRUM |};
     emitted := [];
     created := 0%N |}.

(** [Map.prototype.get] *)
Fixpoint map_get (m : list (ChainType * ChainEntry)) (k : ChainType)
  : option ChainEntry :=
  match m with
  | [] => None
  | (k', e) :: rest => if decide (k' = k) then Some e else map_get rest k
  end.

(** [Map.prototype.set] *)
Fixpoint map_set (m : list (ChainType * ChainEntry)) (k : ChainType) (e : ChainEntry)
  : list (ChainType * ChainEntry) :=
  match m with
  | [] => [(k, e)]
  | (k', e') :: rest =>
      if decide (k' = k) then (k, e) :: rest else (k', e') :: map_set rest k e
  end.

(** [Map.prototype.delete] *)
Fixpoint map_delete (m : list (ChainType * ChainEntry)) (k : ChainType)
  : list (ChainType * ChainEntry) :=
  match m with
  | [] => []
  | (k', e') :: rest =>
      if decide (k' = k) then rest else (k', e') :: map_delete rest k
  end.

(** A partial configuration: [None] when the key is absent, [Some v] when
    it is present with value [v]. *)
Record PartialConfig : Type := mkPartialConfig {
  p_healthCheckInterval : option (option Z);
  p_maxFailures : option (option Z);
  p_enableFailover : option (option bool);
  p_primaryChain : option (option ChainType)
}.

Definition configure (s : State) (p : PartialConfig) : State :=
  {| chains := chains s;
     config :=
       {| healthCheckInterval :=
            default (healthCheckInterval (config s)) (p_healthCheckInterval p);
          maxFailures := default (maxFailures (config s)) (p_maxFailures p);
          enableFailover := default (enableFailover (config s)) (p_enableFailover p);
          primaryChain := default (primaryChain (config s)) (p_primaryChain p) |};
     emitted := emitted s;
     created := created s |}.

(** [createChainAdapter] has no case for Solana. *)
Definition createChainAdapter (serial : N) (c : ChainType)
  : result string IChainAdapter :=
  match c with
  | SOLANA => Err ("Unsupported chain type: " ++ ChainType_name c)%string
  | _ => Ok (mkAdapter c serial)
  end.

(** [registerChain]; [init_error] is the error of [adapter.initialize], if
    it throws, and [now] the clock. *)
Definition registerChain (s : State) (now : Z) (init_error : option string)
    (c : ChainType) : result string State :=
  a <- createChainAdapter (created s) c ;;
  match init_error with
  | Some e => Err e
  | None =>
      let entry := {| adapter := a;
                      status := {| chainType := c;
                                   isHealthy := true;
                                   lastHealthCheck := now;
                                   failureCount := 0;
                                   lastError := None |} |} in
      Ok {| chains := map_set (chains s) c entry;
            config := config s;
            emitted := emitted s ++ [chain_registered c];
            created := N.succ (created s) |}
  end.

Definition unregisterChain (s : State) (c : ChainType) : State :=
  match map_get (chains s) c with
  | None => s
  | Some _ =>
      {| chains := map_delete (chains s) c;
         config := config s;
         emitted := emitted s ++ [chain_unregistered c];
         created := created s |}
  end.

Definition not_registered (c : ChainType) : string :=
  ("Chain " ++ ChainType_name c ++ " not registered")%string.

(** The truth value of [this.config.enableFailover]. *)
Definition failover_enabled (s : State) : bool :=
  default false (enableFailover (config s)).

(** The first entry of the map, in iteration order, whose status is
    healthy. *)
Fixpoint first_healthy (m : list (ChainType * ChainEntry)) : option ChainEntry :=
  match m with
  | [] => None
  | (_, e) :: rest => if isHealthy (status e) then Some e else first_healthy rest
  end.

Definition healthy_primary (s : State) : option ChainEntry :=
  match primaryChain (config s) with
  | Some p =>
      match map_get (chains s) p with
      | Some primary => if isHealthy (status primary) then Some primary else None
      | None => None
      end
  | None => None
  end.

Definition getHealthyAdapter (s : State) : result string IChainAdapter :=
  match healthy_primary s with
  | Some primary => Ok (adapter primary)
  | None =>
      match first_healthy (chains s) with
      | Some entry => Ok (adapter entry)
      | None => Err "No healthy chains available"%string
      end
  end.

Definition getAdapter (s : State) (c : ChainType) : result string IChainAdapter :=
  match map_get (chains s) c with
  | None => Err (not_registered c)
  | Some entry =>
      if negb (isHealthy (status entry)) && failover_enabled s
      then getHealthyAdapter s
      else Ok (adapter entry)
  end.

Definition isChainHealthy (s : State) (c : ChainType) : bool :=
  match map_get (chains s) c with
  | Some entry => isHealthy (status entry)
  | None => false
  end.

Definition getChainStatus (s : State) (c : ChainType) : result string ChainStatus :=
  match map_get (chains s) c with
  | None => Err (not_registered c)
  | Some entry => Ok (status entry)
  end.

(** What [adapter.healthCheck()] does when awaited. *)
Inductive Probe : Type :=
| Resolves (isHealthy : bool)
| Throws (message : string).

(** [this.config.maxFailures || 3] *)
Definition threshold (s : State) : Z :=
  match maxFailures (config s) with
  | Some n => if n =? 0 then 3 else n
  | None => 3
  end.

Definition checkChainHealth (s : State) (now : Z) (probe : Probe) (c : ChainType)
  : result string (bool * State) :=
  match map_get (chains s) c with
  | None => Err (not_registered c)
  | Some entry =>
      let st := status entry in
      match probe with
      | Resolves true =>
          let events :=
            if 0 <? failureCount st then [chain_recovered c] else [] in
          let st' := {| chainType := chainType st;
                        isHealthy := true;
                        lastHealthCheck := now;
                        failureCount := 0;
                        lastError := None |} in
          Ok (true,
              {| chains := map_set (chains s) c (mkChainEntry (adapter entry) st');
                 config := config s;
                 emitted := emitted s ++ events;
                 created := created s |})
      | Resolves false =>
          let count := failureCount st + 1 in
          let reached := threshold s <=? count in
          let events :=
            if reached && isHealthy st then [chain_unhealthy c] else [] in
          let st' := {| chainType := chainType st;
                        isHealthy := if reached then false else isHealthy st;
                        lastHealthCheck := now;
                        failureCount := count;
                        lastError := lastError st |} in
          Ok (false,
              {| chains := map_set (chains s) c (mkChainEntry (adapter entry) st');
                 config := config s;
                 emitted := emitted s ++ events;
                 created := created s |})
      | Throws message =>
          let count := failureCount st + 1 in
          let reached := threshold s <=? count in
          let events :=
            if reached && isHealthy st then [chain_unhealthy c] else [] in
          let st' := {| chainType := chainType st;
                        isHealthy := if reached then false else isHealthy st;
                        lastHealthCheck := now;
                        failureCount := count;
                        lastError := Some message |} in
          Ok (false,
              {| chains := map_set (chains s) c (mkChainEntry (adapter entry) st');
                 config := config s;
                 emitted := emitted s ++ events;
                 created := created s |})
      end
  end.

(** The state after a probe, when the chain is registered. *)
Definition probed (s : State) (now : Z) (probe : Probe) (c : ChainType) : State :=
  match checkChainHealth s now probe c with
  | Ok (_, s') => s'
  | Err _ => s
  end.

(** [getRegisteredChains]: the keys of the map in iteration order. *)
Definition getRegisteredChains (s : State) : list ChainType := map fst (chains s).

(** [getActiveChains] *)
Definition getActiveChains (s : State) : list ChainType :=
  map (fun entry => chainType (status entry))
    (List.filter (fun entry => isHealthy (status entry)) (map snd (chains s))).

(** [isChainRegistered]: [Map.prototype.has]. *)
Definition isChainRegistered (s : State) (c : ChainType) : bool :=
  match map_get (chains s) c with
  | Some _ => true
  | None => false
  end.

(** [getSupportedChains] of the adapter index. *)
Definition getSupportedChains : list ChainType := [ARBITRUM; BNB; OPBNB; APTOS].

Record Statistics : Type := mkStatistics {
  totalChains : Z;
  healthyChains : Z;
  unhealthyChains : Z;
  stat_primaryChain : option ChainType;
  supportedChains : list ChainType
}.

Definition getStatistics (s : State) : Statistics :=
  let statuses := map (fun e => status e) (map snd (chains s)) in
  {| totalChains := Z.of_nat (length (chains s));
     healthyChains :=
       Z.of_nat (length (List.filter (fun st => isHealthy st) statuses));
     unhealthyChains :=
       Z.of_nat (length (List.filter (fun st => negb (isHealthy st)) statuses));
     stat_primaryChain := primaryChain (config s);
     supportedChains := getSupportedChains |}.

(** [Map.prototype.set] on the map of results. *)
Fixpoint results_set (m : list (ChainType * bool)) (k : ChainType) (v : bool)
  : list (ChainType * bool) :=
  match m with
  | [] => [(k, v)]
  | (k', v') :: rest =>
      if decide (k' = k) then (k, v) :: rest else (k', v') :: results_set rest k v
  end.

(** [checkAllChainsHealth]: the chains are probed one after the other in
    the order of the map's keys; [probe c] is what the health check of
    chain [c] does and [now c] the time read after it.  A probe changes the
    entry in place, so the keys under iteration stay as they were. *)
Fixpoint check_each (s : State) (now : ChainType -> Z) (probe : ChainType -> Probe)
    (keys : list ChainType) (results : list (ChainType * bool))
  : result string (list (ChainType * bool) * State) :=
  match keys with
  | [] => Ok (results, s)
  | c :: rest =>
      r <- checkChainHealth s (now c) (probe c) c ;;
      check_each (snd r) now probe rest (results_set results c (fst r))
  end.

Definition checkAllChainsHealth (s : State) (now : ChainType -> Z)
    (probe : ChainType -> Probe)
  : result string (list (ChainType * bool) * State) :=
  check_each s now probe (getRegisteredChains s) [].

End Registry.

(** ** Reference formulas and sample data *)

Definition q (n : N) : QArith_base.Q := QArith_base.inject_Z (Z.of_N n).

(** The reward formula of the reward engine, over the rationals with one
    rounding at the end:
    floor (baseReward * effortScore / 100 * multiplier / multiplierScale). *)
Definition reward_formula (baseReward effortScore multiplier multiplierScale : N) : Z :=
  Qround.Qfloor
    (QArith_base.Qdiv
       (QArith_base.Qmult
          (QArith_base.Qdiv (QArith_base.Qmult (q baseReward) (q effortScore)) (q 100))
          (q multiplier))
       (q multiplierScale)).

(** The same expression read as integer arithmetic from left to right, every
    division rounding down. *)
Definition reward_formula_stepwise
    (baseReward effortScore multiplier multiplierScale : N) : N :=
  baseReward * effortScore / 100 * multiplier / multiplierScale.

(** floor (reward / 10) *)
Definition burn_formula (reward : N) : Z :=
  Qround.Qfloor (QArith_base.Qdiv (q reward) (q 10)).

(** The configuration of a tier in the Move table. *)
Definition config_at (state : reward_tiers.TiersState) (t : N) : reward_tiers.TierConfig :=
  if t =? 0 then reward_tiers.tier_0 state
  else if t =? 1 then reward_tiers.tier_1 state
  else if t =? 2 then reward_tiers.tier_2 state
  else if t =? 3 then reward_tiers.tier_3 state
  else if t =? 4 then reward_tiers.tier_4 state
  else if t =? 5 then reward_tiers.tier_5 state
  else if t =? 6 then reward_tiers.tier_6 state
  else reward_tiers.tier_7 state.

(** A stand-in for the chain's hash in worked examples. *)
Definition toy_hash (bytes : list N) : N :=
  fold_left (fun acc b => (acc * 256 + b) mod 2 ^ 256) bytes 0.

Definition deployer : Sol.Env := {| Sol.msg_sender := 1; Sol.block_timestamp := 1000 |}.

(** The tier tables the two engines start with. *)
Definition sol_default : result Sol.error Sol.State := Sol.constructor deployer 2 3.

Definition move_default : result Move.abort (option reward_tiers.TiersState) :=
  reward_tiers.initialize None Move.spp_protocol.

(** A common configuration of tier 0 on both engines: base reward 3,
    multiplier 1.5 (15 at scale 10, 150 at scale 100). *)
Definition sol_small : result Sol.error Sol.State :=
  s <- sol_default ;; Sol.updateTier deployer s 0 15 3.

Definition move_small : result Move.abort (option reward_tiers.TiersState) :=
  g <- move_default ;; reward_tiers.update_tier g Move.spp_protocol 0 150 3 50.

(** Tier 5 of the Move table set to base reward 250 and multiplier 400. *)
Definition move_boundary : result Move.abort (option reward_tiers.TiersState) :=
  g <- move_default ;; reward_tiers.update_tier g Move.spp_protocol 5 400 250 90.

(** Tier 0 of the Move table set to base reward 2^63 and multiplier 2. *)
Definition move_huge : result Move.abort (option reward_tiers.TiersState) :=
  g <- move_default ;; reward_tiers.update_tier g Move.spp_protocol 0 2 (2 ^ 63) 50.

Definition blank_config : reward_tiers.TierConfig := reward_tiers.mkTierConfig 0 0 0 0.

(** The tables as values, for the worked examples. *)
Definition tiers_of (r : result Move.abort (option reward_tiers.TiersState))
  : reward_tiers.TiersState :=
  match r with
  | Ok (Some state) => state
  | _ => reward_tiers.mkTiersState 0 blank_config blank_config blank_config
           blank_config blank_config blank_config blank_config blank_config
  end.

Definition state_of (r : result Sol.error Sol.State) : Sol.State :=
  match r with
  | Ok s => s
  | Err _ => Sol.mkState 0 0 0 ∅ ∅ 0 0 ∅ ∅ ∅
  end.

(** The Solidity table with tier 0 set to the Move default of that tier:
    base reward 5000000000, multiplier 1.5. *)
Definition sol_common : result Sol.error Sol.State :=
  s <- sol_default ;; Sol.updateTier deployer s 0 15 5000000000.

(** A ledger on which every token operation goes through. *)
Definition generous : deflatinary_burn.Env :=
  {| deflatinary_burn.now_seconds := 1000;
     deflatinary_burn.spp_token_burn := fun _ _ => true;
     deflatinary_burn.spp_token_mint := fun _ _ => true |}.

(** The burn engine as published by [initialize]. *)
Definition engine_initial : option deflatinary_burn.BurnEngineState :=
  match deflatinary_burn.initialize None Move.spp_protocol with
  | Ok g => g
  | Err _ => None
  end.

(** A sequence of burn transactions against the Move engine, each with the
    ledger and the tier table it runs under, committed or rolled back. *)
Fixpoint serve_all (global : option deflatinary_burn.BurnEngineState)
    (txs : list (deflatinary_burn.Env * option reward_tiers.TiersState
                 * deflatinary_burn.request))
  : option deflatinary_burn.BurnEngineState :=
  match txs with
  | [] => global
  | (env, tiers, rq) :: rest =>
      serve_all
        (commit global (st <- deflatinary_burn.serve env tiers global rq ;; Ok (Some st)))
        rest
  end.

(** The bookkeeping invariant of the Move engine. *)
Definition books_balance (st : deflatinary_burn.BurnEngineState) : Prop :=
  (forall k r, deflatinary_burn.burn_records st !! k = Some r ->
     deflatinary_burn.burn_amount r = deflatinary_burn.reward_amount r / 10) /\
  deflatinary_burn.total_burned st
    = deflatinary_burn.sum_records deflatinary_burn.burn_amount
        (deflatinary_burn.burn_records st) /\
  deflatinary_burn.total_burned st
    = deflatinary_burn.sum_tally (deflatinary_burn.player_burned st) /\
  deflatinary_burn.total_rewards st
    = deflatinary_burn.sum_records deflatinary_burn.reward_amount
        (deflatinary_burn.burn_records st) /\
  deflatinary_burn.total_rewards st
    = deflatinary_burn.sum_tally (deflatinary_burn.player_rewards st).

(** A burn request of player 7 for match "M1", tier 0, effort score 75. *)
Definition rq0 : deflatinary_burn.request :=
  deflatinary_burn.mkRequest 7 [77; 49] 0 80 75.

(** A caller that is neither the owner nor the oracle of the deployed
    Solidity engine. *)
Definition stranger : Sol.Env := {| Sol.msg_sender := 99; Sol.block_timestamp := 2000 |}.

(** The first burn of the worked examples on each engine, and the state it
    leaves. *)
Definition sol_first : result Sol.error (N * N * Sol.State) :=
  Sol.burnForPerformance toy_hash deployer (state_of sol_default) 1 7 0 85.

Definition sol_after (r : result Sol.error (N * N * Sol.State)) : Sol.State :=
  match r with
  | Ok (_, _, s) => s
  | Err _ => state_of (Err Sol.Panic)
  end.

Definition move_first : result Move.abort deflatinary_burn.BurnEngineState :=
  deflatinary_burn.serve generous (Some (tiers_of move_default)) engine_initial rq0.

Definition engine_after (r : result Move.abort deflatinary_burn.BurnEngineState)
  : deflatinary_burn.BurnEngineState :=
  match r with
  | Ok st => st
  | Err _ => deflatinary_burn.mkBurnEngineState 0 ∅ 0 0 ∅ ∅
  end.

(** The oracle as published by [initialize]. *)
Definition oracle_initial : option performance_oracle.OracleState :=
  match performance_oracle.initialize None Move.spp_protocol with
  | Ok g => g
  | Err _ => None
  end.

(** A batsman with a century who also took five wickets. *)
Definition century_and_five : CricketPerformanceParams :=
  {| matchId := "M1"; player := "0x7";
     runs := 100; ballsFaced := 60; wickets := 5;
     oversBowled := 4; runsConceded := 20; maidenOvers := 0 |}.

(** A probe that does not report the chain healthy. *)
Definition probe_failed (p : Registry.Probe) : bool :=
  match p with
  | Registry.Resolves true => false
  | _ => true
  end.

(** The status a failed probe at time [now] leaves, for failure threshold
    [limit]. *)
Definition fail_status (limit now : Z) (err : option string) (st : Registry.ChainStatus)
  : Registry.ChainStatus :=
  {| Registry.chainType := Registry.chainType st;
     Registry.isHealthy :=
       if (limit <=? Registry.failureCount st + 1)%Z then false else Registry.isHealthy st;
     Registry.lastHealthCheck := now;
     Registry.failureCount := (Registry.failureCount st + 1)%Z;
     Registry.lastError := err |}.

(** A registry holding Arbitrum (the default primary chain) and BNB. *)
Definition registry_ab : Registry.State :=
  let s1 := commit Registry.initial
              (Registry.registerChain Registry.initial 0 None Registry.ARBITRUM) in
  commit s1 (Registry.registerChain s1 1 None Registry.BNB).

(** The same registry after three failed probes of Arbitrum. *)
Definition registry_ab_down : Registry.State :=
  Registry.probed
    (Registry.probed
       (Registry.probed registry_ab 10 (Registry.Resolves false) Registry.ARBITRUM)
       20 (Registry.Throws "timeout") Registry.ARBITRUM)
    30 (Registry.Resolves false) Registry.ARBITRUM.

(** A registry holding only BNB, failed three times, with failover switched
    off, and the same with failover left on. *)
Definition registry_b_down : Registry.State :=
  let s1 := commit Registry.initial
              (Registry.registerChain Registry.initial 0 None Registry.BNB) in
  Registry.probed
    (Registry.probed (Registry.probed s1 10 (Registry.Resolves false) Registry.BNB)
       20 (Registry.Resolves false) Registry.BNB)
    30 (Registry.Resolves false) Registry.BNB.

Definition registry_b_down_no_failover : Registry.State :=
  Registry.configure registry_b_down
    (Registry.mkPartialConfig None None (Some (Some false)) None).

(** The bookkeeping invariant of the Solidity engine. *)
Definition sum_transactions (f : Sol.BurnTransaction -> N)
    (m : gmap N Sol.BurnTransaction) : N :=
  map_fold (fun _ t acc => f t + acc) 0 m.

Definition sol_books_balance (s : Sol.State) : Prop :=
  (forall k t, Sol.burnTransactions s !! k = Some t ->
     Sol.bt_executed t = true /\ Sol.bt_burnAmount t = Sol.bt_rewardAmount t / 10) /\
  Sol.totalBurnedAmount s = sum_transactions Sol.bt_burnAmount (Sol.burnTransactions s) /\
  Sol.totalBurnedAmount s = deflatinary_burn.sum_tally (Sol.playerTotalBurned s) /\
  Sol.totalRewardsDistributed s
    = sum_transactions Sol.bt_rewardAmount (Sol.burnTransactions s) /\
  Sol.totalRewardsDistributed s = deflatinary_burn.sum_tally (Sol.playerTotalRewards s).

(** A call of [reward_tiers::update_tier] with its signer, and a sequence
    of such transactions, each committed or rolled back. *)
Record tier_update : Type := mkTierUpdate {
  tu_signer : N;
  tu_tier : N;
  tu_multiplier : N;
  tu_base_reward : N;
  tu_min_score : N
}.

Definition apply_update (global : option reward_tiers.TiersState) (u : tier_update)
  : option reward_tiers.TiersState :=
  commit global
    (reward_tiers.update_tier global (tu_signer u) (tu_tier u) (tu_multiplier u)
       (tu_base_reward u) (tu_min_score u)).

Definition apply_updates (global : option reward_tiers.TiersState) (us : list tier_update)
  : option reward_tiers.TiersState :=
  fold_left apply_update us global.

(** Every slot of the table holds the configuration of its own tier. *)
Definition slots_labelled (state : reward_tiers.TiersState) : Prop :=
  forall t, t <= 7 -> reward_tiers.tier (config_at state t) = t.

(** Transactions sent to the Move oracle: the entry function called with
    its signer and arguments.  A transaction runs at a ledger time and is
    committed or rolled back. *)
Inductive oracle_call : Type :=
| CallAddOracle (signer oracle_addr : N)
| CallRegisterMatch (signer : N) (id : list N) (sp : N)
| CallFinalizeMatch (signer : N) (id : list N) (win : N) (hash : list N)
| CallRecordPerformance (signer : N) (id : list N) (player_addr score effort t : N)
| CallRecordCricketPerformance (signer : N) (id : list N)
    (player_addr r faced w overs conceded maidens : N).

Definition oracle_step (state : performance_oracle.OracleState) (tx : N * oracle_call)
  : performance_oracle.OracleState :=
  let now := fst tx in
  commit state
    match snd tx with
    | CallAddOracle a o => performance_oracle.add_oracle (Some state) a o
    | CallRegisterMatch a id sp => performance_oracle.register_match now (Some state) a id sp
    | CallFinalizeMatch a id win hash =>
        performance_oracle.finalize_match now (Some state) a id win hash
    | CallRecordPerformance a id p score effort t =>
        performance_oracle.record_performance now (Some state) a id p score effort t
    | CallRecordCricketPerformance a id p r faced w overs conceded maidens =>
        performance_oracle.record_cricket_performance now (Some state) a id p
          r faced w overs conceded maidens
    end.

Definition oracle_run (state : performance_oracle.OracleState) (txs : list (N * oracle_call))
  : performance_oracle.OracleState :=
  fold_left oracle_step txs state.

(** What holds of every match and performance the oracle stores. *)
Definition match_well_formed (id : list N) (m : performance_oracle.Match) : Prop :=
  performance_oracle.match_id m = id /\
  performance_oracle.player_count m = 0 /\
  (performance_oracle.status m = performance_oracle.STATUS_FINALIZED \/
   performance_oracle.status m = performance_oracle.STATUS_REGISTERED /\
   performance_oracle.winner m = 0 /\
   performance_oracle.data_hash m = [] /\
   performance_oracle.finalized_at m = 0).

Definition oracle_well_formed (state : performance_oracle.OracleState) : Prop :=
  performance_oracle.admin state = Move.spp_protocol /\
  (forall id m, performance_oracle.match_store state !! id = Some m ->
     match_well_formed id m) /\
  (forall k p, performance_oracle.performance_store state !! k = Some p ->
     performance_oracle.verified p = true /\
     k = performance_oracle.perf_match_id p
           ++ Move.bcs_to_bytes (performance_oracle.perf_player p) /\
     is_Some (performance_oracle.match_store state
                !! performance_oracle.perf_match_id p)) /\
  (forall k c, performance_oracle.cricket_performance_store state !! k = Some c ->
     k = performance_oracle.cp_match_id c
           ++ Move.bcs_to_bytes (performance_oracle.cp_player c) /\
     is_Some (performance_oracle.match_store state
                !! performance_oracle.cp_match_id c)).

(** The oracle state as published, for the worked examples. *)
Definition oracle_state_of (g : option performance_oracle.OracleState)
  : performance_oracle.OracleState :=
  match g with
  | Some state => state
  | None => performance_oracle.mkOracleState 0 [] ∅ ∅ ∅
  end.

(** Match [M1] registered at time 1000 and finalized at time 2000 by the
    admin, for the worked examples. *)
Definition oracle_finalized : performance_oracle.OracleState :=
  oracle_run (oracle_state_of oracle_initial)
    [(1000, CallRegisterMatch Move.spp_protocol [77; 49] 1);
     (2000, CallFinalizeMatch Move.spp_protocol [77; 49] 1 [9])].

(** Calls made to the registry, and the state each leaves; a call that
    throws leaves the state as it was. *)
Inductive registry_op : Type :=
| OpConfigure (p : Registry.PartialConfig)
| OpRegisterChain (now : Z) (init_error : option string) (c : Registry.ChainType)
| OpUnregisterChain (c : Registry.ChainType)
| OpCheckChainHealth (now : Z) (probe : Registry.Probe) (c : Registry.ChainType)
| OpCheckAllChainsHealth (now : Registry.ChainType -> Z)
    (probe : Registry.ChainType -> Registry.Probe).

Definition registry_step (s : Registry.State) (op : registry_op) : Registry.State :=
  match op with
  | OpConfigure p => Registry.configure s p
  | OpRegisterChain now init_error c => commit s (Registry.registerChain s now init_error c)
  | OpUnregisterChain c => Registry.unregisterChain s c
  | OpCheckChainHealth now probe c => Registry.probed s now probe c
  | OpCheckAllChainsHealth now probe =>
      match Registry.checkAllChainsHealth s now probe with
      | Ok (_, s') => s'
      | Err _ => s
      end
  end.

Definition registry_run (s : Registry.State) (ops : list registry_op) : Registry.State :=
  fold_left registry_step ops s.

(** What holds of every entry of the registry, and of the registry. *)
Definition entry_well_formed (limit : N) (c : Registry.ChainType) (e : Registry.ChainEntry)
  : Prop :=
  Registry.chainType (Registry.status e) = c /\
  Registry.adapter_chain (Registry.adapter e) = c /\
  c <> Registry.SOLANA /\
  (Registry.adapter_serial (Registry.adapter e) < limit)%N /\
  (0 <= Registry.failureCount (Registry.status e))%Z /\
  (Registry.isHealthy (Registry.status e) = false ->
   (1 <= Registry.failureCount (Registry.status e))%Z).

Definition registry_well_formed (s : Registry.State) : Prop :=
  List.NoDup (map fst (Registry.chains s)) /\
  forall c e, In (c, e) (Registry.chains s) -> entry_well_formed (Registry.created s) c e.

(** A chain probed several times in a row, each probe with the time read
    after it. *)
Definition probe_repeatedly (s : Registry.State) (probes : list (Z * Registry.Probe))
    (c : Registry.ChainType) : Registry.State :=
  fold_left (fun s' p => Registry.probed s' (fst p) (snd p) c) probes s.

(** The number a string of hexadecimal digits denotes. *)
Definition hex_digit (c : ascii) : N :=
  if AptosAdapter.between 48 57 c then AptosAdapter.code c - 48
  else if AptosAdapter.between 97 102 c then AptosAdapter.code c - 87
  else if AptosAdapter.between 65 70 c then AptosAdapter.code c - 55
  else 0.

Definition hex_value (s : AptosAdapter.jsstring) : N :=
  fold_left (fun acc c => acc * 16 + hex_digit c) s 0.

(** What holds of the storage of the Solidity oracle. *)
Definition sol_oracle_well_formed (s : SolOracle.State) : Prop :=
  SolOracle.totalMatches s = N.of_nat (size (SolOracle.matches s)) /\
  (forall matchId m, SolOracle.matches s !! matchId = Some m ->
     SolOracle.md_matchId m = matchId /\ SolOracle.registeredAt m <> 0 /\
     (SolOracle.isFinalized m = false ->
      SolOracle.finalizedAt m = 0 /\ SolOracle.dataHash m = 0 /\
      SolOracle.totalPlayers m = 0)) /\
  (forall matchId player p, SolOracle.performances s !! (matchId, player) = Some p ->
     SolOracle.pp_player p = player /\ SolOracle.verified p = true /\
     SolOracle.pp_tier p <= 7 /\ SolOracle.pp_effortScore p <= 100 /\
     SolOracle.strikeRate p
       = (if 0 <? SolOracle.ballsFaced p
          then SolOracle.runsScored p * 100 / SolOracle.ballsFaced p else 0) /\
     is_Some (SolOracle.matches s !! matchId)).

(** The Solidity oracle deployed by account 1, with match 5 registered at
    time 10 and one performance of player 7 recorded. *)
Definition sol_oracle_open : SolOracle.State :=
  SolOracle.run_all (SolOracle.constructor 1)
    [(1, 10, SolOracle.CallRegisterMatch 5);
     (1, 11, SolOracle.CallRecordPerformance 5 7 120 2 80 24 1 90)].

(** ** RewardTiers.sol *)

Module SolRewardTiers.

Inductive error : Type :=
| InvalidTier
| TierNotActive
| OwnableUnauthorizedAccount (account : N).

Record TierConfig : Type := mkTierConfig {
  tierId : N;
  name : string;
  description : string;
  multiplier : N;
  baseReward : N;
  minRuns : N;
  minWickets : N;
  isActive : bool
}.

Record State : Type := mkState {
  owner : N;
  tiers : gmap N TierConfig;
  totalTiers : N
}.

(** Reading [tiers[tierId]]: an unset slot reads as the zero record. *)
Definition tier_at (s : State) (t : N) : TierConfig :=
  default (mkTierConfig 0 "" "" 0 0 0 0 false) (tiers s !! t).

Definition _configureTier (s : State) (t : N) (nm descr : string)
    (mult base runs wickets : N) : State :=
  {| owner := owner s;
     tiers := <[t := mkTierConfig t nm descr mult base runs wickets true]> (tiers s);
     totalTiers := totalTiers s |}.

Definition constructor (sender : N) : State :=
  let s := {| owner := sender; tiers := ∅; totalTiers := 8 |} in
  let s := _configureTier s Sol.TIER_NIFTY_FIFTY "Nifty Fifty"
             "Scored 50+ runs in a match" 15 (50 * 10 ^ 18) 50 0 in
  let s := _configureTier s Sol.TIER_GAYLE_STORM "Gayle Storm"
             "Scored 100+ runs with SR > 150" 30 (150 * 10 ^ 18) 100 0 in
  let s := _configureTier s Sol.TIER_FIVE_WICKET_HAUL "Five Wicket Haul"
             "Took 5+ wickets in a match" 25 (100 * 10 ^ 18) 0 5 in
  let s := _configureTier s Sol.TIER_HAT_TRICK "Hat Trick"
             "Took 3 wickets in 3 consecutive balls" 30 (200 * 10 ^ 18) 0 3 in
  let s := _configureTier s Sol.TIER_MAIDEN_MASTER "Maiden Master"
             "Bowled 3+ maiden overs" 15 (30 * 10 ^ 18) 0 0 in
  let s := _configureTier s Sol.TIER_RUN_MACHINE "Run Machine"
             "Scored 150+ runs in a match" 40 (250 * 10 ^ 18) 150 0 in
  let s := _configureTier s Sol.TIER_GOLDEN_ARM "Golden Arm"
             "Best economy rate in match" 13 (40 * 10 ^ 18) 0 1 in
  _configureTier s Sol.TIER_ALL_ROUNDER "All Rounder"
    "30+ runs and 2+ wickets" 20 (120 * 10 ^ 18) 30 2.

Definition getTierMultiplier (s : State) (t : N) : result error (N * N) :=
  if totalTiers s <=? t then Err InvalidTier else
  let tier := tier_at s t in
  if negb (isActive tier) then Err TierNotActive else
  Ok (multiplier tier, baseReward tier).

Definition getTierRequirements (s : State) (t : N) : result error (N * N) :=
  if totalTiers s <=? t then Err InvalidTier else
  let tier := tier_at s t in
  Ok (minRuns tier, minWickets tier).

Definition updateTier (sender : N) (s : State) (t mult base : N) : result error State :=
  if negb (sender =? owner s) then Err (OwnableUnauthorizedAccount sender) else
  if totalTiers s <=? t then Err InvalidTier else
  let tier := tier_at s t in
  Ok {| owner := owner s;
        tiers := <[t := mkTierConfig (tierId tier) (name tier) (description tier)
                          mult base (minRuns tier) (minWickets tier) (isActive tier)]>
                   (tiers s);
        totalTiers := totalTiers s |}.

Definition setTierActive (sender : N) (s : State) (t : N) (active : bool)
  : result error State :=
  if negb (sender =? owner s) then Err (OwnableUnauthorizedAccount sender) else
  if totalTiers s <=? t then Err InvalidTier else
  let tier := tier_at s t in
  Ok {| owner := owner s;
        tiers := <[t := mkTierConfig (tierId tier) (name tier) (description tier)
                          (multiplier tier) (baseReward tier) (minRuns tier)
                          (minWickets tier) active]> (tiers s);
        totalTiers := totalTiers s |}.

Definition getTotalTiers (s : State) : N := totalTiers s.

Definition getTierName (s : State) (t : N) : result error string :=
  if totalTiers s <=? t then Err InvalidTier else Ok (name (tier_at s t)).

(** The state-changing entry points, and the storage after a sequence of
    transactions, each one committed or rolled back. *)
Inductive call : Type :=
| CallUpdateTier (t mult base : N)
| CallSetTierActive (t : N) (active : bool).

Definition step (s : State) (tx : N * call) : State :=
  match snd tx with
  | CallUpdateTier t mult base => commit s (updateTier (fst tx) s t mult base)
  | CallSetTierActive t active => commit s (setTierActive (fst tx) s t active)
  end.

Definition run_all (s : State) (txs : list (N * call)) : State :=
  fold_left step txs s.

End SolRewardTiers.

(** ** The validator SDKs *)

Module BNBValidatorSDK.

Local Open Scope Z_scope.

(** [getOptimalGasPrice]: [currentPrice] is a bigint or [null] and
    [maxGasPrice] the optional cap of the configuration; [undefined] is
    [None].  A bigint is falsy when it is 0. *)
Definition getOptimalGasPrice (maxGasPrice : option Z) (currentPrice : option Z)
  : option Z :=
  match currentPrice with
  | None => None
  | Some price =>
      if price =? 0 then None else
      match maxGasPrice with
      | Some cap =>
          if cap =? 0 then Some price
          else if price <? cap then Some price else Some cap
      | None => Some price
      end
  end.

End BNBValidatorSDK.

Module AptosValidatorSDK.

(** [executeBurn], run against the Move modules.  Its two getters call the
    views [get_match] and [get_performance] of the oracle and return [null]
    when the view aborts.  The transaction it then submits runs
    [burn_for_performance] with the SDK's own account as the signer; the
    player it was asked about is not among the arguments.  A transaction
    that aborts makes [executeBurn] throw.  The match id is the byte string
    of its text and the player the address the string denotes. *)
Record BurnResult : Type := mkBurnResult {
  burnAmount : Z;
  rewardAmount : Z;
  tier : N;
  player : N;
  matchId : list N
}.

Inductive failure : Type :=
| AccountNotInitialized
| MatchNotFound
| PerformanceDataNotFound
| TransactionFailed (code : Move.abort).

Definition executeBurn (account : option N) (env : deflatinary_burn.Env)
    (tiers : option reward_tiers.TiersState)
    (oracle : option performance_oracle.OracleState)
    (engine : option deflatinary_burn.BurnEngineState)
    (id : list N) (player_addr : N)
  : result failure (BurnResult * deflatinary_burn.BurnEngineState) :=
  match account with
  | None => Err AccountNotInitialized
  | Some signer =>
      match performance_oracle.get_match oracle id with
      | Err _ => Err MatchNotFound
      | Ok _ =>
          match performance_oracle.get_performance oracle id player_addr with
          | Err _ => Err PerformanceDataNotFound
          | Ok perfData =>
              match deflatinary_burn.burn_for_performance env tiers engine signer id
                      (performance_oracle.reward_tier perfData)
                      (performance_oracle.performance_score perfData)
                      (performance_oracle.effort_score perfData) with
              | Err code => Err (TransactionFailed code)
              | Ok engine' =>
                  Ok ({| burnAmount := 0;
                         rewardAmount := 0;
                         tier := performance_oracle.reward_tier perfData;
                         player := player_addr;
                         matchId := id |}, engine')
              end
          end
      end
  end.

End AptosValidatorSDK.

(** The oracle with match [M1] finalized and a performance of player 7. *)
Definition oracle_with_performance : performance_oracle.OracleState :=
  oracle_run oracle_finalized
    [(2500, CallRecordPerformance Move.spp_protocol [77; 49] 7 80 75 0)].

(** * Properties *)

(** ** Arithmetic of the reward formula *)

Lemma reward_formula_div b e m s :
  s <> 0 -> reward_formula b e m s = Z.of_N ((b * e * m) / (100 * s)).
Proof.
  intros Hs. unfold reward_formula.
  destruct s as [|p]; [congruence|].
  transitivity (Qround.Qfloor (QArith_base.Qmake (Z.of_N (b * e * m)) (100 * p))).
  - apply Qround.Qfloor_comp.
    unfold q, QArith_base.Qeq, QArith_base.Qdiv, QArith_base.Qmult,
      QArith_base.Qinv, QArith_base.inject_Z.
    simpl. lia.
  - simpl. rewrite N2Z.inj_div. simpl. reflexivity.
Qed.

Lemma burn_formula_div r : burn_formula r = Z.of_N (r / 10).
Proof.
  unfold burn_formula.
  transitivity (Qround.Qfloor (QArith_base.Qmake (Z.of_N r) 10)).
  - apply Qround.Qfloor_comp.
    unfold q, QArith_base.Qeq, QArith_base.Qdiv, QArith_base.Qmult,
      QArith_base.Qinv, QArith_base.inject_Z.
    simpl. lia.
  - simpl. rewrite N2Z.inj_div. reflexivity.
Qed.

(** Rounding once or twice makes no difference when the first division is
    exact. *)
Lemma stepwise_exact b e m :
  (b * e) mod 100 = 0 -> b * e / 100 * m / 10 = (b * e * m) / (100 * 10).
Proof.
  intros Hmod.
  assert (Hq : b * e = 100 * (b * e / 100)).
  { rewrite (N.div_mod (b * e) 100) at 1 by lia. rewrite Hmod. lia. }
  set (k := b * e / 100) in *.
  replace (b * e * m) with (100 * (k * m)) by (rewrite Hq; lia).
  rewrite N.Div0.div_mul_cancel_l by lia. reflexivity.
Qed.

Lemma single_rounding_scale_100 b e m :
  (b * (10 * m) * e) / 10000 = (b * e * m) / (100 * 10).
Proof.
  replace (b * (10 * m) * e) with (10 * (b * e * m)) by lia.
  replace 10000 with (10 * (100 * 10)) by lia.
  rewrite N.Div0.div_mul_cancel_l by lia. reflexivity.
Qed.

(** ** Checked arithmetic *)

Lemma checked_mul_ok a b :
  a * b <= Sol.MAX_UINT256 -> Sol.checked_mul a b = Ok (a * b).
Proof.
  intros H. unfold Sol.checked_mul.
  destruct (N.leb_spec (a * b) Sol.MAX_UINT256); [reflexivity | lia].
Qed.

Lemma checked_mul_inv a b r :
  Sol.checked_mul a b = Ok r -> r = a * b /\ a * b <= Sol.MAX_UINT256.
Proof.
  unfold Sol.checked_mul.
  destruct (N.leb_spec (a * b) Sol.MAX_UINT256); [|discriminate].
  intros [= <-]. split; [reflexivity | assumption].
Qed.

Lemma checked_add_inv a b r :
  Sol.checked_add a b = Ok r -> r = a + b /\ a + b <= Sol.MAX_UINT256.
Proof.
  unfold Sol.checked_add.
  destruct (N.leb_spec (a + b) Sol.MAX_UINT256); [|discriminate].
  intros [= <-]. split; [reflexivity | assumption].
Qed.

Lemma mul64_ok a b : a * b <= Move.MAX_U64 -> Move.mul64 a b = Ok (a * b).
Proof.
  intros H. unfold Move.mul64.
  destruct (N.leb_spec (a * b) Move.MAX_U64); [reflexivity | lia].
Qed.

Lemma mul64_inv a b r :
  Move.mul64 a b = Ok r -> r = a * b /\ a * b <= Move.MAX_U64.
Proof.
  unfold Move.mul64.
  destruct (N.leb_spec (a * b) Move.MAX_U64); [|discriminate].
  intros [= <-]. split; [reflexivity | assumption].
Qed.

Lemma add64_inv a b r :
  Move.add64 a b = Ok r -> r = a + b /\ a + b <= Move.MAX_U64.
Proof.
  unfold Move.add64.
  destruct (N.leb_spec (a + b) Move.MAX_U64); [|discriminate].
  intros [= <-]. split; [reflexivity | assumption].
Qed.

Lemma assert_inv c code : Move.assert c code = Ok tt -> c = true.
Proof. unfold Move.assert. destruct c; [reflexivity | discriminate]. Qed.

(** ** The reward computation of each engine *)

Lemma sol_calculateReward_ok s t e :
  t <= 7 -> e <= 100 ->
  get (Sol.baseRewards s) t * e <= Sol.MAX_UINT256 ->
  get (Sol.baseRewards s) t * e / 100 * get (Sol.burnMultipliers s) t <= Sol.MAX_UINT256 ->
  Sol.calculateReward s t e =
    Ok (get (Sol.baseRewards s) t * e / 100 * get (Sol.burnMultipliers s) t / 10).
Proof.
  intros Ht He H1 H2. unfold Sol.calculateReward, Sol.TIER_ALL_ROUNDER.
  destruct (N.ltb_spec 7 t); [lia|].
  destruct (N.ltb_spec 100 e); [lia|].
  rewrite checked_mul_ok by assumption. simpl.
  rewrite checked_mul_ok by assumption. reflexivity.
Qed.

Lemma sol_calculateReward_inv s t e r :
  Sol.calculateReward s t e = Ok r ->
  t <= 7 /\ e <= 100 /\
  r = get (Sol.baseRewards s) t * e / 100 * get (Sol.burnMultipliers s) t / 10.
Proof.
  unfold Sol.calculateReward, Sol.TIER_ALL_ROUNDER.
  destruct (N.ltb_spec 7 t); [discriminate|].
  destruct (N.ltb_spec 100 e); [discriminate|].
  destruct (Sol.checked_mul _ e) as [p|] eqn:Hp; [|discriminate]. simpl.
  apply checked_mul_inv in Hp as [-> _].
  destruct (Sol.checked_mul _ _) as [p'|] eqn:Hp'; [|discriminate]. simpl.
  apply checked_mul_inv in Hp' as [-> _].
  intros [= <-]. repeat split; assumption || reflexivity.
Qed.

Lemma sol_calculateReward_tier s t e :
  7 < t -> Sol.calculateReward s t e = Err Sol.InvalidTier.
Proof.
  intros Ht. unfold Sol.calculateReward, Sol.TIER_ALL_ROUNDER.
  destruct (N.ltb_spec 7 t); [reflexivity | lia].
Qed.

Lemma sol_calculateReward_effort s t e :
  t <= 7 -> 100 < e -> Sol.calculateReward s t e = Err Sol.InvalidEffortScore.
Proof.
  intros Ht He. unfold Sol.calculateReward, Sol.TIER_ALL_ROUNDER.
  destruct (N.ltb_spec 7 t); [lia|].
  destruct (N.ltb_spec 100 e); [reflexivity | lia].
Qed.

Lemma get_tier_config_at state t :
  t <= 7 ->
  reward_tiers.get_tier_config (Some state) t =
    Ok (reward_tiers.multiplier (config_at state t),
        reward_tiers.base_reward (config_at state t)).
Proof.
  intros Ht. unfold reward_tiers.get_tier_config, config_at. simpl.
  destruct (N.leb_spec t 7); [reflexivity | lia].
Qed.

Lemma get_tier_config_inv tiers t c :
  reward_tiers.get_tier_config tiers t = Ok c ->
  exists state, tiers = Some state /\ t <= 7 /\
    c = (reward_tiers.multiplier (config_at state t),
         reward_tiers.base_reward (config_at state t)).
Proof.
  unfold reward_tiers.get_tier_config.
  destruct tiers as [state|]; [|discriminate]. simpl.
  destruct (N.leb_spec t 7); [|discriminate]. simpl.
  intros [= <-]. exists state. repeat split; assumption || reflexivity.
Qed.

Lemma move_calculate_reward_ok state t e :
  t <= 7 ->
  reward_tiers.base_reward (config_at state t)
    * reward_tiers.multiplier (config_at state t) <= Move.MAX_U64 ->
  reward_tiers.base_reward (config_at state t)
    * reward_tiers.multiplier (config_at state t) * e <= Move.MAX_U64 ->
  deflatinary_burn.calculate_reward (Some state) t e =
    Ok (reward_tiers.base_reward (config_at state t)
        * reward_tiers.multiplier (config_at state t) * e / 10000).
Proof.
  intros Ht H1 H2. unfold deflatinary_burn.calculate_reward.
  rewrite get_tier_config_at by assumption. simpl.
  rewrite mul64_ok by assumption. simpl.
  rewrite mul64_ok by assumption. reflexivity.
Qed.

Lemma move_calculate_reward_inv tiers t e r :
  deflatinary_burn.calculate_reward tiers t e = Ok r ->
  exists state, tiers = Some state /\ t <= 7 /\
    r = reward_tiers.base_reward (config_at state t)
        * reward_tiers.multiplier (config_at state t) * e / 10000.
Proof.
  unfold deflatinary_burn.calculate_reward.
  destruct (reward_tiers.get_tier_config tiers t) as [c|] eqn:Hc; [|discriminate].
  apply get_tier_config_inv in Hc as (state & -> & Ht & ->). simpl.
  destruct (Move.mul64 _ _) as [p|] eqn:Hp; [|discriminate]. simpl.
  apply mul64_inv in Hp as [-> _].
  destruct (Move.mul64 _ e) as [p'|] eqn:Hp'; [|discriminate]. simpl.
  apply mul64_inv in Hp' as [-> _].
  intros [= <-]. exists state. repeat split; assumption || reflexivity.
Qed.

(** The Move engine rounds once: its result is the reward formula at scale
    100. *)
Lemma move_reward_is_formula b m e :
  Z.of_N (b * m * e / 10000) = reward_formula b e m 100.
Proof.
  rewrite reward_formula_div by lia.
  replace (b * m * e) with (b * e * m) by lia. reflexivity.
Qed.

(** The Solidity engine rounds twice: its result is the stepwise reading, and
    the reward formula at scale 10 when the first division is exact. *)
Lemma sol_reward_is_formula b m e :
  (b * e) mod 100 = 0 ->
  Z.of_N (b * e / 100 * m / 10) = reward_formula b e m 10.
Proof.
  intros Hmod. rewrite reward_formula_div by lia.
  rewrite stepwise_exact by assumption. reflexivity.
Qed.

(** ** What a successful burn does *)

Lemma sol_burn_inv keccak256 env s m p t e b r s' :
  Sol.burnForPerformance keccak256 env s m p t e = Ok (b, r, s') ->
  Sol.onlyOracle env s = true /\
  Sol.executed s (Sol._computeTxId keccak256 m p) = false /\
  Sol.calculateReward s t e = Ok r /\
  b = r / 10 /\
  Sol.totalBurnedAmount s' = Sol.totalBurnedAmount s + b /\
  Sol.totalRewardsDistributed s' = Sol.totalRewardsDistributed s + r /\
  Sol.playerTotalRewards s' =
    <[p := get (Sol.playerTotalRewards s) p + r]> (Sol.playerTotalRewards s) /\
  Sol.playerTotalBurned s' =
    <[p := get (Sol.playerTotalBurned s) p + b]> (Sol.playerTotalBurned s) /\
  Sol.burnTransactions s' =
    <[Sol._computeTxId keccak256 m p :=
        Sol.mkBurnTransaction m p b r t e (Sol.block_timestamp env) true]>
      (Sol.burnTransactions s) /\
  Sol.owner s' = Sol.owner s /\
  Sol.oracleContract s' = Sol.oracleContract s /\
  Sol.baseRewards s' = Sol.baseRewards s /\
  Sol.burnMultipliers s' = Sol.burnMultipliers s.
Proof.
  unfold Sol.burnForPerformance.
  destruct (Sol.onlyOracle env s); [|discriminate]. simpl.
  destruct (Sol.executed s _); [discriminate|].
  destruct (Sol.calculateReward s t e) as [r0|]; [|discriminate]. simpl.
  destruct (Sol.checked_add (Sol.totalBurnedAmount s) _) as [x1|] eqn:H1; [|discriminate].
  apply checked_add_inv in H1 as [-> _]. simpl.
  destruct (Sol.checked_add (Sol.totalRewardsDistributed s) _) as [x2|] eqn:H2; [|discriminate].
  apply checked_add_inv in H2 as [-> _]. simpl.
  destruct (Sol.checked_add (get (Sol.playerTotalRewards s) p) _) as [x3|] eqn:H3; [|discriminate].
  apply checked_add_inv in H3 as [-> _]. simpl.
  destruct (Sol.checked_add (get (Sol.playerTotalBurned s) p) _) as [x4|] eqn:H4; [|discriminate].
  apply checked_add_inv in H4 as [-> _]. simpl.
  intros [= <- <- <-]. simpl. repeat split; reflexivity.
Qed.

Lemma bump_inv table addr amount table' :
  deflatinary_burn.bump table addr amount = Ok table' ->
  table' = <[addr := get table addr + amount]> table /\
  get table addr + amount <= Move.MAX_U64 \/
  table !! addr = None /\ table' = <[addr := amount]> table.
Proof.
  unfold deflatinary_burn.bump, get.
  destruct (table !! addr) as [current|] eqn:Hl; simpl.
  - destruct (Move.add64 current amount) as [u|] eqn:Hu; [|discriminate]. simpl.
    apply add64_inv in Hu as [-> Hle]. intros [= <-]. left. split; [reflexivity | assumption].
  - intros [= <-]. right. split; reflexivity.
Qed.

Lemma bump_get table addr amount table' :
  deflatinary_burn.bump table addr amount = Ok table' ->
  table' = <[addr := get table addr + amount]> table.
Proof.
  intros H. apply bump_inv in H as [[-> _] | [Hn ->]]; [reflexivity|].
  unfold get. rewrite Hn. reflexivity.
Qed.

Lemma move_burn_inv env tiers global pl id t ps e st' :
  deflatinary_burn.burn_for_performance env tiers global pl id t ps e = Ok st' ->
  exists state r,
    global = Some state /\ t <= 7 /\
    deflatinary_burn.burn_records state !! (id ++ Move.bcs_to_bytes pl) = None /\
    deflatinary_burn.calculate_reward tiers t e = Ok r /\
    deflatinary_burn.spp_token_burn env pl (r / 10) = true /\
    deflatinary_burn.spp_token_mint env pl r = true /\
    deflatinary_burn.total_burned state + r / 10 <= Move.MAX_U64 /\
    deflatinary_burn.total_rewards state + r <= Move.MAX_U64 /\
    st' =
      {| deflatinary_burn.admin := deflatinary_burn.admin state;
         deflatinary_burn.burn_records :=
           <[id ++ Move.bcs_to_bytes pl :=
               deflatinary_burn.mkBurnRecord id pl (r / 10) r t e
                 (deflatinary_burn.now_seconds env)]>
             (deflatinary_burn.burn_records state);
         deflatinary_burn.total_burned := deflatinary_burn.total_burned state + r / 10;
         deflatinary_burn.total_rewards := deflatinary_burn.total_rewards state + r;
         deflatinary_burn.player_rewards :=
           <[pl := get (deflatinary_burn.player_rewards state) pl + r]>
             (deflatinary_burn.player_rewards state);
         deflatinary_burn.player_burned :=
           <[pl := get (deflatinary_burn.player_burned state) pl + r / 10]>
             (deflatinary_burn.player_burned state) |}.
Proof.
  unfold deflatinary_burn.burn_for_performance.
  destruct global as [state|]; [|discriminate]. simpl.
  destruct (N.leb_spec t 7) as [Ht|]; [|discriminate]. simpl.
  destruct (deflatinary_burn.burn_records state !! _) as [old|] eqn:Hk.
  { rewrite bool_decide_eq_true_2 by eauto. discriminate. }
  rewrite bool_decide_eq_false_2 by (intros [? ?]; discriminate). simpl.
  destruct (deflatinary_burn.calculate_reward tiers t e) as [r|]; [|discriminate]. simpl.
  destruct (deflatinary_burn.spp_token_burn env pl (r / 10)) eqn:Hb; [|discriminate]. simpl.
  destruct (Move.add64 (deflatinary_burn.total_burned state) _) as [x1|] eqn:H1; [|discriminate].
  apply add64_inv in H1 as [-> Hle1]. simpl.
  destruct (Move.add64 (deflatinary_burn.total_rewards state) _) as [x2|] eqn:H2; [|discriminate].
  apply add64_inv in H2 as [-> Hle2]. simpl.
  destruct (deflatinary_burn.bump (deflatinary_burn.player_burned state) _ _)
    as [pb|] eqn:Hpb; [|discriminate].
  apply bump_get in Hpb as ->. simpl.
  destruct (deflatinary_burn.bump (deflatinary_burn.player_rewards state) _ _)
    as [pr|] eqn:Hpr; [|discriminate].
  apply bump_get in Hpr as ->. simpl.
  destruct (deflatinary_burn.spp_token_mint env pl r) eqn:Hm; [|discriminate]. simpl.
  intros [= <-]. exists state, r. repeat split; assumption || reflexivity.
Qed.

(** ** The default tier tables *)

(** Case analysis on a tier identifier known to be at most 7. *)
Ltac tier_cases t Ht :=
  let Hc := fresh "Hc" in
  assert (Hc : t = 0 \/ t = 1 \/ t = 2 \/ t = 3 \/ t = 4 \/ t = 5 \/ t = 6 \/ t = 7)
    by lia;
  destruct Hc as [->|[->|[->|[->|[->|[->|[->| ->]]]]]]].

Lemma sol_default_config s t :
  sol_default = Ok s -> t <= 7 ->
  exists k, get (Sol.baseRewards s) t = k * (100 * 10 ^ 16) /\ k <= 250 /\
            get (Sol.burnMultipliers s) t <= 40.
Proof.
  intros [= <-] Ht.
  tier_cases t Ht;
    [exists 50 | exists 150 | exists 100 | exists 200
     | exists 30 | exists 250 | exists 40 | exists 120];
    (split; [vm_compute; reflexivity | split; vm_compute; discriminate]).
Qed.

Lemma move_default_config tiers t :
  move_default = Ok (Some tiers) -> t <= 7 ->
  reward_tiers.base_reward (config_at tiers t) <= 25000000000 /\
  reward_tiers.multiplier (config_at tiers t) <= 400.
Proof.
  intros [= <-] Ht.
  tier_cases t Ht; (split; vm_compute; discriminate).
Qed.

Lemma default_fits_uint256 : 250 * (100 * 10 ^ 16) * 100 * 40 <= Sol.MAX_UINT256.
Proof. vm_compute. discriminate. Qed.

Lemma default_fits_u64 : 25000000000 * 400 * 100 <= Move.MAX_U64.
Proof. vm_compute. discriminate. Qed.

Lemma sol_default_reward s t e :
  sol_default = Ok s -> t <= 7 -> e <= 100 ->
  exists r, Sol.calculateReward s t e = Ok r /\
    Z.of_N r = reward_formula (get (Sol.baseRewards s) t) e (get (Sol.burnMultipliers s) t) 10 /\
    (e = 0 -> r = 0).
Proof.
  intros Hs Ht He.
  destruct (sol_default_config s t Hs Ht) as (k & Hb & Hk & Hm).
  pose proof default_fits_uint256 as Hfit.
  set (U := 100 * 10 ^ 16) in *.
  set (m := get (Sol.burnMultipliers s) t) in *.
  assert (Hke : k * e <= 250 * 100) by (apply N.mul_le_mono; assumption).
  assert (H1 : get (Sol.baseRewards s) t * e <= 250 * U * 100).
  { rewrite Hb. replace (k * U * e) with (k * e * U) by lia.
    replace (250 * U * 100) with (250 * 100 * U) by lia.
    apply N.mul_le_mono_r. assumption. }
  assert (H2 : get (Sol.baseRewards s) t * e / 100 * m <= 250 * U * 100 * 40).
  { apply N.mul_le_mono; [|assumption].
    etransitivity; [apply N.Div0.div_le_upper_bound with (q := get (Sol.baseRewards s) t * e)|exact H1].
    lia. }
  exists (get (Sol.baseRewards s) t * e / 100 * m / 10).
  split; [|split].
  - apply sol_calculateReward_ok; try assumption; lia.
  - apply sol_reward_is_formula. rewrite Hb. unfold U.
    replace (k * (100 * 10 ^ 16) * e) with (k * 10 ^ 16 * e * 100) by lia.
    apply N.Div0.mod_mul.
  - intros ->. rewrite N.mul_0_r. reflexivity.
Qed.

Lemma move_default_reward tiers t e :
  move_default = Ok (Some tiers) -> t <= 7 -> e <= 100 ->
  exists r, deflatinary_burn.calculate_reward (Some tiers) t e = Ok r /\
    Z.of_N r = reward_formula (reward_tiers.base_reward (config_at tiers t)) e
                 (reward_tiers.multiplier (config_at tiers t)) 100 /\
    (e = 0 -> r = 0).
Proof.
  intros Hs Ht He.
  destruct (move_default_config tiers t Hs Ht) as (Hb & Hm).
  pose proof default_fits_u64 as Hfit.
  set (b := reward_tiers.base_reward (config_at tiers t)) in *.
  set (m := reward_tiers.multiplier (config_at tiers t)) in *.
  assert (Hbm : b * m <= 25000000000 * 400) by (apply N.mul_le_mono; assumption).
  assert (Hbme : b * m * e <= 25000000000 * 400 * 100) by (apply N.mul_le_mono; assumption).
  exists (b * m * e / 10000). split; [|split].
  - apply move_calculate_reward_ok; try assumption; fold b m; lia.
  - apply move_reward_is_formula.
  - intros ->. rewrite N.mul_0_r. reflexivity.
Qed.

(** ** Reward and burn amounts (C2, C3) *)

(** C2, as amended.  For every tier in [0,7] and effort score in [0,100]:
    the Move engine returns the reward formula at scale 100 whenever its two
    products fit in 64 bits; the Solidity engine returns the stepwise
    reading at scale 10 whenever its two products fit in 256 bits, which is
    the reward formula when baseReward * effortScore is a multiple of 100;
    the burn amount of a successful burn is floor (reward / 10) on both
    engines; with the default tier tables both engines return the reward
    formula, and effort score 0 gives reward 0 and burn 0; effort score 100
    with multiplier 400 (scale 100) and base reward 250 gives reward 1000 and
    burn 100. *)
Theorem reward_and_burn_amounts
    (tiers : reward_tiers.TiersState) (s : Sol.State) (t e : N) :
  t <= 7 -> e <= 100 ->
  let mb := reward_tiers.base_reward (config_at tiers t) in
  let mm := reward_tiers.multiplier (config_at tiers t) in
  let sb := get (Sol.baseRewards s) t in
  let sm := get (Sol.burnMultipliers s) t in
  (mb * mm <= Move.MAX_U64 -> mb * mm * e <= Move.MAX_U64 ->
   exists r, deflatinary_burn.calculate_reward (Some tiers) t e = Ok r /\
             Z.of_N r = reward_formula mb e mm 100) /\
  (sb * e <= Sol.MAX_UINT256 -> sb * e / 100 * sm <= Sol.MAX_UINT256 ->
   exists r, Sol.calculateReward s t e = Ok r /\
             r = reward_formula_stepwise sb e sm 10 /\
             ((sb * e) mod 100 = 0 -> Z.of_N r = reward_formula sb e sm 10)) /\
  (forall keccak256 env m p b r s',
     Sol.burnForPerformance keccak256 env s m p t e = Ok (b, r, s') ->
     Sol.calculateReward s t e = Ok r /\ Z.of_N b = burn_formula r) /\
  (forall env global pl id ps st',
     deflatinary_burn.burn_for_performance env (Some tiers) global pl id t ps e = Ok st' ->
     exists record,
       deflatinary_burn.burn_records st' !! (id ++ Move.bcs_to_bytes pl) = Some record /\
       deflatinary_burn.calculate_reward (Some tiers) t e
         = Ok (deflatinary_burn.reward_amount record) /\
       Z.of_N (deflatinary_burn.burn_amount record)
         = burn_formula (deflatinary_burn.reward_amount record)) /\
  (sol_default = Ok s ->
   exists r, Sol.calculateReward s t e = Ok r /\
             Z.of_N r = reward_formula sb e sm 10 /\
             (e = 0 -> r = 0 /\ burn_formula r = 0%Z)) /\
  (move_default = Ok (Some tiers) ->
   exists r, deflatinary_burn.calculate_reward (Some tiers) t e = Ok r /\
             Z.of_N r = reward_formula mb e mm 100 /\
             (e = 0 -> r = 0 /\ burn_formula r = 0%Z)) /\
  (mb = 250 -> mm = 400 -> e = 100 ->
   deflatinary_burn.calculate_reward (Some tiers) t e = Ok 1000 /\
   burn_formula 1000 = 100%Z).
Proof.
  intros Ht He mb mm sb sm.
  split; [|split; [|split; [|split; [|split; [|split]]]]].
  - intros H1 H2. eexists. split.
    + apply move_calculate_reward_ok; assumption.
    + apply move_reward_is_formula.
  - intros H1 H2. eexists. split; [|split].
    + apply sol_calculateReward_ok; assumption.
    + reflexivity.
    + intros Hmod. apply sol_reward_is_formula. assumption.
  - intros keccak256 env m p b r s' Hburn.
    apply sol_burn_inv in Hburn as (_ & _ & Hr & -> & _).
    split; [assumption|]. rewrite burn_formula_div. reflexivity.
  - intros env global pl id ps st' Hburn.
    apply move_burn_inv in Hburn as (state & r & _ & _ & _ & Hr & _ & _ & _ & _ & ->).
    eexists. split; [apply lookup_insert_eq|]. simpl.
    split; [assumption|]. rewrite burn_formula_div. reflexivity.
  - intros Hs. destruct (sol_default_reward s t e Hs Ht He) as (r & Hr & Hf & H0).
    exists r. split; [assumption|]. split; [assumption|].
    intros E. rewrite (H0 E). split; [reflexivity|].
    rewrite burn_formula_div. reflexivity.
  - intros Hs. destruct (move_default_reward tiers t e Hs Ht He) as (r & Hr & Hf & H0).
    exists r. split; [assumption|]. split; [assumption|].
    intros E. rewrite (H0 E). split; [reflexivity|].
    rewrite burn_formula_div. reflexivity.
  - intros Hb Hm ->. split.
    + rewrite move_calculate_reward_ok; fold mb mm; rewrite ?Hb, ?Hm;
        try assumption; try reflexivity; vm_compute; discriminate.
    + rewrite burn_formula_div. reflexivity.
Qed.

(** The amounts on tier 5 at effort score 100: the Move table with base reward
    250 and multiplier 400, and the default Solidity table. *)
Lemma reward_and_burn_amounts_witness :
  (exists r, deflatinary_burn.calculate_reward (Some (tiers_of move_boundary)) 5 100 = Ok r /\
             Z.of_N r = reward_formula 250 100 400 100) /\
  (exists r, Sol.calculateReward (state_of sol_default) 5 100 = Ok r /\
             r = reward_formula_stepwise (250 * Sol.E18) 100 40 10 /\
             Z.of_N r = reward_formula (250 * Sol.E18) 100 40 10) /\
  (Sol.calculateReward (state_of sol_default) 5 100 = Ok (1000 * Sol.E18) /\
   Z.of_N (100 * Sol.E18) = burn_formula (1000 * Sol.E18)) /\
  (exists record,
     deflatinary_burn.burn_records
       (engine_after
          (deflatinary_burn.burn_for_performance generous (Some (tiers_of move_boundary))
             engine_initial 7 [77; 49] 5 90 100))
       !! ([77; 49] ++ Move.bcs_to_bytes 7) = Some record /\
     deflatinary_burn.calculate_reward (Some (tiers_of move_boundary)) 5 100
       = Ok (deflatinary_burn.reward_amount record) /\
     Z.of_N (deflatinary_burn.burn_amount record)
       = burn_formula (deflatinary_burn.reward_amount record)) /\
  (deflatinary_burn.calculate_reward (Some (tiers_of move_boundary)) 5 100 = Ok 1000 /\
   burn_formula 1000 = 100%Z) /\
  (exists r, Sol.calculateReward (state_of sol_default) 0 0 = Ok r /\
             Z.of_N r = reward_formula (50 * Sol.E18) 0 15 10 /\
             r = 0 /\ burn_formula r = 0%Z) /\
  (exists r, deflatinary_burn.calculate_reward (Some (tiers_of move_default)) 0 0 = Ok r /\
             Z.of_N r = reward_formula 5000000000 0 150 100 /\
             r = 0 /\ burn_formula r = 0%Z).
Proof.
  assert (H5 : 5 <= 7) by (vm_compute; discriminate).
  assert (H100 : 100 <= 100) by (vm_compute; discriminate).
  assert (H0 : 0 <= 7) by (vm_compute; discriminate).
  assert (H00 : 0 <= 100) by (vm_compute; discriminate).
  destruct (reward_and_burn_amounts (tiers_of move_boundary) (state_of sol_default)
              5 100 H5 H100) as (Hmove & Hsol & Hsburn & Hmburn & _ & _ & Hex).
  destruct (reward_and_burn_amounts (tiers_of move_default) (state_of sol_default)
              0 0 H0 H00) as (_ & _ & _ & _ & Hsdef & Hmdef & _).
  split.
  { apply Hmove; vm_compute; discriminate. }
  split.
  { destruct Hsol as (r & Hr & Hstep & Hform);
      [vm_compute; discriminate | vm_compute; discriminate |].
    exists r. split; [exact Hr|]. split; [exact Hstep|].
    apply Hform. vm_compute. reflexivity. }
  split.
  { apply (Hsburn toy_hash deployer 1 7 (100 * Sol.E18) (1000 * Sol.E18)
             (sol_after (Sol.burnForPerformance toy_hash deployer
                           (state_of sol_default) 1 7 5 100))).
    vm_compute. reflexivity. }
  split.
  { apply (Hmburn generous engine_initial 7 [77; 49] 90).
    vm_compute. reflexivity. }
  split.
  { apply Hex; reflexivity. }
  split.
  { destruct (Hsdef eq_refl) as (r & Hr & Hf & Hz).
    exists r. split; [exact Hr|]. split; [exact Hf|]. apply Hz. reflexivity. }
  destruct (Hmdef eq_refl) as (r & Hr & Hf & Hz).
  exists r. split; [exact Hr|]. split; [exact Hf|]. apply Hz. reflexivity.
Defined.

(** C2 as stated fails.  With base reward 3 and multiplier 1.5 on tier 0 and
    effort score 50, the reward formula gives 2 and its stepwise reading 1:
    the Solidity engine returns 1 and the Move engine 2, so neither reading
    describes both; and the Move engine returns nothing at all when base
    reward times multiplier leaves 64 bits. *)
Lemma reward_formula_counterexample :
  (exists s, sol_small = Ok s /\
     get (Sol.baseRewards s) 0 = 3 /\ get (Sol.burnMultipliers s) 0 = 15 /\
     Sol.calculateReward s 0 50 = Ok 1 /\
     reward_formula 3 50 15 10 = 2%Z) /\
  (exists tiers, move_small = Ok (Some tiers) /\
     reward_tiers.base_reward (config_at tiers 0) = 3 /\
     reward_tiers.multiplier (config_at tiers 0) = 150 /\
     deflatinary_burn.calculate_reward (Some tiers) 0 50 = Ok 2 /\
     reward_formula_stepwise 3 50 150 100 = 1) /\
  (exists tiers, move_huge = Ok (Some tiers) /\
     deflatinary_burn.calculate_reward (Some tiers) 0 100 = Err Move.ArithmeticError).
Proof.
  split; [|split].
  - eexists. split; [reflexivity|]. repeat split; vm_compute; reflexivity.
  - eexists. split; [reflexivity|]. repeat split; vm_compute; reflexivity.
  - eexists. split; [reflexivity|]. vm_compute. reflexivity.
Qed.

(** C3, as amended.  For a common tier configuration (the same base reward
    [b], the multiplier [m] at scale 10 in the Solidity engine and [10 * m]
    at scale 100 in the Move engine), every tier in [0,7] and effort score in
    [0,100], the two engines return the same reward whenever the Move
    products fit in 64 bits and b * effortScore is a multiple of 100. *)
Theorem engines_agree_when_exact
    (tiers : reward_tiers.TiersState) (s : Sol.State) (t e b m : N) :
  t <= 7 -> e <= 100 ->
  get (Sol.baseRewards s) t = b ->
  get (Sol.burnMultipliers s) t = m ->
  reward_tiers.base_reward (config_at tiers t) = b ->
  reward_tiers.multiplier (config_at tiers t) = 10 * m ->
  b <= Move.MAX_U64 ->
  b * (10 * m) <= Move.MAX_U64 ->
  b * (10 * m) * e <= Move.MAX_U64 ->
  (b * e) mod 100 = 0 ->
  exists r, Sol.calculateReward s t e = Ok r /\
            deflatinary_burn.calculate_reward (Some tiers) t e = Ok r /\
            Z.of_N r = reward_formula b e m 10.
Proof.
  intros Ht He Hsb Hsm Hmb Hmm Hb H1 H2 Hmod.
  assert (Hwide : Move.MAX_U64 * 100 <= Sol.MAX_UINT256) by (vm_compute; discriminate).
  assert (Hbe : b * e <= Move.MAX_U64 * 100) by (apply N.mul_le_mono; assumption).
  assert (Hq : b * e / 100 <= b * e) by (apply N.Div0.div_le_upper_bound; lia).
  assert (Hqm : b * e / 100 * m <= b * (10 * m) * e).
  { etransitivity; [apply N.mul_le_mono_r; exact Hq|]. lia. }
  exists (b * e / 100 * m / 10). split; [|split].
  - rewrite <- Hsb, <- Hsm. apply sol_calculateReward_ok; try assumption.
    + rewrite Hsb. lia.
    + rewrite Hsb, Hsm. lia.
  - rewrite move_calculate_reward_ok; rewrite ?Hmb, ?Hmm; try assumption.
    rewrite single_rounding_scale_100, stepwise_exact by assumption. reflexivity.
  - apply sol_reward_is_formula. assumption.
Qed.

(** Tier 0 with base reward 5000000000 and multiplier 1.5 on both engines, at
    effort score 85. *)
Lemma engines_agree_when_exact_witness :
  exists r, Sol.calculateReward (state_of sol_common) 0 85 = Ok r /\
            deflatinary_burn.calculate_reward (Some (tiers_of move_default)) 0 85 = Ok r /\
            Z.of_N r = reward_formula 5000000000 85 15 10.
Proof.
  apply (engines_agree_when_exact (tiers_of move_default) (state_of sol_common)
           0 85 5000000000 15);
    solve [reflexivity | vm_compute; discriminate | vm_compute; reflexivity].
Defined.

(** C3 as stated fails: for the common configuration of tier 0 with base
    reward 3 and multiplier 1.5, at effort score 50, the Solidity engine
    returns 1 and the Move engine returns 2. *)
Lemma engines_disagree_counterexample :
  exists s tiers,
    sol_small = Ok s /\ move_small = Ok (Some tiers) /\
    get (Sol.baseRewards s) 0 = reward_tiers.base_reward (config_at tiers 0) /\
    10 * get (Sol.burnMultipliers s) 0 = reward_tiers.multiplier (config_at tiers 0) /\
    Sol.calculateReward s 0 50 = Ok 1 /\
    deflatinary_burn.calculate_reward (Some tiers) 0 50 = Ok 2.
Proof.
  eexists _, _. split; [reflexivity|]. split; [reflexivity|].
  repeat split; vm_compute; reflexivity.
Qed.

(** ** One burn record per match and participant (C1) *)

Lemma sol_executed_lookup s txId :
  Sol.executed s txId = true ->
  exists record, Sol.burnTransactions s !! txId = Some record.
Proof.
  unfold Sol.executed. destruct (Sol.burnTransactions s !! txId); [eauto | discriminate].
Qed.

Lemma sol_duplicate_rejected keccak256 env s m p t e :
  Sol.executed s (Sol._computeTxId keccak256 m p) = true ->
  Sol.burnForPerformance keccak256 env s m p t e =
    if Sol.onlyOracle env s then Err Sol.BurnAlreadyExecuted
    else Err (Sol.RequireFailed "Not authorized").
Proof.
  intros Hex. unfold Sol.burnForPerformance.
  destruct (Sol.onlyOracle env s); [|reflexivity]. simpl.
  rewrite Hex. reflexivity.
Qed.

(** No entry point changes a transaction record that is marked executed. *)
Lemma sol_run_keeps_record keccak256 env s c txId record :
  Sol.burnTransactions s !! txId = Some record ->
  Sol.bt_executed record = true ->
  Sol.burnTransactions (commit s (Sol.run keccak256 env s c)) !! txId = Some record.
Proof.
  intros Hl Hex. destruct c as [o | t m b | m p t e]; simpl.
  - unfold Sol.setOracleContract.
    destruct (negb _); [exact Hl|]. destruct (o =? 0); exact Hl.
  - unfold Sol.updateTier.
    destruct (negb _); [exact Hl|]. destruct (_ <? t); exact Hl.
  - destruct (Sol.burnForPerformance keccak256 env s m p t e) as [[[b r] s']|] eqn:Hb;
      [|exact Hl].
    simpl. apply sol_burn_inv in Hb as (_ & Hfree & _ & _ & _ & _ & _ & _ & -> & _).
    rewrite lookup_insert_ne; [exact Hl|].
    intros E. unfold Sol.executed in Hfree. rewrite E, Hl in Hfree. congruence.
Qed.

Lemma sol_run_all_keeps_record keccak256 txs s txId record :
  Sol.burnTransactions s !! txId = Some record ->
  Sol.bt_executed record = true ->
  Sol.burnTransactions (Sol.run_all keccak256 s txs) !! txId = Some record.
Proof.
  revert s. induction txs as [|[env c] txs IH]; intros s Hl Hex; [exact Hl|].
  simpl. apply IH; [|exact Hex]. apply sol_run_keeps_record; assumption.
Qed.

Lemma move_duplicate_rejected env tiers state pl id t ps e record :
  deflatinary_burn.burn_records state !! (id ++ Move.bcs_to_bytes pl) = Some record ->
  deflatinary_burn.burn_for_performance env tiers (Some state) pl id t ps e =
    if t <=? 7 then Err (Move.Abort deflatinary_burn.E_ALREADY_BURNED)
    else Err (Move.Abort deflatinary_burn.E_INVALID_TIER).
Proof.
  intros Hl. unfold deflatinary_burn.burn_for_performance. simpl.
  destruct (t <=? 7); [|reflexivity]. simpl.
  rewrite Hl. rewrite bool_decide_eq_true_2 by eauto. reflexivity.
Qed.

Lemma move_serve_keeps_record env tiers state rq k record :
  deflatinary_burn.burn_records state !! k = Some record ->
  exists state',
    commit (Some state)
      (st <- deflatinary_burn.serve env tiers (Some state) rq ;; Ok (Some st)) = Some state' /\
    deflatinary_burn.burn_records state' !! k = Some record.
Proof.
  intros Hl.
  destruct (deflatinary_burn.serve env tiers (Some state) rq) as [st'|] eqn:Hs; simpl.
  - exists st'. split; [reflexivity|]. unfold deflatinary_burn.serve in Hs.
    apply move_burn_inv in Hs as (state0 & r & [= <-] & _ & Hfree & _ & _ & _ & _ & _ & ->).
    simpl. rewrite lookup_insert_ne; [exact Hl|].
    intros E. rewrite E, Hl in Hfree. discriminate.
  - exists state. split; [reflexivity | exact Hl].
Qed.

Lemma move_serve_all_keeps_record txs state k record :
  deflatinary_burn.burn_records state !! k = Some record ->
  exists state',
    serve_all (Some state) txs = Some state' /\
    deflatinary_burn.burn_records state' !! k = Some record.
Proof.
  revert state. induction txs as [|[[env tiers] rq] txs IH]; intros state Hl.
  - exists state. split; [reflexivity | exact Hl].
  - simpl. destruct (move_serve_keeps_record env tiers state rq k record Hl)
      as (state' & -> & Hl').
    apply IH. exact Hl'.
Qed.

(** C1, as amended.  The first successful burn for a (match, participant)
    key finds no executed record for the key and stores one; after any
    further transactions that record is still the stored one, and every later
    burn attempt for the key fails and leaves the engine state unchanged.  The
    failure is the duplicate-burn error whenever the attempt reaches the
    duplicate check: in the Solidity engine for a caller that is the oracle or
    the owner (another caller gets "Not authorized"), in the Move engine for
    a tier in [0,7] (a larger tier gets E_INVALID_TIER). *)
Theorem burn_recorded_once :
  (forall keccak256 env s m p t e b r s1 later env' t' e',
     Sol.burnForPerformance keccak256 env s m p t e = Ok (b, r, s1) ->
     let s2 := Sol.run_all keccak256 s1 later in
     Sol.executed s (Sol._computeTxId keccak256 m p) = false /\
     Sol.getBurnTransaction keccak256 s2 m p =
       Some (Sol.mkBurnTransaction m p b r t e (Sol.block_timestamp env) true) /\
     Sol.burnForPerformance keccak256 env' s2 m p t' e' =
       (if Sol.onlyOracle env' s2 then Err Sol.BurnAlreadyExecuted
        else Err (Sol.RequireFailed "Not authorized")) /\
     commit s2 (Sol.run keccak256 env' s2 (Sol.CallBurnForPerformance m p t' e')) = s2) /\
  (forall env tiers global pl id t ps e st1 later env' tiers' t' ps' e',
     deflatinary_burn.burn_for_performance env tiers global pl id t ps e = Ok st1 ->
     let g2 := serve_all (Some st1) later in
     (exists state, global = Some state /\
        deflatinary_burn.burn_records state !! (id ++ Move.bcs_to_bytes pl) = None) /\
     (exists r, deflatinary_burn.calculate_reward tiers t e = Ok r /\
        deflatinary_burn.get_burn_record g2 id pl =
          Ok (deflatinary_burn.mkBurnRecord id pl (r / 10) r t e
                (deflatinary_burn.now_seconds env))) /\
     deflatinary_burn.burn_for_performance env' tiers' g2 pl id t' ps' e' =
       (if t' <=? 7 then Err (Move.Abort deflatinary_burn.E_ALREADY_BURNED)
        else Err (Move.Abort deflatinary_burn.E_INVALID_TIER)) /\
     commit g2
       (st <- deflatinary_burn.burn_for_performance env' tiers' g2 pl id t' ps' e' ;;
        Ok (Some st)) = g2).
Proof.
  split.
  - intros keccak256 env s m p t e b r s1 later env' t' e' Hburn s2.
    apply sol_burn_inv in Hburn as (_ & Hfree & _ & _ & _ & _ & _ & _ & Htx & _).
    assert (Hrec : Sol.burnTransactions s2 !! Sol._computeTxId keccak256 m p =
              Some (Sol.mkBurnTransaction m p b r t e (Sol.block_timestamp env) true)).
    { apply sol_run_all_keeps_record; [|reflexivity].
      rewrite Htx. apply lookup_insert_eq. }
    assert (Hex : Sol.executed s2 (Sol._computeTxId keccak256 m p) = true).
    { unfold Sol.executed. rewrite Hrec. reflexivity. }
    split; [exact Hfree|]. split; [exact Hrec|].
    pose proof (sol_duplicate_rejected keccak256 env' s2 m p t' e' Hex) as Hdup.
    split; [exact Hdup|].
    simpl. rewrite Hdup. destruct (Sol.onlyOracle env' s2); reflexivity.
  - intros env tiers global pl id t ps e st1 later env' tiers' t' ps' e' Hburn g2.
    apply move_burn_inv in Hburn
      as (state & r & -> & _ & Hfree & Hr & _ & _ & _ & _ & Hst1).
    destruct (move_serve_all_keeps_record later st1 (id ++ Move.bcs_to_bytes pl)
                (deflatinary_burn.mkBurnRecord id pl (r / 10) r t e
                   (deflatinary_burn.now_seconds env)))
      as (st2 & Hg2 & Hrec).
    { rewrite Hst1. simpl. apply lookup_insert_eq. }
    subst g2. rewrite Hg2.
    split; [exists state; split; [reflexivity | exact Hfree]|].
    split.
    { exists r. split; [exact Hr|].
      unfold deflatinary_burn.get_burn_record. simpl. rewrite Hrec. reflexivity. }
    pose proof (move_duplicate_rejected env' tiers' st2 pl id t' ps' e' _ Hrec) as Hdup.
    split; [exact Hdup|].
    rewrite Hdup. destruct (t' <=? 7); reflexivity.
Qed.

(** A first burn for a key, a burn for another key, then the first one asked
    again, on each engine. *)
Lemma burn_recorded_once_witness :
  (Sol.getBurnTransaction toy_hash
     (Sol.run_all toy_hash (sol_after sol_first)
        [(deployer, Sol.CallBurnForPerformance 2 7 1 90)]) 1 7 =
     Some (Sol.mkBurnTransaction 1 7 6375000000000000000 63750000000000000000 0 85 1000 true) /\
   Sol.burnForPerformance toy_hash deployer
     (Sol.run_all toy_hash (sol_after sol_first)
        [(deployer, Sol.CallBurnForPerformance 2 7 1 90)]) 1 7 0 85 =
     Err Sol.BurnAlreadyExecuted) /\
  (deflatinary_burn.get_burn_record
     (serve_all (Some (engine_after move_first))
        [(generous, Some (tiers_of move_default), deflatinary_burn.mkRequest 8 [77; 49] 1 90 90)])
     [77; 49] 7 =
     Ok (deflatinary_burn.mkBurnRecord [77; 49] 7 562500000 5625000000 0 75 1000) /\
   deflatinary_burn.burn_for_performance generous (Some (tiers_of move_default))
     (serve_all (Some (engine_after move_first))
        [(generous, Some (tiers_of move_default), deflatinary_burn.mkRequest 8 [77; 49] 1 90 90)])
     7 [77; 49] 0 80 75 =
     Err (Move.Abort deflatinary_burn.E_ALREADY_BURNED)).
Proof.
  destruct burn_recorded_once as [Hsol Hmove]. split.
  - assert (H : Sol.burnForPerformance toy_hash deployer (state_of sol_default) 1 7 0 85 =
                Ok (6375000000000000000, 63750000000000000000, sol_after sol_first))
      by (vm_compute; reflexivity).
    destruct (Hsol toy_hash deployer _ 1 7 0 85 _ _ _
                [(deployer, Sol.CallBurnForPerformance 2 7 1 90)] deployer 0 85 H)
      as (_ & Hrec & Hdup & _).
    split; [exact Hrec | exact Hdup].
  - assert (H : deflatinary_burn.burn_for_performance generous (Some (tiers_of move_default))
                  engine_initial 7 [77; 49] 0 80 75 = Ok (engine_after move_first))
      by (vm_compute; reflexivity).
    destruct (Hmove generous _ _ 7 [77; 49] 0 80 75 _
                [(generous, Some (tiers_of move_default),
                  deflatinary_burn.mkRequest 8 [77; 49] 1 90 90)]
                generous (Some (tiers_of move_default)) 0 80 75 H)
      as (_ & (r & Hr & Hrec) & Hdup & _).
    split; [|exact Hdup].
    rewrite Hrec. vm_compute in Hr. injection Hr as <-. reflexivity.
Defined.

(** C1 as stated fails on the error of a later attempt: after a successful
    burn for a key, a second attempt for the same key with tier 8 aborts in
    the Move engine with E_INVALID_TIER rather than E_ALREADY_BURNED, and a
    second attempt by a caller that is neither oracle nor owner reverts in
    the Solidity engine with "Not authorized" rather than
    BurnAlreadyExecuted. *)
Lemma duplicate_error_counterexample :
  (exists st1,
     deflatinary_burn.burn_for_performance generous (Some (tiers_of move_default))
       engine_initial 7 [77; 49] 0 80 75 = Ok st1 /\
     deflatinary_burn.burn_for_performance generous (Some (tiers_of move_default))
       (Some st1) 7 [77; 49] 8 80 75 = Err (Move.Abort deflatinary_burn.E_INVALID_TIER) /\
     deflatinary_burn.E_INVALID_TIER <> deflatinary_burn.E_ALREADY_BURNED) /\
  (exists b r s1,
     Sol.burnForPerformance toy_hash deployer (state_of sol_default) 1 7 0 85 = Ok (b, r, s1) /\
     Sol.burnForPerformance toy_hash stranger s1 1 7 0 85 =
       Err (Sol.RequireFailed "Not authorized")).
Proof.
  split.
  - eexists. split.
    + vm_compute; reflexivity.
    + split.
      * vm_compute; reflexivity.
      * vm_compute; discriminate.
  - eexists _, _, _. split.
    + vm_compute; reflexivity.
    + vm_compute; reflexivity.
Qed.

(** ** The books of the Move engine balance (C9) *)

Lemma sum_tally_empty : deflatinary_burn.sum_tally ∅ = 0.
Proof. unfold deflatinary_burn.sum_tally. apply map_fold_empty. Qed.

Lemma sum_records_empty (f : deflatinary_burn.BurnRecord -> N) : deflatinary_burn.sum_records f ∅ = 0.
Proof. unfold deflatinary_burn.sum_records. apply map_fold_empty. Qed.

Lemma sum_tally_fresh (m : gmap N N) (p v : N) :
  m !! p = None ->
  deflatinary_burn.sum_tally (<[p := v]> m) = v + deflatinary_burn.sum_tally m.
Proof.
  intros Hn. unfold deflatinary_burn.sum_tally.
  apply (map_fold_insert_L (fun _ v acc => v + acc)); [|exact Hn].
  intros; lia.
Qed.

Lemma sum_tally_present (m : gmap N N) (p v : N) :
  m !! p = Some v ->
  deflatinary_burn.sum_tally m = v + deflatinary_burn.sum_tally (delete p m).
Proof.
  intros Hs. unfold deflatinary_burn.sum_tally.
  apply (map_fold_delete_L (fun _ v acc => v + acc)); [|exact Hs].
  intros; lia.
Qed.

(** Adding an amount to one player's tally adds it to the sum. *)
Lemma sum_tally_bump (m : gmap N N) (p a : N) :
  deflatinary_burn.sum_tally (<[p := get m p + a]> m) = deflatinary_burn.sum_tally m + a.
Proof.
  unfold get. destruct (m !! p) as [v|] eqn:Hl; simpl.
  - rewrite <- insert_delete_eq.
    rewrite sum_tally_fresh by apply lookup_delete_eq.
    rewrite (sum_tally_present m p v Hl). lia.
  - rewrite sum_tally_fresh by exact Hl. lia.
Qed.

Lemma sum_records_fresh (f : deflatinary_burn.BurnRecord -> N) (m : gmap (list N) deflatinary_burn.BurnRecord) (k : list N)
    (r : deflatinary_burn.BurnRecord) :
  m !! k = None ->
  deflatinary_burn.sum_records f (<[k := r]> m) = f r + deflatinary_burn.sum_records f m.
Proof.
  intros Hn. unfold deflatinary_burn.sum_records.
  apply (map_fold_insert_L (fun _ r acc => f r + acc)); [|exact Hn].
  intros; lia.
Qed.

Lemma books_balance_initial st : engine_initial = Some st -> books_balance st.
Proof.
  intros [= <-]. unfold books_balance. simpl.
  rewrite !sum_records_empty, sum_tally_empty.
  repeat split; try reflexivity.
  intros k r Hl. rewrite lookup_empty in Hl. discriminate.
Qed.

Lemma books_balance_step env tiers state pl id t ps e st' :
  books_balance state ->
  deflatinary_burn.burn_for_performance env tiers (Some state) pl id t ps e = Ok st' ->
  books_balance st'.
Proof.
  intros (Hrec & Hb1 & Hb2 & Hr1 & Hr2) Hburn.
  apply move_burn_inv in Hburn
    as (state0 & r & [= <-] & _ & Hfree & _ & _ & _ & _ & _ & ->).
  unfold books_balance. simpl.
  rewrite !sum_records_fresh by exact Hfree.
  rewrite !sum_tally_bump. simpl.
  split; [|repeat split; lia].
  intros k rec Hl. destruct (decide (id ++ Move.bcs_to_bytes pl = k)) as [<-|Hne].
  - rewrite lookup_insert_eq in Hl. injection Hl as <-. reflexivity.
  - rewrite lookup_insert_ne in Hl by exact Hne. eapply Hrec; exact Hl.
Qed.

Lemma books_balance_serve_all txs global st :
  (forall state, global = Some state -> books_balance state) ->
  serve_all global txs = Some st -> books_balance st.
Proof.
  revert global. induction txs as [|[[env tiers] rq] txs IH]; intros global Hinv Hrun.
  - apply Hinv. exact Hrun.
  - simpl in Hrun. eapply IH; [|exact Hrun].
    intros state Hstate.
    destruct (deflatinary_burn.serve env tiers global rq) as [st'|] eqn:Hs;
      simpl in Hstate.
    + injection Hstate as <-. unfold deflatinary_burn.serve in Hs.
      destruct global as [state0|]; [|discriminate].
      eapply books_balance_step; [|exact Hs]. apply Hinv. reflexivity.
    + apply Hinv. exact Hstate.
Qed.

(** C9.  After any sequence of burn transactions against the Move engine
    from its initialized state (each one committed when it succeeds and
    rolled back when it aborts), every stored record has
    burn_amount = reward_amount / 10, total_burned is the sum of the
    records' burn amounts and the sum of the players' burned tallies, and
    total_rewards is the sum of the records' reward amounts and the sum of
    the players' reward tallies. *)
Theorem books_balance_always txs st :
  serve_all engine_initial txs = Some st -> books_balance st.
Proof.
  apply books_balance_serve_all. apply books_balance_initial.
Qed.

(** Two accepted burns of player 7 with a rejected duplicate in between. *)
Lemma books_balance_always_witness :
  serve_all engine_initial
    [(generous, Some (tiers_of move_default), rq0);
     (generous, Some (tiers_of move_default), rq0);
     (generous, Some (tiers_of move_default), deflatinary_burn.mkRequest 7 [77; 50] 5 95 100)]
  = Some (deflatinary_burn.mkBurnEngineState Move.spp_protocol
            (<[[77; 50] ++ Move.bcs_to_bytes 7 :=
                 deflatinary_burn.mkBurnRecord [77; 50] 7 10000000000 100000000000 5 100 1000]>
               (<[[77; 49] ++ Move.bcs_to_bytes 7 :=
                    deflatinary_burn.mkBurnRecord [77; 49] 7 562500000 5625000000 0 75 1000]> ∅))
            10562500000 105625000000
            (<[7 := 105625000000]> ∅) (<[7 := 10562500000]> ∅)) /\
  books_balance
    (deflatinary_burn.mkBurnEngineState Move.spp_protocol
       (<[[77; 50] ++ Move.bcs_to_bytes 7 :=
            deflatinary_burn.mkBurnRecord [77; 50] 7 10000000000 100000000000 5 100 1000]>
          (<[[77; 49] ++ Move.bcs_to_bytes 7 :=
               deflatinary_burn.mkBurnRecord [77; 49] 7 562500000 5625000000 0 75 1000]> ∅))
       10562500000 105625000000
       (<[7 := 105625000000]> ∅) (<[7 := 10562500000]> ∅)).
Proof.
  assert (H : serve_all engine_initial
    [(generous, Some (tiers_of move_default), rq0);
     (generous, Some (tiers_of move_default), rq0);
     (generous, Some (tiers_of move_default), deflatinary_burn.mkRequest 7 [77; 50] 5 95 100)]
  = Some (deflatinary_burn.mkBurnEngineState Move.spp_protocol
            (<[[77; 50] ++ Move.bcs_to_bytes 7 :=
                 deflatinary_burn.mkBurnRecord [77; 50] 7 10000000000 100000000000 5 100 1000]>
               (<[[77; 49] ++ Move.bcs_to_bytes 7 :=
                    deflatinary_burn.mkBurnRecord [77; 49] 7 562500000 5625000000 0 75 1000]> ∅))
            10562500000 105625000000
            (<[7 := 105625000000]> ∅) (<[7 := 10562500000]> ∅))).
  { vm_compute. reflexivity. }
  split; [exact H|]. exact (books_balance_always _ _ H).
Defined.

(** ** Validation of tier and effort score (C6) *)

Lemma sol_burn_rejects_tier keccak256 env s m p t e :
  Sol.onlyOracle env s = true ->
  Sol.executed s (Sol._computeTxId keccak256 m p) = false ->
  7 < t ->
  Sol.burnForPerformance keccak256 env s m p t e = Err Sol.InvalidTier.
Proof.
  intros Ha Hf Ht. unfold Sol.burnForPerformance. rewrite Ha, Hf. simpl.
  rewrite sol_calculateReward_tier by exact Ht. reflexivity.
Qed.

Lemma sol_burn_rejects_effort keccak256 env s m p t e :
  Sol.onlyOracle env s = true ->
  Sol.executed s (Sol._computeTxId keccak256 m p) = false ->
  t <= 7 -> 100 < e ->
  Sol.burnForPerformance keccak256 env s m p t e = Err Sol.InvalidEffortScore.
Proof.
  intros Ha Hf Ht He. unfold Sol.burnForPerformance. rewrite Ha, Hf. simpl.
  rewrite sol_calculateReward_effort by assumption. reflexivity.
Qed.

Lemma move_burn_rejects_tier env tiers state pl id t ps e :
  7 < t ->
  deflatinary_burn.burn_for_performance env tiers (Some state) pl id t ps e =
    Err (Move.Abort deflatinary_burn.E_INVALID_TIER).
Proof.
  intros Ht. unfold deflatinary_burn.burn_for_performance. simpl.
  destruct (N.leb_spec t 7); [lia | reflexivity].
Qed.

(** The Move engine never looks at the range of the effort score: a burn
    goes through for any effort score whose products fit in 64 bits. *)
Lemma move_burn_any_effort state tiers pl id t ps e :
  t <= 7 ->
  deflatinary_burn.burn_records state !! (id ++ Move.bcs_to_bytes pl) = None ->
  deflatinary_burn.player_burned state !! pl = None ->
  deflatinary_burn.player_rewards state !! pl = None ->
  reward_tiers.base_reward (config_at tiers t)
    * reward_tiers.multiplier (config_at tiers t) <= Move.MAX_U64 ->
  reward_tiers.base_reward (config_at tiers t)
    * reward_tiers.multiplier (config_at tiers t) * e <= Move.MAX_U64 ->
  deflatinary_burn.total_rewards state
    + reward_tiers.base_reward (config_at tiers t)
      * reward_tiers.multiplier (config_at tiers t) * e / 10000 <= Move.MAX_U64 ->
  deflatinary_burn.total_burned state
    + reward_tiers.base_reward (config_at tiers t)
      * reward_tiers.multiplier (config_at tiers t) * e / 10000 / 10 <= Move.MAX_U64 ->
  exists st',
    deflatinary_burn.burn_for_performance generous (Some tiers) (Some state) pl id t ps e
      = Ok st' /\
    deflatinary_burn.get_burn_record (Some st') id pl =
      Ok (deflatinary_burn.mkBurnRecord id pl
            (reward_tiers.base_reward (config_at tiers t)
             * reward_tiers.multiplier (config_at tiers t) * e / 10000 / 10)
            (reward_tiers.base_reward (config_at tiers t)
             * reward_tiers.multiplier (config_at tiers t) * e / 10000)
            t e (deflatinary_burn.now_seconds generous)).
Proof.
  intros Ht Hfree Hpb Hpr H1 H2 H3 H4.
  unfold deflatinary_burn.burn_for_performance. simpl.
  destruct (N.leb_spec t 7); [|lia]. simpl.
  rewrite Hfree. rewrite bool_decide_eq_false_2 by (intros [? ?]; discriminate). simpl.
  rewrite move_calculate_reward_ok by assumption. simpl.
  unfold Move.add64.
  destruct (N.leb_spec (deflatinary_burn.total_burned state
     + reward_tiers.base_reward (config_at tiers t)
       * reward_tiers.multiplier (config_at tiers t) * e / 10000 / 10) Move.MAX_U64);
    [|lia]. simpl.
  destruct (N.leb_spec (deflatinary_burn.total_rewards state
     + reward_tiers.base_reward (config_at tiers t)
       * reward_tiers.multiplier (config_at tiers t) * e / 10000) Move.MAX_U64);
    [|lia]. simpl.
  unfold deflatinary_burn.bump. rewrite Hpb, Hpr. simpl.
  eexists. split; [reflexivity|].
  unfold deflatinary_burn.get_burn_record. simpl.
  rewrite lookup_insert_eq. reflexivity.
Qed.

(** C6, the failing input.  On the initialized Move engine with the default
    tier table, a burn with tier 0 and effort score 200 is not rejected: it
    succeeds and records a reward of 15000000000, twice the reward of effort
    score 100, and a burn of 1500000000; the Solidity engine rejects the same
    effort score with InvalidEffortScore. *)
Theorem move_accepts_effort_above_100 :
  (exists st,
     deflatinary_burn.burn_for_performance generous (Some (tiers_of move_default))
       engine_initial 7 [77; 49] 0 80 200 = Ok st /\
     deflatinary_burn.get_burn_record (Some st) [77; 49] 7 =
       Ok (deflatinary_burn.mkBurnRecord [77; 49] 7 1500000000 15000000000 0 200 1000) /\
     deflatinary_burn.total_rewards st = 15000000000 /\
     deflatinary_burn.total_burned st = 1500000000) /\
  deflatinary_burn.calculate_reward (Some (tiers_of move_default)) 0 100 = Ok 7500000000 /\
  Sol.calculateReward (state_of sol_default) 0 200 = Err Sol.InvalidEffortScore /\
  Sol.burnForPerformance toy_hash deployer (state_of sol_default) 1 7 0 200
    = Err Sol.InvalidEffortScore.
Proof.
  split.
  - eexists. split.
    + vm_compute; reflexivity.
    + split.
      * vm_compute; reflexivity.
      * split; vm_compute; reflexivity.
  - split.
    + vm_compute; reflexivity.
    + split; vm_compute; reflexivity.
Qed.

(** ** Recording after finalization (C4) *)

(** The Solidity oracle does refuse: once [finalizeMatch] has succeeded for
    a match, [recordPerformance] for it reverts with MatchAlreadyFinalized
    for every authorized caller. *)
Lemma sol_oracle_rejects_after_finalize sender now s matchId hash count s'
    sender' player runs wickets faced bowled tier effortScore :
  SolOracle.finalizeMatch sender now s matchId hash count = Ok s' ->
  SolOracle.onlyAuthorized sender' s' = true ->
  SolOracle.recordPerformance sender' s' matchId player runs wickets faced bowled
    tier effortScore = Err SolOracle.MatchAlreadyFinalized.
Proof.
  unfold SolOracle.finalizeMatch.
  destruct (negb (SolOracle.onlyAuthorized sender s)); [discriminate|].
  destruct (N.eqb_spec (SolOracle.registeredAt (SolOracle.match_at s matchId)) 0)
    as [|Hreg]; [discriminate|].
  destruct (SolOracle.isFinalized (SolOracle.match_at s matchId)); [discriminate|].
  intros [= <-] Hauth.
  set (s' := SolOracle.mkState _ _ _ _ _ _) in *.
  assert (Hm : SolOracle.match_at s' matchId =
            SolOracle.mkMatchData
              (SolOracle.md_matchId (SolOracle.match_at s matchId))
              (SolOracle.organizer (SolOracle.match_at s matchId))
              (SolOracle.registeredAt (SolOracle.match_at s matchId))
              now true count hash).
  { unfold SolOracle.match_at at 1. unfold s'. simpl.
    rewrite lookup_insert_eq. reflexivity. }
  unfold SolOracle.recordPerformance. rewrite Hauth, Hm. simpl.
  destruct (N.eqb_spec (SolOracle.registeredAt (SolOracle.match_at s matchId)) 0);
    [contradiction | reflexivity].
Qed.

(** [record_performance] succeeds for an authorized caller on any registered
    match, whatever its status. *)
Lemma record_performance_any_status now state oracle_addr id m pl score effort t :
  performance_oracle.authorized state oracle_addr = true ->
  performance_oracle.match_store state !! id = Some m ->
  exists state',
    performance_oracle.record_performance now (Some state) oracle_addr id pl score effort t
      = Ok state' /\
    performance_oracle.get_performance (Some state') id pl =
      Ok (performance_oracle.mkPerformance id pl score effort t now true) /\
    performance_oracle.match_store state' = performance_oracle.match_store state.
Proof.
  intros Ha Hm. unfold performance_oracle.record_performance. simpl.
  rewrite Ha. simpl. rewrite Hm.
  rewrite bool_decide_eq_true_2 by eauto. simpl.
  eexists. split; [reflexivity|]. split; [|reflexivity].
  unfold performance_oracle.get_performance. simpl.
  rewrite lookup_insert_eq. reflexivity.
Qed.

Lemma record_cricket_performance_any_status now state oracle_addr id m pl r f w o c md :
  performance_oracle.authorized state oracle_addr = true ->
  performance_oracle.match_store state !! id = Some m ->
  exists state',
    performance_oracle.record_cricket_performance now (Some state) oracle_addr id
      pl r f w o c md = Ok state' /\
    performance_oracle.cricket_performance_store state' !! (id ++ Move.bcs_to_bytes pl) =
      Some (performance_oracle.mkCricketPerformance id pl r f w o c md now).
Proof.
  intros Ha Hm. unfold performance_oracle.record_cricket_performance. simpl.
  rewrite Ha. simpl. rewrite Hm.
  rewrite bool_decide_eq_true_2 by eauto. simpl.
  eexists. split; [reflexivity|]. simpl.
  rewrite lookup_insert_eq. reflexivity.
Qed.

(** C4, the failing input.  After match "M1" is registered and finalized on
    the Move oracle, [record_performance] and [record_cricket_performance]
    for that match still succeed and change the stores: the performance of
    player 7, absent before, is stored afterwards. *)
Theorem record_after_finalize_succeeds :
  exists s1 s2 s3 s4 m,
    performance_oracle.register_match 10 oracle_initial Move.spp_protocol [77; 49] 0 = Ok s1 /\
    performance_oracle.finalize_match 20 (Some s1) Move.spp_protocol [77; 49] 1 [1; 2; 3]
      = Ok s2 /\
    performance_oracle.get_match (Some s2) [77; 49] = Ok m /\
    performance_oracle.status m = performance_oracle.STATUS_FINALIZED /\
    performance_oracle.get_performance (Some s2) [77; 49] 7
      = Err (Move.Abort performance_oracle.E_MATCH_NOT_FOUND) /\
    performance_oracle.record_performance 30 (Some s2) Move.spp_protocol [77; 49] 7 80 75 0
      = Ok s3 /\
    performance_oracle.get_performance (Some s3) [77; 49] 7
      = Ok (performance_oracle.mkPerformance [77; 49] 7 80 75 0 30 true) /\
    performance_oracle.record_cricket_performance 40 (Some s3) Move.spp_protocol [77; 49]
      7 100 60 0 0 0 0 = Ok s4 /\
    performance_oracle.cricket_performance_store s4 !! ([77; 49] ++ Move.bcs_to_bytes 7)
      = Some (performance_oracle.mkCricketPerformance [77; 49] 7 100 60 0 0 0 0 40) /\
    performance_oracle.finalize_match 50 (Some s4) Move.spp_protocol [77; 49] 1 [1; 2; 3]
      = Err (Move.Abort performance_oracle.E_MATCH_ALREADY_FINALIZED).
Proof.
  eexists _, _, _, _, _. split.
  { vm_compute; reflexivity. }
  split.
  { vm_compute; reflexivity. }
  split.
  { vm_compute; reflexivity. }
  split.
  { vm_compute; reflexivity. }
  split.
  { vm_compute; reflexivity. }
  split.
  { vm_compute; reflexivity. }
  split.
  { vm_compute; reflexivity. }
  split.
  { vm_compute; reflexivity. }
  split.
  { vm_compute; reflexivity. }
  vm_compute; reflexivity.
Qed.

(** ** Tier of a cricket performance (C5) *)

Lemma aptos_tier_by_rules params :
  AptosAdapter.determineCricketTier params =
    cricket_tier_rules (runs params) (wickets params) (maidenOvers params).
Proof.
  unfold AptosAdapter.determineCricketTier, cricket_tier_rules.
  rewrite !Z.geb_leb. reflexivity.
Qed.

Lemma opbnb_tier_by_rules params :
  OpBNBAdapter.determineCricketTier params =
    cricket_tier_rules (runs params) (wickets params) (maidenOvers params).
Proof.
  unfold OpBNBAdapter.determineCricketTier, cricket_tier_rules.
  rewrite !Z.geb_leb. reflexivity.
Qed.

(** The Arbitrum adapter lets the last matching test win. *)
Lemma arbitrum_tier_last_match params :
  ArbitrumAdapter.recordCricketPerformance_tier params =
    if (3 <=? maidenOvers params)%Z then MAIDEN_MASTER
    else if (5 <=? wickets params)%Z then FIVE_WICKET_HAUL
    else if (3 <=? wickets params)%Z then HAT_TRICK
    else if (100 <=? runs params)%Z then GAYLE_STORM
    else if (50 <=? runs params)%Z then NIFTY_FIFTY
    else ALL_ROUNDER.
Proof.
  unfold ArbitrumAdapter.recordCricketPerformance_tier.
  rewrite !Z.geb_leb.
  destruct (3 <=? maidenOvers params)%Z; [reflexivity|].
  destruct (5 <=? wickets params)%Z eqn:H5; [reflexivity|].
  destruct (3 <=? wickets params)%Z; [reflexivity|].
  destruct (100 <=? runs params)%Z; [reflexivity|].
  destruct (50 <=? runs params)%Z; reflexivity.
Qed.

(** The Arbitrum adapter follows the rules exactly on the inputs where at
    most the batting tests apply. *)
Lemma arbitrum_tier_by_rules_batting_only params :
  (wickets params < 3)%Z -> (maidenOvers params < 3)%Z ->
  ArbitrumAdapter.recordCricketPerformance_tier params =
    cricket_tier_rules (runs params) (wickets params) (maidenOvers params).
Proof.
  intros Hw Hm. rewrite arbitrum_tier_last_match. unfold cricket_tier_rules.
  destruct (Z.leb_spec 3 (maidenOvers params)); [lia|].
  destruct (Z.leb_spec 5 (wickets params)); [lia|].
  destruct (Z.leb_spec 3 (wickets params)); [lia|].
  reflexivity.
Qed.

(** C5, the failing input.  For 100 runs and 5 wickets the rules give
    GAYLE_STORM, and so do the Aptos and opBNB adapters, while the Arbitrum
    adapter gives FIVE_WICKET_HAUL. *)
Theorem arbitrum_tier_differs :
  cricket_tier_rules 100 5 0 = GAYLE_STORM /\
  AptosAdapter.determineCricketTier century_and_five = GAYLE_STORM /\
  OpBNBAdapter.determineCricketTier century_and_five = GAYLE_STORM /\
  ArbitrumAdapter.recordCricketPerformance_tier century_and_five = FIVE_WICKET_HAUL.
Proof. repeat split; reflexivity. Qed.

(** ** Chain registry: routing around unhealthy chains (C7, C8) *)

Lemma map_get_In m k e : Registry.map_get m k = Some e -> In (k, e) m.
Proof.
  induction m as [|[k' e'] m IH]; simpl; [discriminate|].
  destruct (decide (k' = k)) as [->|Hne].
  - intros [= ->]. left. reflexivity.
  - intros H. right. apply IH. exact H.
Qed.

Lemma map_get_set_eq m k e : Registry.map_get (Registry.map_set m k e) k = Some e.
Proof.
  induction m as [|[k' e'] m IH]; simpl.
  - rewrite decide_True by reflexivity. reflexivity.
  - destruct (decide (k' = k)) as [->|Hne]; simpl.
    + rewrite decide_True by reflexivity. reflexivity.
    + rewrite decide_False by exact Hne. exact IH.
Qed.

Lemma first_healthy_Some m e :
  Registry.first_healthy m = Some e ->
  Registry.isHealthy (Registry.status e) = true /\ exists k, In (k, e) m.
Proof.
  induction m as [|[k' e'] m IH]; simpl; [discriminate|].
  destruct (Registry.isHealthy (Registry.status e')) eqn:Hh.
  - intros [= <-]. split; [exact Hh|]. exists k'. left. reflexivity.
  - intros H. destruct (IH H) as (Hhe & k & Hin). split; [exact Hhe|].
    exists k. right. exact Hin.
Qed.

Lemma first_healthy_None m :
  (forall k e, In (k, e) m -> Registry.isHealthy (Registry.status e) = false) ->
  Registry.first_healthy m = None.
Proof.
  induction m as [|[k' e'] m IH]; simpl; [reflexivity|].
  intros Hall. rewrite (Hall k' e') by (left; reflexivity).
  apply IH. intros k e Hin. apply (Hall k e). right. exact Hin.
Qed.

Lemma first_healthy_exists m k e :
  In (k, e) m -> Registry.isHealthy (Registry.status e) = true ->
  exists e', Registry.first_healthy m = Some e'.
Proof.
  induction m as [|[k' e'] m IH]; simpl; [intros []|].
  intros [[= -> ->]|Hin] Hh.
  - rewrite Hh. eauto.
  - destruct (Registry.isHealthy (Registry.status e')); [eauto|].
    apply IH; assumption.
Qed.

Lemma healthy_primary_Some s e :
  Registry.healthy_primary s = Some e ->
  Registry.isHealthy (Registry.status e) = true /\ exists k, In (k, e) (Registry.chains s).
Proof.
  unfold Registry.healthy_primary.
  destruct (Registry.primaryChain (Registry.config s)) as [p|]; [|discriminate].
  destruct (Registry.map_get (Registry.chains s) p) as [primary|] eqn:Hg; [|discriminate].
  destruct (Registry.isHealthy (Registry.status primary)) eqn:Hh; [|discriminate].
  intros [= <-]. split; [exact Hh|]. exists p. apply map_get_In. exact Hg.
Qed.

Lemma healthy_primary_None s :
  (forall k e, In (k, e) (Registry.chains s) ->
     Registry.isHealthy (Registry.status e) = false) ->
  Registry.healthy_primary s = None.
Proof.
  intros Hall. unfold Registry.healthy_primary.
  destruct (Registry.primaryChain (Registry.config s)) as [p|]; [|reflexivity].
  destruct (Registry.map_get (Registry.chains s) p) as [primary|] eqn:Hg; [|reflexivity].
  rewrite (Hall p primary) by (apply map_get_In; exact Hg). reflexivity.
Qed.

(** What [getHealthyAdapter] returns is the adapter of a healthy registered
    chain; it returns one when there is one, and fails when there is none. *)
Lemma getHealthyAdapter_Ok s a :
  Registry.getHealthyAdapter s = Ok a ->
  exists k e, In (k, e) (Registry.chains s) /\
    Registry.isHealthy (Registry.status e) = true /\ Registry.adapter e = a.
Proof.
  unfold Registry.getHealthyAdapter.
  destruct (Registry.healthy_primary s) as [primary|] eqn:Hp.
  - intros [= <-]. destruct (healthy_primary_Some s primary Hp) as (Hh & k & Hin).
    exists k, primary. repeat split; assumption.
  - destruct (Registry.first_healthy (Registry.chains s)) as [entry|] eqn:Hf; [|discriminate].
    intros [= <-]. destruct (first_healthy_Some _ entry Hf) as (Hh & k & Hin).
    exists k, entry. repeat split; assumption.
Qed.

Lemma getHealthyAdapter_some_healthy s k e :
  In (k, e) (Registry.chains s) -> Registry.isHealthy (Registry.status e) = true ->
  exists a, Registry.getHealthyAdapter s = Ok a.
Proof.
  intros Hin Hh. unfold Registry.getHealthyAdapter.
  destruct (Registry.healthy_primary s) as [primary|]; [eauto|].
  destruct (first_healthy_exists _ k e Hin Hh) as (e' & ->). eauto.
Qed.

Lemma getHealthyAdapter_none_healthy s :
  (forall k e, In (k, e) (Registry.chains s) ->
     Registry.isHealthy (Registry.status e) = false) ->
  Registry.getHealthyAdapter s = Err "No healthy chains available"%string.
Proof.
  intros Hall. unfold Registry.getHealthyAdapter.
  rewrite healthy_primary_None by exact Hall.
  rewrite first_healthy_None by exact Hall. reflexivity.
Qed.

(** C7, as amended.  For a registered chain whose status is unhealthy: with
    failover enabled, [getAdapter] answers as [getHealthyAdapter] does, that
    is with the adapter of a healthy registered chain when there is one and
    with the error "No healthy chains available" when there is none; with
    failover disabled it returns the unhealthy chain's own adapter and raises
    nothing. *)
Theorem getAdapter_of_unhealthy_chain
    (s : Registry.State) (c : Registry.ChainType) (entry : Registry.ChainEntry) :
  Registry.map_get (Registry.chains s) c = Some entry ->
  Registry.isHealthy (Registry.status entry) = false ->
  (Registry.failover_enabled s = true ->
     Registry.getAdapter s c = Registry.getHealthyAdapter s /\
     (forall a, Registry.getAdapter s c = Ok a ->
        exists k e, In (k, e) (Registry.chains s) /\
          Registry.isHealthy (Registry.status e) = true /\ Registry.adapter e = a) /\
     ((exists k e, In (k, e) (Registry.chains s) /\
         Registry.isHealthy (Registry.status e) = true) ->
        exists a, Registry.getAdapter s c = Ok a) /\
     ((forall k e, In (k, e) (Registry.chains s) ->
         Registry.isHealthy (Registry.status e) = false) ->
        Registry.getAdapter s c = Err "No healthy chains available"%string)) /\
  (Registry.failover_enabled s = false ->
     Registry.getAdapter s c = Ok (Registry.adapter entry)).
Proof.
  intros Hg Hh. unfold Registry.getAdapter. rewrite Hg, Hh. simpl. split.
  - intros ->. split; [reflexivity|]. split; [|split].
    + exact (getHealthyAdapter_Ok s).
    + intros (k & e & Hin & Hhe). exact (getHealthyAdapter_some_healthy s k e Hin Hhe).
    + exact (getHealthyAdapter_none_healthy s).
  - intros ->. reflexivity.
Qed.

(** Arbitrum down with BNB healthy and failover on; BNB down alone with
    failover off. *)
Lemma getAdapter_of_unhealthy_chain_witness :
  Registry.getAdapter registry_ab_down Registry.ARBITRUM
    = Ok (Registry.mkAdapter Registry.BNB 1) /\
  Registry.getAdapter registry_b_down_no_failover Registry.BNB
    = Ok (Registry.mkAdapter Registry.BNB 0).
Proof.
  split.
  - destruct (getAdapter_of_unhealthy_chain registry_ab_down Registry.ARBITRUM
                (Registry.mkChainEntry (Registry.mkAdapter Registry.ARBITRUM 0)
                   (Registry.mkChainStatus Registry.ARBITRUM false 30 3 (Some "timeout"%string))))
      as [Hon _]; [reflexivity | reflexivity |].
    destruct (Hon eq_refl) as (-> & _). reflexivity.
  - destruct (getAdapter_of_unhealthy_chain registry_b_down_no_failover Registry.BNB
                (Registry.mkChainEntry (Registry.mkAdapter Registry.BNB 0)
                   (Registry.mkChainStatus Registry.BNB false 30 3 None)))
      as [_ Hoff]; [reflexivity | reflexivity |].
    exact (Hoff eq_refl).
Defined.

(** C7 as stated fails.  With failover disabled, [getAdapter] on the
    unhealthy chain returns that chain's adapter instead of failing; with
    failover enabled and no healthy chain registered, there is nothing to
    substitute and [getAdapter] fails with "No healthy chains available". *)
Lemma getAdapter_counterexample :
  (Registry.isChainHealthy registry_b_down_no_failover Registry.BNB = false /\
   Registry.failover_enabled registry_b_down_no_failover = false /\
   Registry.getAdapter registry_b_down_no_failover Registry.BNB
     = Ok (Registry.mkAdapter Registry.BNB 0)) /\
  (Registry.isChainHealthy registry_b_down Registry.BNB = false /\
   Registry.failover_enabled registry_b_down = true /\
   Registry.getAdapter registry_b_down Registry.BNB
     = Err "No healthy chains available"%string).
Proof. repeat split; reflexivity. Qed.

Lemma map_set_set m k e e' :
  Registry.map_set (Registry.map_set m k e) k e' = Registry.map_set m k e'.
Proof.
  induction m as [|[k' e0] m IH]; simpl.
  - rewrite decide_True by reflexivity. reflexivity.
  - destruct (decide (k' = k)) as [->|Hne]; simpl.
    + rewrite decide_True by reflexivity. reflexivity.
    + rewrite decide_False by exact Hne. rewrite IH. reflexivity.
Qed.

(** A failed probe of a registered chain: only that chain's entry changes,
    its status being the failed status. *)
Lemma probed_failed s now p c entry :
  Registry.map_get (Registry.chains s) c = Some entry ->
  probe_failed p = true ->
  exists err events,
    Registry.probed s now p c =
      {| Registry.chains :=
           Registry.map_set (Registry.chains s) c
             (Registry.mkChainEntry (Registry.adapter entry)
                (fail_status (Registry.threshold s) now err (Registry.status entry)));
         Registry.config := Registry.config s;
         Registry.emitted := events;
         Registry.created := Registry.created s |}.
Proof.
  intros Hg Hp. unfold Registry.probed, Registry.checkChainHealth. rewrite Hg.
  destruct p as [[|]|message]; [discriminate| |]; eexists _, _; reflexivity.
Qed.

(** A successful probe resets the counter and marks the chain healthy. *)
Lemma probed_succeeded s now c entry :
  Registry.map_get (Registry.chains s) c = Some entry ->
  Registry.getChainStatus (Registry.probed s now (Registry.Resolves true) c) c =
    Ok {| Registry.chainType := Registry.chainType (Registry.status entry);
          Registry.isHealthy := true;
          Registry.lastHealthCheck := now;
          Registry.failureCount := 0;
          Registry.lastError := None |}.
Proof.
  intros Hg. unfold Registry.probed, Registry.checkChainHealth. rewrite Hg.
  unfold Registry.getChainStatus. simpl. rewrite map_get_set_eq. reflexivity.
Qed.

(** Three failed probes in a row of a chain that had no failure on record. *)
Lemma three_failures s c entry now1 now2 now3 p1 p2 p3 :
  Registry.map_get (Registry.chains s) c = Some entry ->
  Registry.failureCount (Registry.status entry) = 0%Z ->
  Registry.threshold s = 3%Z ->
  probe_failed p1 = true -> probe_failed p2 = true -> probe_failed p3 = true ->
  exists err events,
    Registry.probed (Registry.probed (Registry.probed s now1 p1 c) now2 p2 c) now3 p3 c =
      {| Registry.chains :=
           Registry.map_set (Registry.chains s) c
             (Registry.mkChainEntry (Registry.adapter entry)
                {| Registry.chainType := Registry.chainType (Registry.status entry);
                   Registry.isHealthy := false;
                   Registry.lastHealthCheck := now3;
                   Registry.failureCount := 3;
                   Registry.lastError := err |});
         Registry.config := Registry.config s;
         Registry.emitted := events;
         Registry.created := Registry.created s |}.
Proof.
  intros Hg Hfc Hth H1 H2 H3.
  destruct (probed_failed s now1 p1 c entry Hg H1) as (err1 & ev1 & ->).
  set (s1 := Registry.mkState _ _ ev1 _).
  assert (Hg1 : Registry.map_get (Registry.chains s1) c = Some
            (Registry.mkChainEntry (Registry.adapter entry)
               (fail_status (Registry.threshold s) now1 err1 (Registry.status entry))))
    by apply map_get_set_eq.
  destruct (probed_failed s1 now2 p2 c _ Hg1 H2) as (err2 & ev2 & ->).
  set (s2 := Registry.mkState _ _ ev2 _).
  assert (Hg2 : Registry.map_get (Registry.chains s2) c = Some
            (Registry.mkChainEntry (Registry.adapter entry)
               (fail_status (Registry.threshold s1) now2 err2
                  (fail_status (Registry.threshold s) now1 err1 (Registry.status entry)))))
    by apply map_get_set_eq.
  destruct (probed_failed s2 now3 p3 c _ Hg2 H3) as (err3 & ev3 & ->).
  exists err3, ev3. unfold s2, s1. simpl. rewrite !map_set_set.
  unfold Registry.threshold in *. simpl. unfold fail_status. simpl.
  rewrite Hth, Hfc. reflexivity.
Qed.

(** C8, as amended.  Let the registry hold exactly the chains A and B, A
    being the configured primary with no failure on record and B healthy,
    with failure threshold 3.  After three consecutive failed probes of A, A
    is unhealthy with failure count 3 and [getHealthyAdapter] returns the
    adapter of B; a successful probe of A then resets A's failure count to 0
    and, in the same step, sets A's health flag back to healthy. *)
Theorem failover_and_recovery
    (s : Registry.State) (a b : Registry.ChainType) (ea eb : Registry.ChainEntry)
    (now1 now2 now3 now4 : Z) (p1 p2 p3 : Registry.Probe) :
  a <> b ->
  Registry.chains s = [(a, ea); (b, eb)] \/ Registry.chains s = [(b, eb); (a, ea)] ->
  Registry.primaryChain (Registry.config s) = Some a ->
  Registry.threshold s = 3%Z ->
  Registry.failureCount (Registry.status ea) = 0%Z ->
  Registry.isHealthy (Registry.status eb) = true ->
  probe_failed p1 = true -> probe_failed p2 = true -> probe_failed p3 = true ->
  let s3 :=
    Registry.probed (Registry.probed (Registry.probed s now1 p1 a) now2 p2 a) now3 p3 a in
  let s4 := Registry.probed s3 now4 (Registry.Resolves true) a in
  (exists st, Registry.getChainStatus s3 a = Ok st /\
     Registry.isHealthy st = false /\ Registry.failureCount st = 3%Z) /\
  Registry.getHealthyAdapter s3 = Ok (Registry.adapter eb) /\
  (exists st, Registry.getChainStatus s4 a = Ok st /\
     Registry.failureCount st = 0%Z /\ Registry.isHealthy st = true).
Proof.
  intros Hab Hchains Hprim Hth Hfc Hhb H1 H2 H3 s3 s4.
  assert (Hg : Registry.map_get (Registry.chains s) a = Some ea).
  { destruct Hchains as [-> | ->]; simpl.
    - rewrite decide_True by reflexivity. reflexivity.
    - rewrite decide_False by congruence. rewrite decide_True by reflexivity. reflexivity. }
  destruct (three_failures s a ea now1 now2 now3 p1 p2 p3 Hg Hfc Hth H1 H2 H3)
    as (err & events & Hs3).
  assert (Hg3 : Registry.map_get (Registry.chains s3) a = Some
            (Registry.mkChainEntry (Registry.adapter ea)
               (Registry.mkChainStatus (Registry.chainType (Registry.status ea))
                  false now3 3 err))).
  { unfold s3. rewrite Hs3. simpl. apply map_get_set_eq. }
  split; [|split].
  - eexists. unfold Registry.getChainStatus. rewrite Hg3.
    split; [reflexivity|]. split; reflexivity.
  - unfold Registry.getHealthyAdapter, Registry.healthy_primary.
    unfold s3 in *. rewrite Hs3 in *. simpl in *. rewrite Hprim, Hg3. simpl.
    destruct Hchains as [-> | ->]; simpl.
    + rewrite decide_True by reflexivity. simpl. rewrite Hhb. reflexivity.
    + rewrite decide_False by congruence. simpl. rewrite Hhb. reflexivity.
  - eexists. unfold s4. rewrite (probed_succeeded s3 now4 a _ Hg3).
    split; [reflexivity|]. split; reflexivity.
Qed.

(** Arbitrum and BNB registered in that order; Arbitrum fails three probes,
    then passes one. *)
Lemma failover_and_recovery_witness :
  Registry.getChainStatus registry_ab_down Registry.ARBITRUM
    = Ok (Registry.mkChainStatus Registry.ARBITRUM false 30 3 (Some "timeout"%string)) /\
  Registry.getHealthyAdapter registry_ab_down = Ok (Registry.mkAdapter Registry.BNB 1) /\
  exists st,
    Registry.getChainStatus
      (Registry.probed registry_ab_down 40 (Registry.Resolves true) Registry.ARBITRUM)
      Registry.ARBITRUM = Ok st /\
    Registry.failureCount st = 0%Z /\ Registry.isHealthy st = true.
Proof.
  assert (Hne : Registry.ARBITRUM <> Registry.BNB) by discriminate.
  destruct (failover_and_recovery registry_ab Registry.ARBITRUM Registry.BNB
              (Registry.mkChainEntry (Registry.mkAdapter Registry.ARBITRUM 0)
                 (Registry.mkChainStatus Registry.ARBITRUM true 0 0 None))
              (Registry.mkChainEntry (Registry.mkAdapter Registry.BNB 1)
                 (Registry.mkChainStatus Registry.BNB true 1 0 None))
              10 20 30 40 (Registry.Resolves false) (Registry.Throws "timeout")
              (Registry.Resolves false) Hne (or_introl eq_refl) eq_refl eq_refl eq_refl
              eq_refl eq_refl eq_refl eq_refl)
    as (_ & Hroute & Hback).
  split; [reflexivity|]. split; [exact Hroute | exact Hback].
Defined.

(** C8 as stated fails on the health flag: after Arbitrum has failed three
    probes and been marked unhealthy, one successful probe leaves its failure
    count at 0 and its health flag healthy, not unhealthy, and
    [getHealthyAdapter] returns Arbitrum again. *)
Lemma recovery_counterexample :
  Registry.isChainHealthy registry_ab_down Registry.ARBITRUM = false /\
  Registry.getChainStatus
    (Registry.probed registry_ab_down 40 (Registry.Resolves true) Registry.ARBITRUM)
    Registry.ARBITRUM
    = Ok (Registry.mkChainStatus Registry.ARBITRUM true 40 0 None) /\
  Registry.getHealthyAdapter
    (Registry.probed registry_ab_down 40 (Registry.Resolves true) Registry.ARBITRUM)
    = Ok (Registry.mkAdapter Registry.ARBITRUM 0).
Proof. repeat split; reflexivity. Qed.

(** ** Canonical Aptos addresses (C10) *)

(** A property of one code unit, decided on each of the 256 of them. *)
Ltac each_char c :=
  destruct c as [[] [] [] [] [] [] [] []];
  try reflexivity;
  let H := fresh in intros H; solve [reflexivity | discriminate H].

Lemma lower_char_idem c :
  AptosAdapter.lower_char (AptosAdapter.lower_char c) = AptosAdapter.lower_char c.
Proof. each_char c. Qed.

Lemma lower_char_hex c :
  AptosAdapter.is_hex c = true ->
  AptosAdapter.is_lower_hex (AptosAdapter.lower_char c) = true.
Proof. each_char c. Qed.

Lemma lower_hex_is_hex c :
  AptosAdapter.is_lower_hex c = true -> AptosAdapter.is_hex c = true.
Proof. each_char c. Qed.

Lemma lower_hex_not_x c :
  AptosAdapter.is_lower_hex c = true -> Ascii.eqb c "x" = false.
Proof. each_char c. Qed.

Lemma hex_not_x c : AptosAdapter.is_hex c = true -> Ascii.eqb c "x" = false.
Proof. each_char c. Qed.

Lemma toLowerCase_idem s :
  AptosAdapter.toLowerCase (AptosAdapter.toLowerCase s) = AptosAdapter.toLowerCase s.
Proof.
  unfold AptosAdapter.toLowerCase. rewrite map_map.
  apply map_ext. intros c. apply lower_char_idem.
Qed.

Lemma toLowerCase_hex s :
  forallb AptosAdapter.is_hex s = true ->
  forallb AptosAdapter.is_lower_hex (AptosAdapter.toLowerCase s) = true.
Proof.
  induction s as [|c s IH]; simpl; [reflexivity|].
  intros H. apply andb_prop in H as [Hc Hs].
  rewrite lower_char_hex by exact Hc. simpl. apply IH. exact Hs.
Qed.

Lemma strip_0x_lower_hex s :
  forallb AptosAdapter.is_lower_hex s = true -> AptosAdapter.strip_0x s = s.
Proof.
  destruct s as [|c1 [|c2 rest]]; simpl; try reflexivity.
  intros H. apply andb_prop in H as [_ H]. apply andb_prop in H as [H2 _].
  rewrite (lower_hex_not_x c2 H2), andb_false_r. reflexivity.
Qed.

Lemma strip_0x_hex s :
  forallb AptosAdapter.is_hex s = true -> AptosAdapter.strip_0x s = s.
Proof.
  destruct s as [|c1 [|c2 rest]]; simpl; try reflexivity.
  intros H. apply andb_prop in H as [_ H]. apply andb_prop in H as [H2 _].
  rewrite (hex_not_x c2 H2), andb_false_r. reflexivity.
Qed.

(** Stripping the prefix commutes with lowering for the strings the
    validation accepts. *)
Lemma strip_0x_toLowerCase s :
  forallb AptosAdapter.is_hex (AptosAdapter.strip_0x s) = true ->
  AptosAdapter.strip_0x (AptosAdapter.toLowerCase s) =
    AptosAdapter.toLowerCase (AptosAdapter.strip_0x s).
Proof.
  destruct s as [|c1 [|c2 rest]]; try reflexivity.
  simpl. destruct (Ascii.eqb c1 "0" && Ascii.eqb c2 "x") eqn:Hp.
  - apply andb_prop in Hp as [H1 H2].
    apply Ascii.eqb_eq in H1 as ->. apply Ascii.eqb_eq in H2 as ->.
    intros _. reflexivity.
  - intros H. change (c1 :: c2 :: rest) with ([c1; c2] ++ rest) in H.
    pose proof (toLowerCase_hex (c1 :: c2 :: rest) H) as Hl.
    apply strip_0x_lower_hex in Hl. exact Hl.
Qed.

Lemma padStart_length (n : nat) (s : list ascii) :
  (length s <= n)%nat -> length (AptosAdapter.padStart n s) = n.
Proof.
  intros H. unfold AptosAdapter.padStart.
  rewrite length_app, repeat_length. lia.
Qed.

Lemma padStart_long (n : nat) (s : list ascii) :
  (n <= length s)%nat -> AptosAdapter.padStart n s = s.
Proof.
  intros H. unfold AptosAdapter.padStart.
  replace (n - length s)%nat with 0%nat by lia. reflexivity.
Qed.

Lemma padStart_at_least (n : nat) (s : list ascii) :
  (n <= length (AptosAdapter.padStart n s))%nat.
Proof.
  unfold AptosAdapter.padStart. rewrite length_app, repeat_length. lia.
Qed.

Lemma padStart_lower_hex (n : nat) (s : list ascii) :
  forallb AptosAdapter.is_lower_hex s = true ->
  forallb AptosAdapter.is_lower_hex (AptosAdapter.padStart n s) = true.
Proof.
  intros H. unfold AptosAdapter.padStart. rewrite forallb_app, H, andb_true_r.
  induction (n - length s)%nat as [|k IH]; simpl; [reflexivity | exact IH].
Qed.

Lemma forallb_lower_hex_is_hex s :
  forallb AptosAdapter.is_lower_hex s = true -> forallb AptosAdapter.is_hex s = true.
Proof.
  induction s as [|c s IH]; simpl; [reflexivity|].
  intros H. apply andb_prop in H as [Hc Hs].
  rewrite (lower_hex_is_hex c Hc). simpl. apply IH. exact Hs.
Qed.

(** A lowered string stays lowered when a prefix is stripped and zeros are
    put in front. *)
Lemma strip_0x_lowered s :
  AptosAdapter.toLowerCase s = s ->
  AptosAdapter.toLowerCase (AptosAdapter.strip_0x s) = AptosAdapter.strip_0x s.
Proof.
  destruct s as [|c1 [|c2 rest]]; try (intros H; exact H).
  simpl. intros H. destruct (Ascii.eqb c1 "0" && Ascii.eqb c2 "x"); [|exact H].
  injection H as _ _ H. exact H.
Qed.

Lemma padStart_lowered (n : nat) (s : list ascii) :
  AptosAdapter.toLowerCase s = s ->
  AptosAdapter.toLowerCase (AptosAdapter.padStart n s) = AptosAdapter.padStart n s.
Proof.
  intros H. unfold AptosAdapter.padStart, AptosAdapter.toLowerCase in *.
  rewrite map_app, H. f_equal.
  induction (n - length s)%nat as [|k IH]; simpl; [reflexivity|].
  rewrite IH. reflexivity.
Qed.

Lemma formatAddress_idem a :
  AptosAdapter.formatAddress (AptosAdapter.formatAddress a) = AptosAdapter.formatAddress a.
Proof.
  unfold AptosAdapter.formatAddress.
  set (body := AptosAdapter.padStart 64 (AptosAdapter.strip_0x (AptosAdapter.toLowerCase a))).
  assert (Hlow : AptosAdapter.toLowerCase body = body).
  { apply padStart_lowered, strip_0x_lowered, toLowerCase_idem. }
  change (AptosAdapter.toLowerCase ("0"%char :: "x"%char :: body))
    with ("0"%char :: "x"%char :: AptosAdapter.toLowerCase body).
  rewrite Hlow.
  change (AptosAdapter.strip_0x ("0"%char :: "x"%char :: body)) with body.
  rewrite padStart_long by apply padStart_at_least. reflexivity.
Qed.

Lemma formatAddress_valid a :
  AptosAdapter.validateAddress a = true ->
  exists body,
    AptosAdapter.formatAddress a = "0"%char :: "x"%char :: body /\
    length body = 64%nat /\
    forallb AptosAdapter.is_lower_hex body = true /\
    AptosAdapter.validateAddress (AptosAdapter.formatAddress a) = true.
Proof.
  unfold AptosAdapter.validateAddress. intros H.
  apply andb_prop in H as [H Hmax]. apply andb_prop in H as [Hhex Hmin].
  apply Nat.leb_le in Hmax.
  unfold AptosAdapter.formatAddress.
  rewrite strip_0x_toLowerCase by exact Hhex.
  set (clean := AptosAdapter.toLowerCase (AptosAdapter.strip_0x a)).
  assert (Hlen : length clean = length (AptosAdapter.strip_0x a))
    by apply length_map.
  assert (Hlow : forallb AptosAdapter.is_lower_hex clean = true)
    by (apply toLowerCase_hex; exact Hhex).
  exists (AptosAdapter.padStart 64 clean).
  assert (H64 : length (AptosAdapter.padStart 64 clean) = 64%nat)
    by (apply padStart_length; lia).
  assert (Hbody : forallb AptosAdapter.is_lower_hex (AptosAdapter.padStart 64 clean) = true)
    by (apply padStart_lower_hex; exact Hlow).
  split; [reflexivity|]. split; [exact H64|]. split; [exact Hbody|].
  change (AptosAdapter.strip_0x ("0"%char :: "x"%char :: AptosAdapter.padStart 64 clean))
    with (AptosAdapter.padStart 64 clean).
  rewrite (forallb_lower_hex_is_hex _ Hbody), H64. reflexivity.
Qed.

(** C10.  For every string that [validateAddress] accepts, [formatAddress]
    returns "0x" followed by 64 lower-case hexadecimal characters, a string
    that [validateAddress] accepts as well; and [formatAddress] is
    idempotent on every string (of code units below 256, the strings of the
    model). *)
Theorem formatAddress_canonical :
  (forall a, AptosAdapter.validateAddress a = true ->
     exists body,
       AptosAdapter.formatAddress a = "0"%char :: "x"%char :: body /\
       length body = 64%nat /\
       forallb AptosAdapter.is_lower_hex body = true /\
       AptosAdapter.validateAddress (AptosAdapter.formatAddress a) = true) /\
  (forall a,
     AptosAdapter.formatAddress (AptosAdapter.formatAddress a)
       = AptosAdapter.formatAddress a).
Proof. split; [exact formatAddress_valid | exact formatAddress_idem]. Qed.

(** The short mixed-case address 0xAbC1. *)
Lemma formatAddress_canonical_witness :
  AptosAdapter.validateAddress (list_ascii_of_string "0xAbC1") = true /\
  AptosAdapter.formatAddress (list_ascii_of_string "0xAbC1") =
    list_ascii_of_string
      "0x000000000000000000000000000000000000000000000000000000000000abc1" /\
  AptosAdapter.validateAddress
    (AptosAdapter.formatAddress (list_ascii_of_string "0xAbC1")) = true.
Proof.
  assert (Hv : AptosAdapter.validateAddress (list_ascii_of_string "0xAbC1") = true)
    by reflexivity.
  destruct (proj1 formatAddress_canonical (list_ascii_of_string "0xAbC1") Hv)
    as (body & _ & _ & _ & Hvalid).
  split; [exact Hv|]. split; [reflexivity | exact Hvalid].
Defined.

(** * Further properties of the modelled code *)

(** ** Byte encodings and storage keys *)

Lemma be_bytes_length (n : nat) (x : N) : length (be_bytes n x) = n.
Proof.
  revert x. induction n as [|k IH]; intros x; simpl; [reflexivity|].
  rewrite length_app, IH. simpl. lia.
Qed.

Lemma be_bytes_inj (n : nat) (x y : N) :
  x < 256 ^ N.of_nat n -> y < 256 ^ N.of_nat n ->
  be_bytes n x = be_bytes n y -> x = y.
Proof.
  revert x y. induction n as [|k IH]; intros x y Hx Hy H.
  - simpl in Hx, Hy. lia.
  - simpl in H. apply app_inj_tail in H as [Hhigh Hlow].
    rewrite Nat2N.inj_succ, N.pow_succ_r' in Hx, Hy.
    assert (Hq : x / 256 = y / 256).
    { apply IH; [| |exact Hhigh]; apply N.Div0.div_lt_upper_bound; lia. }
    rewrite (N.div_mod x 256), (N.div_mod y 256) by lia.
    rewrite Hq, Hlow. reflexivity.
Qed.

(** The table key of a (match, account) pair determines the pair, for
    account addresses of 32 bytes. *)
Lemma table_key_inj (id id' : list N) (addr addr' : N) :
  addr < 2 ^ 256 -> addr' < 2 ^ 256 ->
  id ++ Move.bcs_to_bytes addr = id' ++ Move.bcs_to_bytes addr' ->
  id = id' /\ addr = addr'.
Proof.
  intros Ha Ha' H. unfold Move.bcs_to_bytes in H.
  apply app_inj_2 in H as [Hid Hb]; [|rewrite !be_bytes_length; reflexivity].
  split; [exact Hid|].
  apply (be_bytes_inj 32); [exact Ha | exact Ha' | exact Hb].
Qed.

(** ** The Move engine: one key does not disturb another *)

(** X1.  A successful [burn_for_performance] for one (match, player) pair
    leaves the burn record, or the absence of one, of every other pair as it
    was, so it never makes a burn for another pair a duplicate; player
    addresses are 32-byte values. *)
Theorem move_burn_leaves_other_keys
    env tiers state pl id t ps e st' (id' : list N) (pl' : N) :
  deflatinary_burn.burn_for_performance env tiers (Some state) pl id t ps e = Ok st' ->
  pl < 2 ^ 256 -> pl' < 2 ^ 256 ->
  (id', pl') <> (id, pl) ->
  deflatinary_burn.get_burn_record (Some st') id' pl'
    = deflatinary_burn.get_burn_record (Some state) id' pl' /\
  deflatinary_burn.burn_records st' !! (id' ++ Move.bcs_to_bytes pl')
    = deflatinary_burn.burn_records state !! (id' ++ Move.bcs_to_bytes pl').
Proof.
  intros Hburn Hp Hp' Hne.
  apply move_burn_inv in Hburn as (state0 & r & [= <-] & _ & _ & _ & _ & _ & _ & _ & ->).
  assert (Hl : forall (m : gmap (list N) deflatinary_burn.BurnRecord) v,
             <[id ++ Move.bcs_to_bytes pl := v]> m !! (id' ++ Move.bcs_to_bytes pl')
             = m !! (id' ++ Move.bcs_to_bytes pl')).
  { intros m v. apply lookup_insert_ne. intros E.
    apply table_key_inj in E as [-> ->]; [|assumption|assumption].
    apply Hne. reflexivity. }
  unfold deflatinary_burn.get_burn_record. simpl. rewrite Hl.
  split; reflexivity.
Qed.

(** Player 7 burns for match "M1"; player 8 of the same match is untouched. *)
Lemma move_burn_leaves_other_keys_witness :
  deflatinary_burn.get_burn_record (Some (engine_after move_first)) [77; 49] 8
    = Err (Move.Abort deflatinary_burn.E_MATCH_NOT_FOUND) /\
  deflatinary_burn.burn_records (engine_after move_first) !! ([77; 49] ++ Move.bcs_to_bytes 8)
    = None.
Proof.
  assert (H : deflatinary_burn.burn_for_performance generous (Some (tiers_of move_default))
                (Some (deflatinary_burn.mkBurnEngineState Move.spp_protocol ∅ 0 0 ∅ ∅))
                7 [77; 49] 0 80 75 = Ok (engine_after move_first))
    by (vm_compute; reflexivity).
  assert (H7 : 7 < 2 ^ 256) by (vm_compute; reflexivity).
  assert (H8 : 8 < 2 ^ 256) by (vm_compute; reflexivity).
  assert (Hne : ([77; 49], 8) <> ([77; 49], 7)) by discriminate.
  destruct (move_burn_leaves_other_keys _ _ _ _ _ _ _ _ _ [77; 49] 8 H H7 H8 Hne)
    as [Hget Hrec].
  split.
  - rewrite Hget. reflexivity.
  - rewrite Hrec. reflexivity.
Defined.

(** ** The Solidity engine: books, tier table, access *)

Lemma sum_transactions_empty (f : Sol.BurnTransaction -> N) : sum_transactions f ∅ = 0.
Proof. unfold sum_transactions. apply map_fold_empty. Qed.

Lemma sum_transactions_fresh (f : Sol.BurnTransaction -> N)
    (m : gmap N Sol.BurnTransaction) (k : N) (t : Sol.BurnTransaction) :
  m !! k = None -> sum_transactions f (<[k := t]> m) = f t + sum_transactions f m.
Proof.
  intros Hn. unfold sum_transactions.
  apply (map_fold_insert_L (fun _ t acc => f t + acc)); [|exact Hn].
  intros; lia.
Qed.

Lemma sol_books_balance_constructor env tok orc s :
  Sol.constructor env tok orc = Ok s -> sol_books_balance s.
Proof.
  unfold Sol.constructor.
  destruct (tok =? 0); [discriminate|]. destruct (orc =? 0); [discriminate|].
  intros [= <-]. unfold sol_books_balance. simpl.
  rewrite !sum_transactions_empty, sum_tally_empty.
  split; [|repeat split; reflexivity].
  intros k t Hl. rewrite lookup_empty in Hl. discriminate.
Qed.

Lemma sol_books_balance_run keccak256 env s c :
  sol_books_balance s -> sol_books_balance (commit s (Sol.run keccak256 env s c)).
Proof.
  intros Hinv. destruct c as [o | t m b | m p t e]; simpl.
  - unfold Sol.setOracleContract.
    destruct (negb _); [exact Hinv|]. destruct (o =? 0); exact Hinv.
  - unfold Sol.updateTier.
    destruct (negb _); [exact Hinv|]. destruct (_ <? t); exact Hinv.
  - destruct (Sol.burnForPerformance keccak256 env s m p t e) as [[[b r] s']|] eqn:Hb;
      [|exact Hinv].
    simpl. destruct Hinv as (Hrec & Hb1 & Hb2 & Hr1 & Hr2).
    apply sol_burn_inv in Hb
      as (_ & Hfree & _ & -> & Htb & Htr & Hpr & Hpb & Htx & _).
    assert (Hnone : Sol.burnTransactions s !! Sol._computeTxId keccak256 m p = None).
    { destruct (Sol.burnTransactions s !! Sol._computeTxId keccak256 m p) as [old|] eqn:Hl;
        [|reflexivity].
      destruct (Hrec _ _ Hl) as [Hex _].
      unfold Sol.executed in Hfree. rewrite Hl in Hfree. congruence. }
    unfold sol_books_balance. rewrite Htb, Htr, Hpr, Hpb, Htx.
    rewrite !sum_transactions_fresh by exact Hnone.
    rewrite !sum_tally_bump. simpl.
    split; [|repeat split; lia].
    intros k t0 Hl. destruct (decide (Sol._computeTxId keccak256 m p = k)) as [<-|Hne].
    + rewrite lookup_insert_eq in Hl. injection Hl as <-. split; reflexivity.
    + rewrite lookup_insert_ne in Hl by exact Hne. eapply Hrec; exact Hl.
Qed.

(** X2.  In every state the Solidity engine reaches from its constructor,
    whatever transactions are sent to it, each stored burn transaction is
    marked executed with burnAmount = rewardAmount / 10, totalBurned() is the
    sum of the stored burn amounts and of the players' burned tallies, and
    totalRewards() is the sum of the stored reward amounts and of the
    players' reward tallies. *)
Theorem sol_totals_match_records keccak256 env tok orc s0 txs :
  Sol.constructor env tok orc = Ok s0 ->
  let s := Sol.run_all keccak256 s0 txs in
  (forall k t, Sol.burnTransactions s !! k = Some t ->
     Sol.bt_executed t = true /\ Sol.bt_burnAmount t = Sol.bt_rewardAmount t / 10) /\
  Sol.totalBurned s = sum_transactions Sol.bt_burnAmount (Sol.burnTransactions s) /\
  Sol.totalBurned s = deflatinary_burn.sum_tally (Sol.playerTotalBurned s) /\
  Sol.totalRewards s = sum_transactions Sol.bt_rewardAmount (Sol.burnTransactions s) /\
  Sol.totalRewards s = deflatinary_burn.sum_tally (Sol.playerTotalRewards s).
Proof.
  intros Hc. apply sol_books_balance_constructor in Hc.
  revert s0 Hc. induction txs as [|[env' c] txs IH]; intros s0 Hinv; [exact Hinv|].
  simpl. apply IH. apply sol_books_balance_run. exact Hinv.
Qed.

(** Two burns, a rejected duplicate and a tier update after deployment. *)
Lemma sol_totals_match_records_witness :
  let s := Sol.run_all toy_hash (state_of sol_default)
             [(deployer, Sol.CallBurnForPerformance 1 7 0 85);
              (deployer, Sol.CallBurnForPerformance 1 7 0 85);
              (deployer, Sol.CallUpdateTier 0 20 7);
              (deployer, Sol.CallBurnForPerformance 2 7 0 50)] in
  Sol.totalBurned s = 6375000000000000000 /\
  Sol.totalRewards s = 63750000000000000006 /\
  Sol.totalBurned s = deflatinary_burn.sum_tally (Sol.playerTotalBurned s) /\
  Sol.totalRewards s = sum_transactions Sol.bt_rewardAmount (Sol.burnTransactions s).
Proof.
  intros s.
  destruct (sol_totals_match_records toy_hash deployer 2 3 (state_of sol_default)
              [(deployer, Sol.CallBurnForPerformance 1 7 0 85);
               (deployer, Sol.CallBurnForPerformance 1 7 0 85);
               (deployer, Sol.CallUpdateTier 0 20 7);
               (deployer, Sol.CallBurnForPerformance 2 7 0 50)] eq_refl)
    as (_ & _ & Hb & Hr & _).
  split.
  { vm_compute. reflexivity. }
  split.
  { vm_compute. reflexivity. }
  split; [exact Hb | exact Hr].
Defined.

(** X3.  When the owner updates a tier in [0,7] of the Solidity engine,
    getRewardTier reads back the new multiplier and base reward for that
    tier, the next reward computation for the tier uses them, every other
    tier reads and computes as before, and the burn bookkeeping is not
    touched. *)
Theorem sol_updateTier_takes_effect env s t m b :
  Sol.msg_sender env = Sol.owner s -> t <= 7 ->
  exists s',
    Sol.updateTier env s t m b = Ok s' /\
    Sol.getRewardTier s' t = Ok (m, b) /\
    (forall e, e <= 100 -> b * e <= Sol.MAX_UINT256 ->
       b * e / 100 * m <= Sol.MAX_UINT256 ->
       Sol.calculateReward s' t e = Ok (b * e / 100 * m / 10)) /\
    (forall t' e, t' <> t ->
       Sol.getRewardTier s' t' = Sol.getRewardTier s t' /\
       Sol.calculateReward s' t' e = Sol.calculateReward s t' e) /\
    Sol.burnTransactions s' = Sol.burnTransactions s /\
    Sol.totalBurned s' = Sol.totalBurned s /\
    Sol.totalRewards s' = Sol.totalRewards s /\
    (forall p, Sol.getPlayerRewards s' p = Sol.getPlayerRewards s p /\
               Sol.getPlayerBurned s' p = Sol.getPlayerBurned s p).
Proof.
  intros Hown Ht. unfold Sol.updateTier, Sol.onlyOwner. rewrite Hown, N.eqb_refl. simpl.
  unfold Sol.TIER_ALL_ROUNDER. destruct (N.ltb_spec 7 t); [lia|].
  eexists. split; [reflexivity|].
  set (s' := Sol.mkState _ _ _ _ _ _ _ _ _ _).
  assert (Hb : get (Sol.baseRewards s') t = b)
    by (unfold get, s'; simpl; rewrite lookup_insert_eq; reflexivity).
  assert (Hm : get (Sol.burnMultipliers s') t = m)
    by (unfold get, s'; simpl; rewrite lookup_insert_eq; reflexivity).
  split; [|split; [|split]].
  - unfold Sol.getRewardTier, Sol.TIER_ALL_ROUNDER.
    destruct (N.ltb_spec 7 t); [lia|]. rewrite Hb, Hm. reflexivity.
  - intros e He H1 H2.
    rewrite sol_calculateReward_ok; rewrite ?Hb, ?Hm; try assumption. reflexivity.
  - intros t' e Hne.
    assert (Hb' : get (Sol.baseRewards s') t' = get (Sol.baseRewards s) t')
      by (unfold get, s'; simpl; rewrite lookup_insert_ne by congruence; reflexivity).
    assert (Hm' : get (Sol.burnMultipliers s') t' = get (Sol.burnMultipliers s) t')
      by (unfold get, s'; simpl; rewrite lookup_insert_ne by congruence; reflexivity).
    unfold Sol.getRewardTier, Sol.calculateReward. rewrite Hb', Hm'. split; reflexivity.
  - repeat split; reflexivity.
Qed.

(** The deployer sets tier 0 to multiplier 2.0 and base reward 7. *)
Lemma sol_updateTier_takes_effect_witness :
  exists s',
    Sol.updateTier deployer (state_of sol_default) 0 20 7 = Ok s' /\
    Sol.getRewardTier s' 0 = Ok (20, 7) /\
    Sol.calculateReward s' 0 50 = Ok 6 /\
    Sol.getRewardTier s' 5 = Ok (40, 250 * Sol.E18).
Proof.
  assert (H0 : 0 <= 7) by (vm_compute; discriminate).
  destruct (sol_updateTier_takes_effect deployer (state_of sol_default) 0 20 7 eq_refl H0)
    as (s' & Hs' & Hget & Hcalc & Hother & _).
  exists s'. split; [exact Hs'|]. split; [exact Hget|]. split.
  - apply (Hcalc 50); vm_compute; discriminate.
  - destruct (Hother 5 0) as [-> _]; [discriminate|]. vm_compute. reflexivity.
Defined.

(** Only the sender test answers "Not authorized". *)
Lemma sol_burn_not_refused keccak256 env s m p t e :
  Sol.onlyOracle env s = true ->
  Sol.burnForPerformance keccak256 env s m p t e
    <> Err (Sol.RequireFailed "Not authorized").
Proof.
  intros Ha. unfold Sol.burnForPerformance, Sol.calculateReward,
    Sol.checked_mul, Sol.checked_add.
  rewrite Ha. simpl.
  repeat (match goal with
          | |- context [if ?c then _ else _] => destruct c; simpl
          end); discriminate.
Qed.

(** X4.  When the owner hands the oracle role of the Solidity engine to a
    non-zero address, a burn request is turned down with "Not authorized"
    exactly when its sender is neither the new oracle nor the owner; the
    previous oracle, unless it is one of the two, is locked out. *)
Theorem sol_oracle_handover keccak256 env s o :
  Sol.msg_sender env = Sol.owner s -> o <> 0 ->
  exists s',
    Sol.setOracleContract env s o = Ok s' /\
    Sol.oracleContract s' = o /\ Sol.owner s' = Sol.owner s /\
    forall env' m p t e,
      Sol.burnForPerformance keccak256 env' s' m p t e
        = Err (Sol.RequireFailed "Not authorized")
      <-> Sol.msg_sender env' <> o /\ Sol.msg_sender env' <> Sol.owner s.
Proof.
  intros Hown Ho. unfold Sol.setOracleContract, Sol.onlyOwner.
  rewrite Hown, N.eqb_refl. simpl.
  destruct (N.eqb_spec o 0); [contradiction|].
  eexists. split; [reflexivity|]. split; [reflexivity|]. split; [reflexivity|].
  intros env' m p t e.
  set (s' := Sol.mkState _ _ _ _ _ _ _ _ _ _).
  destruct (Sol.onlyOracle env' s') eqn:Hauth.
  - split.
    + intros Hc. exfalso. exact (sol_burn_not_refused keccak256 env' s' m p t e Hauth Hc).
    + intros [H1 H2]. unfold Sol.onlyOracle, s' in Hauth. simpl in Hauth.
      apply orb_prop in Hauth as [H|H]; apply N.eqb_eq in H; contradiction.
  - split.
    + intros _. unfold Sol.onlyOracle, s' in Hauth. simpl in Hauth.
      apply orb_false_elim in Hauth as [H1 H2].
      apply N.eqb_neq in H1. apply N.eqb_neq in H2. split; assumption.
    + intros _. unfold Sol.burnForPerformance. rewrite Hauth. reflexivity.
Qed.

(** The deployer hands the role from address 3 to address 9: 3 is locked
    out and 9 may burn. *)
Lemma sol_oracle_handover_witness :
  exists s',
    Sol.setOracleContract deployer (state_of sol_default) 9 = Ok s' /\
    Sol.burnForPerformance toy_hash (Sol.mkEnv 3 2000) s' 1 7 0 85
      = Err (Sol.RequireFailed "Not authorized") /\
    Sol.burnForPerformance toy_hash (Sol.mkEnv 3 2000) (state_of sol_default) 1 7 0 85
      <> Err (Sol.RequireFailed "Not authorized") /\
    Sol.burnForPerformance toy_hash (Sol.mkEnv 9 2000) s' 1 7 0 85
      <> Err (Sol.RequireFailed "Not authorized").
Proof.
  assert (H9 : 9 <> 0) by discriminate.
  destruct (sol_oracle_handover toy_hash deployer (state_of sol_default) 9 eq_refl H9)
    as (s' & Hs' & _ & _ & Hiff).
  exists s'. split; [exact Hs'|]. split.
  - apply Hiff. split; vm_compute; discriminate.
  - split.
    + vm_compute. discriminate.
    + intros Hc. apply Hiff in Hc as [Hc _]. apply Hc. reflexivity.
Defined.

(** ** Rewards grow with the effort score *)

Lemma sol_calculateReward_bounds s t e r :
  Sol.calculateReward s t e = Ok r ->
  t <= 7 /\ e <= 100 /\
  get (Sol.baseRewards s) t * e <= Sol.MAX_UINT256 /\
  get (Sol.baseRewards s) t * e / 100 * get (Sol.burnMultipliers s) t <= Sol.MAX_UINT256 /\
  r = get (Sol.baseRewards s) t * e / 100 * get (Sol.burnMultipliers s) t / 10.
Proof.
  unfold Sol.calculateReward, Sol.TIER_ALL_ROUNDER.
  destruct (N.ltb_spec 7 t); [discriminate|].
  destruct (N.ltb_spec 100 e); [discriminate|].
  destruct (Sol.checked_mul _ e) as [p|] eqn:Hp; [|discriminate]. simpl.
  apply checked_mul_inv in Hp as [-> Hp].
  destruct (Sol.checked_mul _ _) as [p'|] eqn:Hp'; [|discriminate]. simpl.
  apply checked_mul_inv in Hp' as [-> Hp'].
  intros [= <-]. repeat split; assumption || reflexivity.
Qed.

Lemma move_calculate_reward_bounds tiers t e r :
  deflatinary_burn.calculate_reward tiers t e = Ok r ->
  exists state, tiers = Some state /\ t <= 7 /\
    reward_tiers.base_reward (config_at state t)
      * reward_tiers.multiplier (config_at state t) <= Move.MAX_U64 /\
    reward_tiers.base_reward (config_at state t)
      * reward_tiers.multiplier (config_at state t) * e <= Move.MAX_U64 /\
    r = reward_tiers.base_reward (config_at state t)
        * reward_tiers.multiplier (config_at state t) * e / 10000.
Proof.
  unfold deflatinary_burn.calculate_reward.
  destruct (reward_tiers.get_tier_config tiers t) as [c|] eqn:Hc; [|discriminate].
  apply get_tier_config_inv in Hc as (state & -> & Ht & ->). simpl.
  destruct (Move.mul64 _ _) as [p|] eqn:Hp; [|discriminate]. simpl.
  apply mul64_inv in Hp as [-> Hp].
  destruct (Move.mul64 _ e) as [p'|] eqn:Hp'; [|discriminate]. simpl.
  apply mul64_inv in Hp' as [-> Hp'].
  intros [= <-]. exists state. repeat split; assumption || reflexivity.
Qed.

(** X5.  On both engines the reward does not decrease with the effort
    score: when the computation succeeds for an effort score it succeeds for
    every smaller one, with a reward that is no larger. *)
Theorem reward_monotone_in_effort s tiers t e1 e2 :
  e1 <= e2 ->
  (forall r2, Sol.calculateReward s t e2 = Ok r2 ->
     exists r1, Sol.calculateReward s t e1 = Ok r1 /\ r1 <= r2) /\
  (forall r2, deflatinary_burn.calculate_reward tiers t e2 = Ok r2 ->
     exists r1, deflatinary_burn.calculate_reward tiers t e1 = Ok r1 /\ r1 <= r2).
Proof.
  intros He. split.
  - intros r2 H2. apply sol_calculateReward_bounds in H2 as (Ht & He2 & Hp & Hq & ->).
    set (b := get (Sol.baseRewards s) t) in *.
    set (m := get (Sol.burnMultipliers s) t) in *.
    assert (Hbe : b * e1 <= b * e2) by (apply N.mul_le_mono_l; exact He).
    assert (Hd : b * e1 / 100 <= b * e2 / 100) by (apply N.Div0.div_le_mono; exact Hbe).
    assert (Hdm : b * e1 / 100 * m <= b * e2 / 100 * m)
      by (apply N.mul_le_mono_r; exact Hd).
    exists (b * e1 / 100 * m / 10). split.
    + apply sol_calculateReward_ok; fold b m; lia.
    + apply N.Div0.div_le_mono. exact Hdm.
  - intros r2 H2.
    apply move_calculate_reward_bounds in H2 as (state & -> & Ht & Hp & Hq & ->).
    set (b := reward_tiers.base_reward (config_at state t)) in *.
    set (m := reward_tiers.multiplier (config_at state t)) in *.
    assert (Hbe : b * m * e1 <= b * m * e2) by (apply N.mul_le_mono_l; exact He).
    exists (b * m * e1 / 10000). split.
    + apply move_calculate_reward_ok; fold b m; lia.
    + apply N.Div0.div_le_mono. exact Hbe.
Qed.

(** Effort scores 40 and 85 on tier 0 of the default tables. *)
Lemma reward_monotone_in_effort_witness :
  (exists r1, Sol.calculateReward (state_of sol_default) 0 40 = Ok r1 /\
              r1 <= 63750000000000000000) /\
  (exists r1, deflatinary_burn.calculate_reward (Some (tiers_of move_default)) 0 40 = Ok r1 /\
              r1 <= 6375000000).
Proof.
  assert (He : 40 <= 85) by (vm_compute; discriminate).
  destruct (reward_monotone_in_effort (state_of sol_default) (Some (tiers_of move_default))
              0 40 85 He) as [Hsol Hmove].
  split.
  - apply Hsol. vm_compute. reflexivity.
  - apply Hmove. vm_compute. reflexivity.
Defined.

(** ** What a burn adds to the tallies *)

(** X6.  A successful burn adds the reward and the burn amount to the
    burning player's tallies and to the totals, and changes no other
    player's tally, on both engines; the Move views read 0 for a player
    without an entry. *)
Theorem burn_credits_one_player :
  (forall keccak256 env s m p t e b r s',
     Sol.burnForPerformance keccak256 env s m p t e = Ok (b, r, s') ->
     Sol.getPlayerRewards s' p = Sol.getPlayerRewards s p + r /\
     Sol.getPlayerBurned s' p = Sol.getPlayerBurned s p + b /\
     Sol.totalRewards s' = Sol.totalRewards s + r /\
     Sol.totalBurned s' = Sol.totalBurned s + b /\
     forall q, q <> p ->
       Sol.getPlayerRewards s' q = Sol.getPlayerRewards s q /\
       Sol.getPlayerBurned s' q = Sol.getPlayerBurned s q) /\
  (forall env tiers state pl id t ps e st',
     deflatinary_burn.burn_for_performance env tiers (Some state) pl id t ps e = Ok st' ->
     exists r,
       deflatinary_burn.calculate_reward tiers t e = Ok r /\
       deflatinary_burn.get_player_rewards (Some st') pl
         = Ok (get (deflatinary_burn.player_rewards state) pl + r) /\
       deflatinary_burn.get_player_burned (Some st') pl
         = Ok (get (deflatinary_burn.player_burned state) pl + r / 10) /\
       deflatinary_burn.total_rewards_view (Some st')
         = Ok (deflatinary_burn.total_rewards state + r) /\
       deflatinary_burn.total_burned_view (Some st')
         = Ok (deflatinary_burn.total_burned state + r / 10) /\
       forall q, q <> pl ->
         deflatinary_burn.get_player_rewards (Some st') q
           = deflatinary_burn.get_player_rewards (Some state) q /\
         deflatinary_burn.get_player_burned (Some st') q
           = deflatinary_burn.get_player_burned (Some state) q) /\
  (forall state q,
     deflatinary_burn.player_rewards state !! q = None ->
     deflatinary_burn.player_burned state !! q = None ->
     deflatinary_burn.get_player_rewards (Some state) q = Ok 0 /\
     deflatinary_burn.get_player_burned (Some state) q = Ok 0).
Proof.
  split; [|split].
  - intros keccak256 env s m p t e b r s' Hburn.
    apply sol_burn_inv in Hburn as (_ & _ & _ & _ & Htb & Htr & Hpr & Hpb & _).
    unfold Sol.getPlayerRewards, Sol.getPlayerBurned, Sol.totalRewards, Sol.totalBurned.
    rewrite Htb, Htr, Hpr, Hpb. unfold get. rewrite !lookup_insert_eq. simpl.
    repeat split; try reflexivity;
      rewrite lookup_insert_ne by congruence; reflexivity.
  - intros env tiers state pl id t ps e st' Hburn.
    apply move_burn_inv in Hburn
      as (state0 & r & [= <-] & _ & _ & Hr & _ & _ & _ & _ & ->).
    exists r. split; [exact Hr|].
    unfold deflatinary_burn.get_player_rewards, deflatinary_burn.get_player_burned,
      deflatinary_burn.total_rewards_view, deflatinary_burn.total_burned_view.
    simpl. rewrite !lookup_insert_eq.
    repeat split; try reflexivity;
      rewrite lookup_insert_ne by congruence; reflexivity.
  - intros state q Hr Hb.
    unfold deflatinary_burn.get_player_rewards, deflatinary_burn.get_player_burned.
    simpl. rewrite Hr, Hb. split; reflexivity.
Qed.

(** The first burns of player 7 on each engine. *)
Lemma burn_credits_one_player_witness :
  (Sol.getPlayerRewards (sol_after sol_first) 7 = 63750000000000000000 /\
   Sol.getPlayerBurned (sol_after sol_first) 7 = 6375000000000000000 /\
   Sol.getPlayerRewards (sol_after sol_first) 8 = 0) /\
  (deflatinary_burn.get_player_rewards (Some (engine_after move_first)) 7 = Ok 5625000000 /\
   deflatinary_burn.get_player_burned (Some (engine_after move_first)) 7 = Ok 562500000 /\
   deflatinary_burn.get_player_burned (Some (engine_after move_first)) 8 = Ok 0).
Proof.
  destruct burn_credits_one_player as (Hsol & Hmove & _). split.
  - assert (H : Sol.burnForPerformance toy_hash deployer (state_of sol_default) 1 7 0 85 =
                Ok (6375000000000000000, 63750000000000000000, sol_after sol_first))
      by (vm_compute; reflexivity).
    destruct (Hsol _ _ _ _ _ _ _ _ _ _ H) as (Hr & Hb & _ & _ & Hother).
    split; [rewrite Hr; reflexivity|]. split; [rewrite Hb; reflexivity|].
    destruct (Hother 8) as [-> _]; [discriminate | reflexivity].
  - assert (H : deflatinary_burn.burn_for_performance generous (Some (tiers_of move_default))
                  (Some (deflatinary_burn.mkBurnEngineState Move.spp_protocol ∅ 0 0 ∅ ∅))
                  7 [77; 49] 0 80 75 = Ok (engine_after move_first))
      by (vm_compute; reflexivity).
    destruct (Hmove _ _ _ _ _ _ _ _ _ H) as (r & Hr & Hpr & Hpb & _ & _ & Hother).
    vm_compute in Hr. injection Hr as <-.
    split; [rewrite Hpr; reflexivity|]. split; [rewrite Hpb; reflexivity|].
    destruct (Hother 8) as [_ ->]; [discriminate | reflexivity].
Defined.

(** ** The Move tier table *)

Lemma config_at_set_tier_eq state t c :
  t <= 7 -> config_at (reward_tiers.set_tier state t c) t = c.
Proof. intros Ht. tier_cases t Ht; reflexivity. Qed.

Lemma config_at_set_tier_ne state t t' c :
  t <= 7 -> t' <= 7 -> t' <> t ->
  config_at (reward_tiers.set_tier state t c) t' = config_at state t'.
Proof.
  intros Ht Ht' Hne. tier_cases t Ht; tier_cases t' Ht'; try reflexivity; congruence.
Qed.

Lemma admin_set_tier state t c :
  reward_tiers.admin (reward_tiers.set_tier state t c) = reward_tiers.admin state.
Proof.
  unfold reward_tiers.set_tier.
  repeat match goal with |- context [if ?b then _ else _] => destruct b end; reflexivity.
Qed.

Lemma update_tier_inv global a t m b ms g' :
  reward_tiers.update_tier global a t m b ms = Ok g' ->
  exists state, global = Some state /\ a = reward_tiers.admin state /\ t <= 7 /\
    g' = Some (reward_tiers.set_tier state t (reward_tiers.mkTierConfig t m b ms)).
Proof.
  unfold reward_tiers.update_tier, Move.borrow_global, Move.assert.
  destruct global as [state|]; simpl; [|discriminate].
  destruct (N.eqb_spec a (reward_tiers.admin state)); simpl; [|discriminate].
  destruct (N.leb_spec t 7); simpl; [|discriminate].
  intros [= <-]. exists state. repeat split; assumption.
Qed.

Lemma apply_update_keeps state u :
  slots_labelled state ->
  exists state', apply_update (Some state) u = Some state' /\
    reward_tiers.admin state' = reward_tiers.admin state /\ slots_labelled state'.
Proof.
  intros Hl. unfold apply_update.
  destruct (reward_tiers.update_tier _ _ _ _ _ _) as [g'|] eqn:Hu; simpl.
  - apply update_tier_inv in Hu as (state0 & [= <-] & _ & Ht & ->).
    eexists. split; [reflexivity|]. split; [apply admin_set_tier|].
    intros t' Ht'. destruct (N.eq_dec t' (tu_tier u)) as [->|Hne].
    + rewrite config_at_set_tier_eq by exact Ht. reflexivity.
    + rewrite config_at_set_tier_ne by assumption. apply Hl. exact Ht'.
  - exists state. repeat split; assumption || reflexivity.
Qed.

Lemma apply_updates_keep us : forall state,
  slots_labelled state ->
  exists state', apply_updates (Some state) us = Some state' /\
    reward_tiers.admin state' = reward_tiers.admin state /\ slots_labelled state'.
Proof.
  induction us as [|u us IH]; intros state Hl.
  - exists state. repeat split; assumption || reflexivity.
  - destruct (apply_update_keeps state u Hl) as (s1 & H1 & Ha1 & Hl1).
    destruct (IH s1 Hl1) as (s2 & H2 & Ha2 & Hl2).
    exists s2. simpl. rewrite H1. split; [exact H2|]. split; [congruence | exact Hl2].
Qed.

Lemma get_all_tiers_nth state t :
  t <= 7 ->
  exists l, reward_tiers.get_all_tiers (Some state) = Ok l /\ length l = 8%nat /\
    nth_error l (N.to_nat t) = Some (config_at state t).
Proof.
  intros Ht. eexists. split; [reflexivity|]. split; [reflexivity|].
  tier_cases t Ht; reflexivity.
Qed.

(** X7.  After [initialize], whatever [update_tier] transactions are sent
    by whichever signers, the tier table stays published with the deployer
    as its admin; [get_all_tiers] lists eight configurations; the one at
    position [t] is labelled with tier [t] and is the one [get_tier_config]
    reads for tier [t]. *)
Theorem tier_table_stays_labelled g0 (us : list tier_update) :
  reward_tiers.initialize None Move.spp_protocol = Ok g0 ->
  exists state l,
    apply_updates g0 us = Some state /\
    reward_tiers.admin state = Move.spp_protocol /\
    reward_tiers.get_all_tiers (Some state) = Ok l /\
    length l = 8%nat /\
    forall t, t <= 7 ->
      exists c, nth_error l (N.to_nat t) = Some c /\
        reward_tiers.tier c = t /\
        reward_tiers.get_tier_config (Some state) t
          = Ok (reward_tiers.multiplier c, reward_tiers.base_reward c).
Proof.
  intros Hinit. vm_compute in Hinit. injection Hinit as <-.
  match goal with |- context [apply_updates (Some ?x) _] => set (s0 := x) end.
  assert (Hl0 : slots_labelled s0) by (intros t Ht; tier_cases t Ht; reflexivity).
  destruct (apply_updates_keep us s0 Hl0) as (state & Hrun & Hadm & Hl).
  destruct (get_all_tiers_nth state 0) as (l & Hall & Hlen & _); [discriminate|].
  exists state, l. split; [exact Hrun|]. split; [rewrite Hadm; reflexivity|].
  split; [exact Hall|]. split; [exact Hlen|].
  intros t Ht. destruct (get_all_tiers_nth state t Ht) as (l' & Hall' & _ & Hnth).
  rewrite Hall in Hall'. injection Hall' as <-.
  exists (config_at state t). split; [exact Hnth|]. split; [apply Hl; exact Ht|].
  apply get_tier_config_at. exact Ht.
Qed.

(** An update by the admin, one by a stranger and one of tier 9. *)
Lemma tier_table_stays_labelled_witness :
  exists state l,
    apply_updates (Some (tiers_of move_default))
      [mkTierUpdate Move.spp_protocol 5 410 7 1; mkTierUpdate 99 0 1 1 1;
       mkTierUpdate Move.spp_protocol 9 1 1 1] = Some state /\
    reward_tiers.admin state = Move.spp_protocol /\
    reward_tiers.get_all_tiers (Some state) = Ok l /\
    length l = 8%nat /\
    forall t, t <= 7 ->
      exists c, nth_error l (N.to_nat t) = Some c /\
        reward_tiers.tier c = t /\
        reward_tiers.get_tier_config (Some state) t
          = Ok (reward_tiers.multiplier c, reward_tiers.base_reward c).
Proof.
  apply (tier_table_stays_labelled (Some (tiers_of move_default))).
  vm_compute. reflexivity.
Defined.

(** X8.  [update_tier] decided completely: without a published table it
    aborts on the missing resource; a signer other than the admin is
    refused with [E_NOT_AUTHORIZED], whatever the tier; the admin is refused
    with [E_INVALID_TIER] for a tier above 7; otherwise the call succeeds,
    [get_tier_config] then reads the new multiplier and base reward for that
    tier and the old ones for every other tier, and the reward of the tier
    is computed from the new values. *)
Theorem move_update_tier_outcomes global a t m b ms :
  match global with
  | None => reward_tiers.update_tier global a t m b ms = Err Move.MissingResource
  | Some state =>
      if negb (a =? reward_tiers.admin state) then
        reward_tiers.update_tier global a t m b ms
          = Err (Move.Abort reward_tiers.E_NOT_AUTHORIZED)
      else if 7 <? t then
        reward_tiers.update_tier global a t m b ms
          = Err (Move.Abort reward_tiers.E_INVALID_TIER)
      else
        exists state',
          reward_tiers.update_tier global a t m b ms = Ok (Some state') /\
          reward_tiers.admin state' = reward_tiers.admin state /\
          reward_tiers.get_tier_config (Some state') t = Ok (m, b) /\
          (forall t', t' <> t ->
             reward_tiers.get_tier_config (Some state') t'
               = reward_tiers.get_tier_config global t') /\
          (forall e, b * m <= Move.MAX_U64 -> b * m * e <= Move.MAX_U64 ->
             deflatinary_burn.calculate_reward (Some state') t e = Ok (b * m * e / 10000))
  end.
Proof.
  destruct global as [state|]; [|reflexivity].
  unfold reward_tiers.update_tier, Move.borrow_global, Move.assert. simpl.
  destruct (N.eqb_spec a (reward_tiers.admin state)) as [->|Hne]; simpl; [|reflexivity].
  destruct (N.ltb_spec 7 t) as [Hbig|Ht].
  - destruct (N.leb_spec t 7); [lia | reflexivity].
  - destruct (N.leb_spec t 7) as [_|]; [|lia]. simpl.
    eexists. split; [reflexivity|]. split; [apply admin_set_tier|].
    assert (Hget : reward_tiers.get_tier_config
              (Some (reward_tiers.set_tier state t (reward_tiers.mkTierConfig t m b ms))) t
            = Ok (m, b)).
    { rewrite get_tier_config_at by exact Ht.
      rewrite config_at_set_tier_eq by exact Ht. reflexivity. }
    split; [exact Hget|]. split.
    + intros t' Hne. destruct (N.le_gt_cases t' 7) as [Ht'|Hbig].
      * rewrite !get_tier_config_at by exact Ht'.
        rewrite config_at_set_tier_ne by assumption. reflexivity.
      * unfold reward_tiers.get_tier_config, Move.borrow_global, Move.assert. simpl.
        destruct (N.leb_spec t' 7); [lia | reflexivity].
    + intros e Hbm He.
      rewrite move_calculate_reward_ok; rewrite ?config_at_set_tier_eq by exact Ht;
        simpl; assumption || reflexivity.
Qed.

(** The admin sets tier 5 of the default table; a stranger and a tier 9
    are refused. *)
Lemma move_update_tier_outcomes_witness :
  (exists state',
     reward_tiers.update_tier (Some (tiers_of move_default)) Move.spp_protocol 5 410 7 1
       = Ok (Some state') /\
     reward_tiers.get_tier_config (Some state') 5 = Ok (410, 7) /\
     reward_tiers.get_tier_config (Some state') 0 = Ok (150, 5000000000) /\
     deflatinary_burn.calculate_reward (Some state') 5 90 = Ok 25) /\
  reward_tiers.update_tier (Some (tiers_of move_default)) 99 9 410 7 1
    = Err (Move.Abort reward_tiers.E_NOT_AUTHORIZED) /\
  reward_tiers.update_tier (Some (tiers_of move_default)) Move.spp_protocol 9 410 7 1
    = Err (Move.Abort reward_tiers.E_INVALID_TIER) /\
  reward_tiers.update_tier None Move.spp_protocol 5 410 7 1 = Err Move.MissingResource.
Proof.
  split; [|split; [|split]].
  - destruct (move_update_tier_outcomes (Some (tiers_of move_default))
                Move.spp_protocol 5 410 7 1) as (state' & Hu & _ & Hg & Ho & Hr).
    exists state'. split; [exact Hu|]. split; [exact Hg|]. split.
    + rewrite Ho by discriminate. reflexivity.
    + rewrite (Hr 90); [reflexivity | vm_compute; discriminate | vm_compute; discriminate].
  - exact (move_update_tier_outcomes (Some (tiers_of move_default)) 99 9 410 7 1).
  - exact (move_update_tier_outcomes (Some (tiers_of move_default))
             Move.spp_protocol 9 410 7 1).
  - exact (move_update_tier_outcomes None Move.spp_protocol 5 410 7 1).
Defined.

(** ** The Move oracle under arbitrary transactions *)

Lemma authorized_inv (b : bool) code :
  Move.assert b code = Ok tt -> b = true.
Proof. destruct b; [reflexivity | discriminate]. Qed.

Lemma add_oracle_inv state a o state' :
  performance_oracle.add_oracle (Some state) a o = Ok state' ->
  a = performance_oracle.admin state /\
  state' = performance_oracle.mkOracleState (performance_oracle.admin state)
             (performance_oracle.oracle_addresses state ++ [o])
             (performance_oracle.match_store state)
             (performance_oracle.performance_store state)
             (performance_oracle.cricket_performance_store state).
Proof.
  unfold performance_oracle.add_oracle, Move.assert. simpl.
  destruct (N.eqb_spec a (performance_oracle.admin state)); simpl; [|discriminate].
  intros [= <-]. split; [assumption | reflexivity].
Qed.

Lemma register_match_inv now state a id sp state' :
  performance_oracle.register_match now (Some state) a id sp = Ok state' ->
  performance_oracle.authorized state a = true /\
  performance_oracle.match_store state !! id = None /\
  state' = performance_oracle.mkOracleState (performance_oracle.admin state)
             (performance_oracle.oracle_addresses state)
             (<[id := performance_oracle.mkMatch id sp performance_oracle.STATUS_REGISTERED
                        0 [] 0 now 0]> (performance_oracle.match_store state))
             (performance_oracle.performance_store state)
             (performance_oracle.cricket_performance_store state).
Proof.
  unfold performance_oracle.register_match, Move.assert. simpl.
  destruct (performance_oracle.authorized state a); simpl; [|discriminate].
  destruct (performance_oracle.match_store state !! id) as [m|] eqn:Hm.
  - rewrite bool_decide_eq_true_2 by eauto. discriminate.
  - rewrite bool_decide_eq_false_2 by (intros [? ?]; discriminate). simpl.
    intros [= <-]. repeat split.
Qed.

Lemma finalize_match_inv now state a id win hash state' :
  performance_oracle.finalize_match now (Some state) a id win hash = Ok state' ->
  performance_oracle.authorized state a = true /\
  exists m, performance_oracle.match_store state !! id = Some m /\
    performance_oracle.status m <> performance_oracle.STATUS_FINALIZED /\
    state' = performance_oracle.mkOracleState (performance_oracle.admin state)
               (performance_oracle.oracle_addresses state)
               (<[id := performance_oracle.mkMatch (performance_oracle.match_id m)
                          (performance_oracle.sport m) performance_oracle.STATUS_FINALIZED
                          win hash (performance_oracle.player_count m)
                          (performance_oracle.registered_at m) now]>
                  (performance_oracle.match_store state))
               (performance_oracle.performance_store state)
               (performance_oracle.cricket_performance_store state).
Proof.
  unfold performance_oracle.finalize_match, Move.assert. simpl.
  destruct (performance_oracle.authorized state a); simpl; [|discriminate].
  destruct (performance_oracle.match_store state !! id) as [m|] eqn:Hm; [|discriminate].
  destruct (N.eqb_spec (performance_oracle.status m) performance_oracle.STATUS_FINALIZED);
    simpl; [discriminate|].
  intros [= <-]. split; [reflexivity|]. exists m. repeat split. assumption.
Qed.

Lemma record_performance_inv now state a id p score effort t state' :
  performance_oracle.record_performance now (Some state) a id p score effort t = Ok state' ->
  performance_oracle.authorized state a = true /\
  is_Some (performance_oracle.match_store state !! id) /\
  state' = performance_oracle.mkOracleState (performance_oracle.admin state)
             (performance_oracle.oracle_addresses state)
             (performance_oracle.match_store state)
             (<[id ++ Move.bcs_to_bytes p :=
                  performance_oracle.mkPerformance id p score effort t now true]>
                (performance_oracle.performance_store state))
             (performance_oracle.cricket_performance_store state).
Proof.
  unfold performance_oracle.record_performance, Move.assert. simpl.
  destruct (performance_oracle.authorized state a); simpl; [|discriminate].
  destruct (decide (is_Some (performance_oracle.match_store state !! id))) as [Hs|Hn].
  - rewrite bool_decide_eq_true_2 by exact Hs. simpl.
    intros [= <-]. repeat split. exact Hs.
  - rewrite bool_decide_eq_false_2 by exact Hn. discriminate.
Qed.

Lemma record_cricket_performance_inv now state a id p r f w o c md state' :
  performance_oracle.record_cricket_performance now (Some state) a id p r f w o c md
    = Ok state' ->
  performance_oracle.authorized state a = true /\
  is_Some (performance_oracle.match_store state !! id) /\
  state' = performance_oracle.mkOracleState (performance_oracle.admin state)
             (performance_oracle.oracle_addresses state)
             (performance_oracle.match_store state)
             (performance_oracle.performance_store state)
             (<[id ++ Move.bcs_to_bytes p :=
                  performance_oracle.mkCricketPerformance id p r f w o c md now]>
                (performance_oracle.cricket_performance_store state)).
Proof.
  unfold performance_oracle.record_cricket_performance, Move.assert. simpl.
  destruct (performance_oracle.authorized state a); simpl; [|discriminate].
  destruct (decide (is_Some (performance_oracle.match_store state !! id))) as [Hs|Hn].
  - rewrite bool_decide_eq_true_2 by exact Hs. simpl.
    intros [= <-]. repeat split. exact Hs.
  - rewrite bool_decide_eq_false_2 by exact Hn. discriminate.
Qed.

(** The successful steps, one per entry function. *)
Lemma oracle_step_cases state tx :
  oracle_step state tx = state \/
  (exists a o, snd tx = CallAddOracle a o /\
     performance_oracle.add_oracle (Some state) a o = Ok (oracle_step state tx)) \/
  (exists a id sp, snd tx = CallRegisterMatch a id sp /\
     performance_oracle.register_match (fst tx) (Some state) a id sp
       = Ok (oracle_step state tx)) \/
  (exists a id win hash, snd tx = CallFinalizeMatch a id win hash /\
     performance_oracle.finalize_match (fst tx) (Some state) a id win hash
       = Ok (oracle_step state tx)) \/
  (exists a id p score effort t, snd tx = CallRecordPerformance a id p score effort t /\
     performance_oracle.record_performance (fst tx) (Some state) a id p score effort t
       = Ok (oracle_step state tx)) \/
  (exists a id p r f w o c md,
     snd tx = CallRecordCricketPerformance a id p r f w o c md /\
     performance_oracle.record_cricket_performance (fst tx) (Some state) a id p r f w o c md
       = Ok (oracle_step state tx)).
Proof.
  destruct tx as [now call]. unfold oracle_step. simpl.
  destruct call as [a o|a id sp|a id win hash|a id p score effort t|a id p r f w o c md].
  - destruct (performance_oracle.add_oracle _ _ _) eqn:H; simpl; [|left; reflexivity].
    right; left. repeat eexists. exact H.
  - destruct (performance_oracle.register_match _ _ _ _ _) eqn:H; simpl; [|left; reflexivity].
    right; right; left. repeat eexists. exact H.
  - destruct (performance_oracle.finalize_match _ _ _ _ _ _) eqn:H; simpl;
      [|left; reflexivity].
    right; right; right; left. repeat eexists. exact H.
  - destruct (performance_oracle.record_performance _ _ _ _ _ _ _ _) eqn:H; simpl;
      [|left; reflexivity].
    right; right; right; right; left. repeat eexists. exact H.
  - destruct (performance_oracle.record_cricket_performance _ _ _ _ _ _ _ _ _ _ _) eqn:H;
      simpl; [|left; reflexivity].
    right; right; right; right; right. repeat eexists. exact H.
Qed.

Lemma oracle_step_keeps_finalized state tx id m :
  performance_oracle.match_store state !! id = Some m ->
  performance_oracle.status m = performance_oracle.STATUS_FINALIZED ->
  performance_oracle.match_store (oracle_step state tx) !! id = Some m.
Proof.
  intros Hm Hfin.
  destruct (oracle_step_cases state tx)
    as [->|[(a & o & _ & H)|[(a & id' & sp & _ & H)|[(a & id' & win & hash & _ & H)|
        [(a & id' & p & sc & ef & t & _ & H)|(a & id' & p & r & f & w & o & c & md & _ & H)]]]]].
  - exact Hm.
  - apply add_oracle_inv in H as [_ ->]. exact Hm.
  - apply register_match_inv in H as (_ & Hnone & ->). simpl.
    rewrite lookup_insert_ne by congruence. exact Hm.
  - apply finalize_match_inv in H as (_ & m' & Hm' & Hst & ->). simpl.
    rewrite lookup_insert_ne by congruence. exact Hm.
  - apply record_performance_inv in H as (_ & _ & ->). exact Hm.
  - apply record_cricket_performance_inv in H as (_ & _ & ->). exact Hm.
Qed.

(** X9.  A finalized match is final: whatever transactions follow, from
    whichever signers, [get_match] keeps returning the same record (status,
    winner, data hash and finalization time included). *)
Theorem finalized_match_is_final state id m (txs : list (N * oracle_call)) :
  performance_oracle.get_match (Some state) id = Ok m ->
  performance_oracle.status m = performance_oracle.STATUS_FINALIZED ->
  performance_oracle.get_match (Some (oracle_run state txs)) id = Ok m.
Proof.
  intros Hget Hfin.
  assert (Hm : performance_oracle.match_store state !! id = Some m).
  { unfold performance_oracle.get_match in Hget. simpl in Hget.
    destruct (performance_oracle.match_store state !! id); [|discriminate].
    congruence. }
  clear Hget.
  assert (Hrun : performance_oracle.match_store (oracle_run state txs) !! id = Some m).
  { revert state Hm. induction txs as [|tx txs IH]; intros state Hm; [exact Hm|].
    simpl. apply IH. apply oracle_step_keeps_finalized; assumption. }
  unfold performance_oracle.get_match. simpl. rewrite Hrun. reflexivity.
Qed.

(** Match [M1], finalized, then finalized again, registered again and given
    a performance. *)
Lemma finalized_match_is_final_witness :
  performance_oracle.get_match
    (Some (oracle_run oracle_finalized
             [(3000, CallFinalizeMatch Move.spp_protocol [77; 49] 2 [8]);
              (3001, CallRegisterMatch Move.spp_protocol [77; 49] 4);
              (3002, CallRecordPerformance Move.spp_protocol [77; 49] 7 80 75 0)]))
    [77; 49]
  = Ok (performance_oracle.mkMatch [77; 49] 1 performance_oracle.STATUS_FINALIZED
          1 [9] 0 1000 2000).
Proof.
  apply finalized_match_is_final.
  - vm_compute. reflexivity.
  - reflexivity.
Defined.

Lemma oracle_step_well_formed state tx :
  oracle_well_formed state -> oracle_well_formed (oracle_step state tx).
Proof.
  intros (Hadm & Hmatch & Hperf & Hcp).
  destruct (oracle_step_cases state tx)
    as [->|[(a & o & _ & H)|[(a & id' & sp & _ & H)|[(a & id' & win & hash & _ & H)|
        [(a & id' & p & sc & ef & t & _ & H)|(a & id' & p & r & f & w & o & c & md & _ & H)]]]]].
  - split; [exact Hadm|]. split; [exact Hmatch|]. split; [exact Hperf | exact Hcp].
  - apply add_oracle_inv in H as [_ ->].
    split; [exact Hadm|]. split; [exact Hmatch|]. split; [exact Hperf | exact Hcp].
  - apply register_match_inv in H as (_ & Hnone & ->).
    split; [exact Hadm|]. simpl. split; [|split].
    + intros id m Hl. destruct (decide (id = id')) as [->|Hne].
      * rewrite lookup_insert_eq in Hl. injection Hl as <-.
        split; [reflexivity|]. split; [reflexivity|]. right. repeat split.
      * rewrite lookup_insert_ne in Hl by congruence. apply Hmatch. exact Hl.
    + intros k q Hl. destruct (Hperf k q Hl) as (Hv & Hk & Hs).
      split; [exact Hv|]. split; [exact Hk|].
      apply lookup_insert_is_Some. destruct (decide (id' = performance_oracle.perf_match_id q));
        [left; assumption | right; split; assumption].
    + intros k q Hl. destruct (Hcp k q Hl) as (Hk & Hs).
      split; [exact Hk|].
      apply lookup_insert_is_Some. destruct (decide (id' = performance_oracle.cp_match_id q));
        [left; assumption | right; split; assumption].
  - apply finalize_match_inv in H as (_ & m' & Hm' & Hst & ->).
    split; [exact Hadm|]. simpl. split; [|split].
    + intros id m Hl. destruct (decide (id = id')) as [->|Hne].
      * rewrite lookup_insert_eq in Hl. injection Hl as <-.
        destruct (Hmatch id' m' Hm') as (Hid & Hpc & _).
        split; [exact Hid|]. split; [exact Hpc|]. left. reflexivity.
      * rewrite lookup_insert_ne in Hl by congruence. apply Hmatch. exact Hl.
    + intros k q Hl. destruct (Hperf k q Hl) as (Hv & Hk & Hs).
      split; [exact Hv|]. split; [exact Hk|].
      apply lookup_insert_is_Some. destruct (decide (id' = performance_oracle.perf_match_id q));
        [left; assumption | right; split; assumption].
    + intros k q Hl. destruct (Hcp k q Hl) as (Hk & Hs).
      split; [exact Hk|].
      apply lookup_insert_is_Some. destruct (decide (id' = performance_oracle.cp_match_id q));
        [left; assumption | right; split; assumption].
  - apply record_performance_inv in H as (_ & Hsome & ->).
    split; [exact Hadm|]. simpl. split; [exact Hmatch|]. split; [|exact Hcp].
    intros k q Hl. destruct (decide (k = id' ++ Move.bcs_to_bytes p)) as [->|Hne].
    + rewrite lookup_insert_eq in Hl. injection Hl as <-. simpl.
      split; [reflexivity|]. split; [reflexivity | exact Hsome].
    + rewrite lookup_insert_ne in Hl by congruence. apply Hperf. exact Hl.
  - apply record_cricket_performance_inv in H as (_ & Hsome & ->).
    split; [exact Hadm|]. simpl. split; [exact Hmatch|]. split; [exact Hperf|].
    intros k q Hl. destruct (decide (k = id' ++ Move.bcs_to_bytes p)) as [->|Hne].
    + rewrite lookup_insert_eq in Hl. injection Hl as <-. simpl.
      split; [reflexivity | exact Hsome].
    + rewrite lookup_insert_ne in Hl by congruence. apply Hcp. exact Hl.
Qed.

Lemma oracle_run_well_formed (txs : list (N * oracle_call)) : forall state,
  oracle_well_formed state -> oracle_well_formed (oracle_run state txs).
Proof.
  induction txs as [|tx txs IH]; intros state Hwf; [exact Hwf|].
  simpl. apply IH. apply oracle_step_well_formed. exact Hwf.
Qed.

(** X10.  After [initialize], whatever transactions are sent: the admin
    is still the deployer; every stored match is filed under its own id, has
    player count 0, and is either finalized or registered with winner 0, an
    empty data hash and finalization time 0 (the statuses "in progress" and
    "cancelled" never occur); every stored performance is verified, is filed
    under its match id followed by its player's address, and belongs to a
    registered match, and so does every stored cricket performance. *)
Theorem oracle_stays_well_formed g0 (txs : list (N * oracle_call)) :
  performance_oracle.initialize None Move.spp_protocol = Ok g0 ->
  exists state0, g0 = Some state0 /\ oracle_well_formed (oracle_run state0 txs).
Proof.
  intros Hinit. unfold performance_oracle.initialize in Hinit.
  rewrite N.eqb_refl in Hinit. simpl in Hinit. injection Hinit as <-.
  eexists. split; [reflexivity|].
  apply oracle_run_well_formed.
  split; [reflexivity|]. simpl.
  split; [|split]; intros k x Hl; rewrite lookup_empty in Hl; discriminate.
Qed.

Lemma oracle_stays_well_formed_witness :
  exists state0, oracle_initial = Some state0 /\
    oracle_well_formed
      (oracle_run state0
         [(1000, CallRegisterMatch Move.spp_protocol [77; 49] 1);
          (1500, CallRecordPerformance Move.spp_protocol [77; 49] 7 80 75 0);
          (2000, CallFinalizeMatch Move.spp_protocol [77; 49] 1 [9])]).
Proof.
  apply (oracle_stays_well_formed oracle_initial). vm_compute. reflexivity.
Defined.

(** ** Authorisation on the Move oracle *)

Lemma authorized_spec state a :
  performance_oracle.authorized state a = true <->
  a = performance_oracle.admin state \/ a ∈ performance_oracle.oracle_addresses state.
Proof.
  unfold performance_oracle.authorized. rewrite orb_true_iff, N.eqb_eq, bool_decide_eq_true.
  reflexivity.
Qed.

Lemma oracle_step_admin state tx :
  performance_oracle.admin (oracle_step state tx) = performance_oracle.admin state.
Proof.
  destruct (oracle_step_cases state tx)
    as [->|[(a & o & _ & H)|[(a & id' & sp & _ & H)|[(a & id' & win & hash & _ & H)|
        [(a & id' & p & sc & ef & t & _ & H)|(a & id' & p & r & f & w & o & c & md & _ & H)]]]]].
  - reflexivity.
  - apply add_oracle_inv in H as [_ ->]. reflexivity.
  - apply register_match_inv in H as (_ & _ & ->). reflexivity.
  - apply finalize_match_inv in H as (_ & m' & _ & _ & ->). reflexivity.
  - apply record_performance_inv in H as (_ & _ & ->). reflexivity.
  - apply record_cricket_performance_inv in H as (_ & _ & ->). reflexivity.
Qed.

Lemma oracle_step_addresses state tx :
  performance_oracle.oracle_addresses (oracle_step state tx)
    = performance_oracle.oracle_addresses state \/
  exists o, snd tx = CallAddOracle (performance_oracle.admin state) o /\
    performance_oracle.oracle_addresses (oracle_step state tx)
      = performance_oracle.oracle_addresses state ++ [o].
Proof.
  destruct (oracle_step_cases state tx)
    as [->|[(a & o & Htx & H)|[(a & id' & sp & _ & H)|[(a & id' & win & hash & _ & H)|
        [(a & id' & p & sc & ef & t & _ & H)|(a & id' & p & r & f & w & o & c & md & _ & H)]]]]].
  - left. reflexivity.
  - apply add_oracle_inv in H as [-> ->]. right. exists o. split; [exact Htx | reflexivity].
  - apply register_match_inv in H as (_ & _ & ->). left. reflexivity.
  - apply finalize_match_inv in H as (_ & m' & _ & _ & ->). left. reflexivity.
  - apply record_performance_inv in H as (_ & _ & ->). left. reflexivity.
  - apply record_cricket_performance_inv in H as (_ & _ & ->). left. reflexivity.
Qed.

Lemma oracle_step_keeps_authorized state tx a :
  performance_oracle.authorized state a = true ->
  performance_oracle.authorized (oracle_step state tx) a = true.
Proof.
  rewrite !authorized_spec, oracle_step_admin.
  intros [Ha|Ha]; [left; exact Ha|]. right.
  destruct (oracle_step_addresses state tx) as [->|(o & _ & ->)]; [exact Ha|].
  apply elem_of_app. left. exact Ha.
Qed.

(** X11.  Authorisation on the Move oracle only grows: an address that
    may act as oracle may still do so after any sequence of transactions,
    and the admin never changes; the one transaction that makes an address
    authorized is [add_oracle] for that address signed by the admin. *)
Theorem authorization_only_grows state a :
  (forall txs : list (N * oracle_call),
     performance_oracle.admin (oracle_run state txs) = performance_oracle.admin state /\
     (performance_oracle.authorized state a = true ->
      performance_oracle.authorized (oracle_run state txs) a = true)) /\
  (forall tx : N * oracle_call,
     performance_oracle.authorized state a = false ->
     performance_oracle.authorized (oracle_step state tx) a = true ->
     snd tx = CallAddOracle (performance_oracle.admin state) a) /\
  (forall o,
     exists state',
       performance_oracle.add_oracle (Some state) (performance_oracle.admin state) o
         = Ok state' /\
       performance_oracle.authorized state' o = true).
Proof.
  split; [|split].
  - intros txs. revert state. induction txs as [|tx txs IH]; intros state.
    + split; [reflexivity | intros H; exact H].
    + simpl. destruct (IH (oracle_step state tx)) as [Hadm Hauth].
      split; [rewrite Hadm; apply oracle_step_admin|].
      intros Ha. apply Hauth. apply oracle_step_keeps_authorized. exact Ha.
  - intros tx Hno Hyes.
    apply authorized_spec in Hyes. rewrite oracle_step_admin in Hyes.
    assert (Hnot : ~ (a = performance_oracle.admin state
                      \/ a ∈ performance_oracle.oracle_addresses state)).
    { intros Hc. apply authorized_spec in Hc. congruence. }
    destruct Hyes as [Hyes|Hyes]; [tauto|].
    destruct (oracle_step_addresses state tx) as [Heq|(o & Htx & Heq)];
      rewrite Heq in Hyes; [tauto|].
    apply elem_of_app in Hyes as [Hyes|Hyes]; [tauto|].
    apply list_elem_of_singleton in Hyes as ->. exact Htx.
  - intros o. unfold performance_oracle.add_oracle, Move.assert. simpl.
    rewrite N.eqb_refl. simpl. eexists. split; [reflexivity|].
    apply authorized_spec. right. simpl. apply elem_of_app. right.
    apply list_elem_of_singleton. reflexivity.
Qed.

(** Address 5 is made an oracle, then a stranger tries to add itself. *)
Lemma authorization_only_grows_witness :
  performance_oracle.authorized
    (oracle_run (oracle_run (oracle_state_of oracle_initial)
                   [(10, CallAddOracle Move.spp_protocol 5)])
       [(20, CallAddOracle 99 99); (30, CallRegisterMatch 5 [77; 49] 1)]) 5 = true.
Proof.
  destruct (authorization_only_grows
              (oracle_run (oracle_state_of oracle_initial)
                 [(10, CallAddOracle Move.spp_protocol 5)]) 5) as [Hgrow _].
  apply Hgrow. vm_compute. reflexivity.
Defined.

(** ** Refusals, round trips and the life of a match on the Move oracle *)

(** X12.  The order of the checks of the oracle's entry functions.  A
    signer that is not authorized is refused with [E_NOT_AUTHORIZED] by the
    four recording functions whatever the other arguments; [add_oracle]
    refuses every signer but the admin, authorized oracles included.  For
    an authorized signer, an unknown match is refused with
    [E_MATCH_NOT_FOUND] by [finalize_match] and both performance functions,
    and a known match with [E_MATCH_ALREADY_EXISTS] by [register_match]. *)
Theorem oracle_refusals now state a id :
  (a <> performance_oracle.admin state ->
   forall o, performance_oracle.add_oracle (Some state) a o
             = Err (Move.Abort performance_oracle.E_NOT_AUTHORIZED)) /\
  (performance_oracle.authorized state a = false ->
   (forall sp, performance_oracle.register_match now (Some state) a id sp
               = Err (Move.Abort performance_oracle.E_NOT_AUTHORIZED)) /\
   (forall win hash, performance_oracle.finalize_match now (Some state) a id win hash
                     = Err (Move.Abort performance_oracle.E_NOT_AUTHORIZED)) /\
   (forall p score effort t,
      performance_oracle.record_performance now (Some state) a id p score effort t
      = Err (Move.Abort performance_oracle.E_NOT_AUTHORIZED)) /\
   (forall p r f w o c md,
      performance_oracle.record_cricket_performance now (Some state) a id p r f w o c md
      = Err (Move.Abort performance_oracle.E_NOT_AUTHORIZED))) /\
  (performance_oracle.authorized state a = true ->
   performance_oracle.match_store state !! id = None ->
   (forall win hash, performance_oracle.finalize_match now (Some state) a id win hash
                     = Err (Move.Abort performance_oracle.E_MATCH_NOT_FOUND)) /\
   (forall p score effort t,
      performance_oracle.record_performance now (Some state) a id p score effort t
      = Err (Move.Abort performance_oracle.E_MATCH_NOT_FOUND)) /\
   (forall p r f w o c md,
      performance_oracle.record_cricket_performance now (Some state) a id p r f w o c md
      = Err (Move.Abort performance_oracle.E_MATCH_NOT_FOUND))) /\
  (performance_oracle.authorized state a = true ->
   is_Some (performance_oracle.match_store state !! id) ->
   forall sp, performance_oracle.register_match now (Some state) a id sp
              = Err (Move.Abort performance_oracle.E_MATCH_ALREADY_EXISTS)).
Proof.
  split; [|split; [|split]].
  - intros Hne o. unfold performance_oracle.add_oracle, Move.assert. simpl.
    destruct (N.eqb_spec a (performance_oracle.admin state)); [contradiction | reflexivity].
  - intros Hno. repeat split; intros;
      unfold performance_oracle.register_match, performance_oracle.finalize_match,
        performance_oracle.record_performance, performance_oracle.record_cricket_performance,
        Move.assert; simpl; rewrite Hno; reflexivity.
  - intros Hyes Hnone.
    assert (Hn : ~ is_Some (performance_oracle.match_store state !! id))
      by (rewrite Hnone; intros [? ?]; discriminate).
    repeat split; intros;
      unfold performance_oracle.finalize_match,
        performance_oracle.record_performance, performance_oracle.record_cricket_performance,
        Move.assert; simpl; rewrite Hyes; simpl;
      rewrite ?Hnone, ?bool_decide_eq_false_2 by exact Hn; reflexivity.
  - intros Hyes Hsome sp.
    unfold performance_oracle.register_match, Move.assert. simpl. rewrite Hyes. simpl.
    rewrite bool_decide_eq_true_2 by exact Hsome. reflexivity.
Qed.

(** A stranger on match [M1]; the admin on the unknown match [M2] and on
    the known match [M1]. *)
Lemma oracle_refusals_witness :
  performance_oracle.record_performance 3000 (Some oracle_finalized) 99 [77; 49] 7 80 75 0
    = Err (Move.Abort performance_oracle.E_NOT_AUTHORIZED) /\
  performance_oracle.finalize_match 3000 (Some oracle_finalized) Move.spp_protocol
    [77; 50] 1 [9] = Err (Move.Abort performance_oracle.E_MATCH_NOT_FOUND) /\
  performance_oracle.register_match 3000 (Some oracle_finalized) Move.spp_protocol
    [77; 49] 1 = Err (Move.Abort performance_oracle.E_MATCH_ALREADY_EXISTS) /\
  performance_oracle.add_oracle (Some oracle_finalized) 99 99
    = Err (Move.Abort performance_oracle.E_NOT_AUTHORIZED).
Proof.
  split; [|split; [|split]].
  - destruct (oracle_refusals 3000 oracle_finalized 99 [77; 49]) as (_ & H & _).
    destruct H as (_ & _ & Hp & _); [vm_compute; reflexivity|]. apply Hp.
  - destruct (oracle_refusals 3000 oracle_finalized Move.spp_protocol [77; 50])
      as (_ & _ & H & _).
    destruct H as (Hf & _); [vm_compute; reflexivity | vm_compute; reflexivity|]. apply Hf.
  - destruct (oracle_refusals 3000 oracle_finalized Move.spp_protocol [77; 49])
      as (_ & _ & _ & H).
    apply H; [vm_compute; reflexivity|]. vm_compute. eexists. reflexivity.
  - destruct (oracle_refusals 3000 oracle_finalized 99 [77; 49]) as (H & _).
    apply H. vm_compute. discriminate.
Defined.

(** X13.  A recorded performance is read back by [get_performance] as it
    was written, marked verified and stamped with the ledger time; it
    replaces whatever was stored for that match and player; the performance
    of every other (match, player) pair, every match and the authorisations
    are as before.  Account addresses are 32 bytes long. *)
Theorem performance_round_trip now state a id p score effort t state' :
  performance_oracle.record_performance now (Some state) a id p score effort t = Ok state' ->
  p < 2 ^ 256 ->
  performance_oracle.get_performance (Some state') id p
    = Ok (performance_oracle.mkPerformance id p score effort t now true) /\
  (forall id' p', p' < 2 ^ 256 -> (id', p') <> (id, p) ->
     performance_oracle.get_performance (Some state') id' p'
       = performance_oracle.get_performance (Some state) id' p') /\
  (forall id', performance_oracle.get_match (Some state') id'
               = performance_oracle.get_match (Some state) id') /\
  (forall a', performance_oracle.authorized state' a'
              = performance_oracle.authorized state a').
Proof.
  intros Hrec Hp. apply record_performance_inv in Hrec as (_ & _ & ->).
  unfold performance_oracle.get_performance, performance_oracle.get_match,
    performance_oracle.authorized. simpl.
  split; [rewrite lookup_insert_eq; reflexivity|].
  split; [|split; reflexivity].
  intros id' p' Hp' Hne. rewrite lookup_insert_ne; [reflexivity|].
  intros Hk. apply table_key_inj in Hk as [-> ->]; [|assumption|assumption].
  apply Hne. reflexivity.
Qed.

(** Player 7 of match [M1] is given a second performance; player 8 has
    none. *)
Lemma performance_round_trip_witness :
  exists state',
    performance_oracle.record_performance 3000
      (Some (oracle_run oracle_finalized
               [(2500, CallRecordPerformance Move.spp_protocol [77; 49] 7 10 20 3)]))
      Move.spp_protocol [77; 49] 7 80 75 0 = Ok state' /\
    performance_oracle.get_performance (Some state') [77; 49] 7
      = Ok (performance_oracle.mkPerformance [77; 49] 7 80 75 0 3000 true) /\
    performance_oracle.get_performance (Some state') [77; 49] 8
      = Err (Move.Abort performance_oracle.E_MATCH_NOT_FOUND).
Proof.
  destruct (performance_oracle.record_performance 3000
              (Some (oracle_run oracle_finalized
                       [(2500, CallRecordPerformance Move.spp_protocol [77; 49] 7 10 20 3)]))
              Move.spp_protocol [77; 49] 7 80 75 0) as [state'|e] eqn:Hrec;
    [|vm_compute in Hrec; discriminate].
  exists state'. split; [reflexivity|].
  assert (Hp : 7 < 2 ^ 256) by (vm_compute; reflexivity).
  destruct (performance_round_trip _ _ _ _ _ _ _ _ _ Hrec Hp) as (Hget & Hother & _).
  split; [exact Hget|].
  rewrite Hother; [vm_compute; reflexivity | vm_compute; reflexivity | discriminate].
Defined.

(** X14.  The life of a match.  A registered match reads back with
    status "registered", winner 0, an empty data hash and the registration
    time, and no other match is touched; it cannot be registered again.
    Finalizing it sets the status, winner, data hash and finalization time
    and keeps the sport and registration time; it cannot be finalized
    again. *)
Theorem match_lifecycle now state a id sp s1 :
  performance_oracle.register_match now (Some state) a id sp = Ok s1 ->
  performance_oracle.get_match (Some state) id
    = Err (Move.Abort performance_oracle.E_MATCH_NOT_FOUND) /\
  performance_oracle.get_match (Some s1) id
    = Ok (performance_oracle.mkMatch id sp performance_oracle.STATUS_REGISTERED
            0 [] 0 now 0) /\
  (forall id', id' <> id ->
     performance_oracle.get_match (Some s1) id'
       = performance_oracle.get_match (Some state) id') /\
  (forall now' a' sp' s', performance_oracle.register_match now' (Some s1) a' id sp'
                          <> Ok s') /\
  (forall now2 a2 win hash s2,
     performance_oracle.finalize_match now2 (Some s1) a2 id win hash = Ok s2 ->
     performance_oracle.get_match (Some s2) id
       = Ok (performance_oracle.mkMatch id sp performance_oracle.STATUS_FINALIZED
               win hash 0 now now2) /\
     forall now3 a3 win' hash',
       performance_oracle.authorized s2 a3 = true ->
       performance_oracle.finalize_match now3 (Some s2) a3 id win' hash'
         = Err (Move.Abort performance_oracle.E_MATCH_ALREADY_FINALIZED)).
Proof.
  intros Hreg. apply register_match_inv in Hreg as (_ & Hnone & ->).
  unfold performance_oracle.get_match. simpl. rewrite Hnone, lookup_insert_eq.
  split; [reflexivity|]. split; [reflexivity|]. split; [|split].
  - intros id' Hne. rewrite lookup_insert_ne by congruence. reflexivity.
  - intros now' a' sp' s' Hagain.
    apply register_match_inv in Hagain as (_ & Hfree & _). simpl in Hfree.
    rewrite lookup_insert_eq in Hfree. discriminate.
  - intros now2 a2 win hash s2 Hfin.
    apply finalize_match_inv in Hfin as (_ & m & Hm & _ & ->). simpl in Hm.
    rewrite lookup_insert_eq in Hm. injection Hm as <-. simpl.
    rewrite lookup_insert_eq. split; [reflexivity|].
    intros now3 a3 win' hash' Hauth.
    unfold performance_oracle.finalize_match, Move.assert. simpl.
    unfold performance_oracle.authorized in Hauth. simpl in Hauth.
    unfold performance_oracle.authorized. simpl. rewrite Hauth. simpl.
    rewrite lookup_insert_eq. reflexivity.
Qed.

(** Match [M2] registered at time 3000 on top of match [M1]. *)
Lemma match_lifecycle_witness :
  exists s1,
    performance_oracle.register_match 3000 (Some oracle_finalized) Move.spp_protocol
      [77; 50] 2 = Ok s1 /\
    performance_oracle.get_match (Some s1) [77; 50]
      = Ok (performance_oracle.mkMatch [77; 50] 2 performance_oracle.STATUS_REGISTERED
              0 [] 0 3000 0) /\
    performance_oracle.get_match (Some s1) [77; 49]
      = Ok (performance_oracle.mkMatch [77; 49] 1 performance_oracle.STATUS_FINALIZED
              1 [9] 0 1000 2000).
Proof.
  destruct (performance_oracle.register_match 3000 (Some oracle_finalized) Move.spp_protocol
              [77; 50] 2) as [s1|e] eqn:Hreg; [|vm_compute in Hreg; discriminate].
  exists s1. split; [reflexivity|].
  destruct (match_lifecycle _ _ _ _ _ _ Hreg) as (_ & Hget & Hother & _).
  split; [exact Hget|].
  rewrite Hother by discriminate. vm_compute. reflexivity.
Defined.

(** ** The chain registry: the map and its keys *)

Lemma map_get_None m k : Registry.map_get m k = None <-> ~ In k (map fst m).
Proof.
  induction m as [|[k' e'] rest IH]; simpl.
  - tauto.
  - destruct (decide (k' = k)) as [->|Hne].
    + split; [discriminate | intros H; exfalso; apply H; left; reflexivity].
    + rewrite IH. tauto.
Qed.

Lemma map_get_is_Some m k : In k (map fst m) -> exists e, Registry.map_get m k = Some e.
Proof.
  intros Hin. destruct (Registry.map_get m k) as [e|] eqn:Hg; [eauto|].
  apply map_get_None in Hg. contradiction.
Qed.

Lemma map_get_set_ne m k k' e :
  k' <> k -> Registry.map_get (Registry.map_set m k e) k' = Registry.map_get m k'.
Proof.
  intros Hne. induction m as [|[k0 e0] rest IH]; simpl.
  - destruct (decide (k = k')); [congruence | reflexivity].
  - destruct (decide (k0 = k)) as [->|Hk]; simpl.
    + destruct (decide (k = k')); [congruence | reflexivity].
    + destruct (decide (k0 = k')); [reflexivity | exact IH].
Qed.

Lemma keys_map_set_present m k e :
  In k (map fst m) -> map fst (Registry.map_set m k e) = map fst m.
Proof.
  induction m as [|[k0 e0] rest IH]; simpl; [tauto|].
  intros Hin. destruct (decide (k0 = k)) as [->|Hk]; simpl; [reflexivity|].
  rewrite IH; [reflexivity|]. destruct Hin; [contradiction | assumption].
Qed.

Lemma keys_map_set_absent m k e :
  ~ In k (map fst m) -> map fst (Registry.map_set m k e) = map fst m ++ [k].
Proof.
  induction m as [|[k0 e0] rest IH]; simpl; [reflexivity|].
  intros Hnot. destruct (decide (k0 = k)) as [->|Hk]; simpl; [tauto|].
  rewrite IH; [reflexivity | tauto].
Qed.

Lemma In_map_set m k e k' e' :
  In (k', e') (Registry.map_set m k e) -> (k', e') = (k, e) \/ In (k', e') m.
Proof.
  induction m as [|[k0 e0] rest IH]; simpl.
  - intros [H|[]]. left. congruence.
  - destruct (decide (k0 = k)) as [->|Hk]; simpl.
    + intros [H|H]; [left; congruence | right; right; exact H].
    + intros [H|H]; [right; left; exact H|].
      destruct (IH H); [left | right; right]; assumption.
Qed.

Lemma In_map_delete m k k' e' :
  In (k', e') (Registry.map_delete m k) -> In (k', e') m.
Proof.
  induction m as [|[k0 e0] rest IH]; simpl; [tauto|].
  destruct (decide (k0 = k)) as [->|Hk]; simpl; [tauto|].
  intros [H|H]; [left; exact H | right; apply IH; exact H].
Qed.

Lemma keys_map_delete m k x :
  In x (map fst (Registry.map_delete m k)) -> In x (map fst m).
Proof.
  induction m as [|[k0 e0] rest IH]; simpl; [tauto|].
  destruct (decide (k0 = k)) as [->|Hk]; simpl; [tauto|].
  intros [H|H]; [left; exact H | right; apply IH; exact H].
Qed.

Lemma keys_map_delete_NoDup m k :
  List.NoDup (map fst m) -> List.NoDup (map fst (Registry.map_delete m k)).
Proof.
  induction m as [|[k0 e0] rest IH]; simpl; [intros H; exact H|].
  intros Hnd. apply List.NoDup_cons_iff in Hnd as [Hnot Hnd].
  destruct (decide (k0 = k)) as [->|Hk]; simpl; [exact Hnd|].
  apply List.NoDup_cons_iff. split; [|apply IH; exact Hnd].
  intros Hin. apply Hnot. apply (keys_map_delete rest k). exact Hin.
Qed.

Lemma map_get_delete_eq m k :
  List.NoDup (map fst m) -> Registry.map_get (Registry.map_delete m k) k = None.
Proof.
  induction m as [|[k0 e0] rest IH]; simpl; [reflexivity|].
  intros Hnd. apply List.NoDup_cons_iff in Hnd as [Hnot Hnd].
  destruct (decide (k0 = k)) as [->|Hk]; simpl.
  - apply map_get_None. exact Hnot.
  - rewrite decide_False by exact Hk. apply IH. exact Hnd.
Qed.

Lemma map_get_delete_ne m k k' :
  k' <> k -> Registry.map_get (Registry.map_delete m k) k' = Registry.map_get m k'.
Proof.
  intros Hne. induction m as [|[k0 e0] rest IH]; simpl; [reflexivity|].
  destruct (decide (k0 = k)) as [->|Hk]; simpl.
  - destruct (decide (k = k')); [congruence | reflexivity].
  - destruct (decide (k0 = k')); [reflexivity | exact IH].
Qed.

Lemma keys_map_set_NoDup m k e :
  List.NoDup (map fst m) -> List.NoDup (map fst (Registry.map_set m k e)).
Proof.
  intros Hnd. destruct (in_dec Registry.ChainType_eq_dec k (map fst m)) as [Hin|Hnot].
  - rewrite keys_map_set_present by exact Hin. exact Hnd.
  - rewrite keys_map_set_absent by exact Hnot.
    apply List.NoDup_app; [exact Hnd | repeat constructor; intros [] |].
    intros x Hx [<-|[]]. apply Hnot. exact Hx.
Qed.

(** ** What a probe changes *)

Lemma checkChainHealth_registered s now p c e :
  Registry.map_get (Registry.chains s) c = Some e ->
  exists st',
    Registry.checkChainHealth s now p c
      = Ok (negb (probe_failed p),
            Registry.mkState
              (Registry.map_set (Registry.chains s) c
                 (Registry.mkChainEntry (Registry.adapter e) st'))
              (Registry.config s)
              (Registry.emitted s ++
               (if probe_failed p
                then if (Registry.threshold s <=? Registry.failureCount (Registry.status e) + 1)%Z
                        && Registry.isHealthy (Registry.status e)
                     then [Registry.chain_unhealthy c] else []
                else if (0 <? Registry.failureCount (Registry.status e))%Z
                     then [Registry.chain_recovered c] else []))
              (Registry.created s)) /\
    Registry.chainType st' = Registry.chainType (Registry.status e) /\
    Registry.failureCount st'
      = (if probe_failed p then Registry.failureCount (Registry.status e) + 1 else 0)%Z /\
    Registry.isHealthy st'
      = (if probe_failed p
         then if (Registry.threshold s <=? Registry.failureCount (Registry.status e) + 1)%Z
              then false else Registry.isHealthy (Registry.status e)
         else true).
Proof.
  intros Hg. unfold Registry.checkChainHealth. rewrite Hg.
  destruct p as [[|]|msg]; simpl; eexists; (split; [reflexivity|]); simpl;
    repeat split; reflexivity.
Qed.

Lemma checkChainHealth_unregistered s now p c :
  Registry.map_get (Registry.chains s) c = None ->
  Registry.checkChainHealth s now p c = Err (Registry.not_registered c).
Proof. intros Hg. unfold Registry.checkChainHealth. rewrite Hg. reflexivity. Qed.

Lemma probed_unregistered s now p c :
  Registry.map_get (Registry.chains s) c = None -> Registry.probed s now p c = s.
Proof.
  intros Hg. unfold Registry.probed. rewrite checkChainHealth_unregistered by exact Hg.
  reflexivity.
Qed.

Lemma probed_config s now p c :
  Registry.config (Registry.probed s now p c) = Registry.config s.
Proof.
  destruct (Registry.map_get (Registry.chains s) c) as [e|] eqn:Hg.
  - destruct (checkChainHealth_registered s now p c e Hg) as (st' & Hc & _).
    unfold Registry.probed. rewrite Hc. reflexivity.
  - rewrite probed_unregistered by exact Hg. reflexivity.
Qed.

Lemma probed_keys s now p c :
  map fst (Registry.chains (Registry.probed s now p c)) = map fst (Registry.chains s).
Proof.
  destruct (Registry.map_get (Registry.chains s) c) as [e|] eqn:Hg.
  - destruct (checkChainHealth_registered s now p c e Hg) as (st' & Hc & _).
    unfold Registry.probed. rewrite Hc. simpl.
    apply keys_map_set_present. apply map_get_In in Hg.
    apply (in_map fst) in Hg. exact Hg.
  - rewrite probed_unregistered by exact Hg. reflexivity.
Qed.

Lemma probed_get_ne s now p c c' :
  c' <> c ->
  Registry.map_get (Registry.chains (Registry.probed s now p c)) c'
    = Registry.map_get (Registry.chains s) c'.
Proof.
  intros Hne. destruct (Registry.map_get (Registry.chains s) c) as [e|] eqn:Hg.
  - destruct (checkChainHealth_registered s now p c e Hg) as (st' & Hc & _).
    unfold Registry.probed. rewrite Hc. simpl. apply map_get_set_ne. exact Hne.
  - rewrite probed_unregistered by exact Hg. reflexivity.
Qed.

Lemma probed_get_local s1 s2 now p c :
  Registry.map_get (Registry.chains s1) c = Registry.map_get (Registry.chains s2) c ->
  Registry.config s1 = Registry.config s2 ->
  Registry.map_get (Registry.chains (Registry.probed s1 now p c)) c
    = Registry.map_get (Registry.chains (Registry.probed s2 now p c)) c.
Proof.
  intros Hg Hcfg. unfold Registry.probed, Registry.checkChainHealth, Registry.threshold.
  rewrite Hg, Hcfg.
  destruct (Registry.map_get (Registry.chains s2) c) as [e|] eqn:He; simpl.
  - destruct p as [[|]|msg]; simpl; rewrite !map_get_set_eq; reflexivity.
  - congruence.
Qed.

(** X15.  A health check of one chain concerns that chain only.  It
    throws exactly when the chain is not registered, and then changes
    nothing; otherwise it returns what the probe resolved to ([false] when
    the probe threw), and leaves the configuration, the registered chains
    and their order, and the status, health and adapter of every other
    chain as they were. *)
Theorem health_check_is_local s now p c :
  (Registry.isChainRegistered s c = false ->
   Registry.checkChainHealth s now p c = Err (Registry.not_registered c)) /\
  (Registry.isChainRegistered s c = true ->
   exists s',
     Registry.checkChainHealth s now p c = Ok (negb (probe_failed p), s') /\
     Registry.config s' = Registry.config s /\
     Registry.getRegisteredChains s' = Registry.getRegisteredChains s /\
     forall c', c' <> c ->
       Registry.getChainStatus s' c' = Registry.getChainStatus s c' /\
       Registry.isChainHealthy s' c' = Registry.isChainHealthy s c' /\
       Registry.map_get (Registry.chains s') c' = Registry.map_get (Registry.chains s) c').
Proof.
  unfold Registry.isChainRegistered.
  destruct (Registry.map_get (Registry.chains s) c) as [e|] eqn:Hg.
  - split; [discriminate|]. intros _.
    destruct (checkChainHealth_registered s now p c e Hg) as (st' & Hc & _).
    eexists. split; [exact Hc|]. simpl. split; [reflexivity|]. split.
    + unfold Registry.getRegisteredChains. simpl. apply keys_map_set_present.
      apply map_get_In in Hg. apply (in_map fst) in Hg. exact Hg.
    + intros c' Hne.
      unfold Registry.getChainStatus, Registry.isChainHealthy. simpl.
      rewrite map_get_set_ne by exact Hne. repeat split.
  - split; [|discriminate]. intros _. apply checkChainHealth_unregistered. exact Hg.
Qed.

(** Arbitrum is probed in the registry of Arbitrum and BNB; Aptos is not
    registered. *)
Lemma health_check_is_local_witness :
  Registry.checkChainHealth registry_ab 10 (Registry.Resolves false) Registry.APTOS
    = Err "Chain aptos not registered"%string /\
  exists s',
    Registry.checkChainHealth registry_ab 10 (Registry.Throws "timeout") Registry.ARBITRUM
      = Ok (false, s') /\
    Registry.getRegisteredChains s' = [Registry.ARBITRUM; Registry.BNB] /\
    Registry.getChainStatus s' Registry.BNB
      = Ok (Registry.mkChainStatus Registry.BNB true 1 0 None).
Proof.
  split.
  - destruct (health_check_is_local registry_ab 10 (Registry.Resolves false) Registry.APTOS)
      as [H _].
    apply H. reflexivity.
  - destruct (health_check_is_local registry_ab 10 (Registry.Throws "timeout")
                Registry.ARBITRUM) as [_ H].
    destruct H as (s' & Hc & _ & Hk & Hother); [reflexivity|].
    exists s'. split; [exact Hc|]. split; [rewrite Hk; reflexivity|].
    destruct (Hother Registry.BNB) as (-> & _); [discriminate | reflexivity].
Defined.

(** ** The registry under arbitrary calls *)

Lemma entry_well_formed_mono (l l' : N) c e :
  (l <= l')%N -> entry_well_formed l c e -> entry_well_formed l' c e.
Proof.
  intros Hl (H1 & H2 & H3 & H4 & H5 & H6).
  repeat split; try assumption. lia.
Qed.

Lemma probed_well_formed s now p c :
  registry_well_formed s -> registry_well_formed (Registry.probed s now p c).
Proof.
  intros [Hnd Hall].
  destruct (Registry.map_get (Registry.chains s) c) as [e|] eqn:Hg.
  - destruct (checkChainHealth_registered s now p c e Hg) as (st' & Hc & Hct & Hfc & Hh).
    split; [rewrite probed_keys; exact Hnd|].
    unfold Registry.probed. rewrite Hc. simpl.
    intros c' e' Hin. apply In_map_set in Hin as [[= -> ->]|Hin]; [|apply Hall; exact Hin].
    destruct (Hall c e (map_get_In _ _ _ Hg)) as (H1 & H2 & H3 & H4 & H5 & H6).
    split; [simpl; congruence|]. split; [exact H2|]. split; [exact H3|].
    split; [exact H4|]. simpl. rewrite Hfc, Hh.
    destruct (probe_failed p); split; try lia; discriminate.
  - rewrite probed_unregistered by exact Hg. split; assumption.
Qed.

Lemma check_each_probes (now : Registry.ChainType -> Z) probe :
  forall (ks : list Registry.ChainType) s acc,
  List.NoDup ks ->
  (forall c, In c ks -> In c (map fst (Registry.chains s))) ->
  (forall c, In c ks -> ~ In c (map fst acc)) ->
  exists s',
    Registry.check_each s now probe ks acc
      = Ok (acc ++ map (fun c => (c, negb (probe_failed (probe c)))) ks, s') /\
    Registry.config s' = Registry.config s /\
    map fst (Registry.chains s') = map fst (Registry.chains s) /\
    (forall c, In c ks ->
       Registry.map_get (Registry.chains s') c
         = Registry.map_get (Registry.chains (Registry.probed s (now c) (probe c) c)) c) /\
    (forall c, ~ In c ks ->
       Registry.map_get (Registry.chains s') c = Registry.map_get (Registry.chains s) c) /\
    (registry_well_formed s -> registry_well_formed s').
Proof.
  induction ks as [|c rest IH]; intros s acc Hnd Hreg Hfresh.
  - exists s. simpl. rewrite app_nil_r.
    split; [reflexivity|]. split; [reflexivity|]. split; [reflexivity|].
    split; [intros c []|]. split; [reflexivity | tauto].
  - apply List.NoDup_cons_iff in Hnd as [Hnot Hnd].
    destruct (map_get_is_Some _ _ (Hreg c (or_introl eq_refl))) as (e & Hg).
    destruct (checkChainHealth_registered s (now c) (probe c) c e Hg) as (st' & Hc & _).
    assert (Hs1 : Registry.probed s (now c) (probe c) c
                  = Registry.mkState
                      (Registry.map_set (Registry.chains s) c
                         (Registry.mkChainEntry (Registry.adapter e) st'))
                      (Registry.config s)
                      (Registry.emitted s ++
                       (if probe_failed (probe c)
                        then if (Registry.threshold s
                                   <=? Registry.failureCount (Registry.status e) + 1)%Z
                                && Registry.isHealthy (Registry.status e)
                             then [Registry.chain_unhealthy c] else []
                        else if (0 <? Registry.failureCount (Registry.status e))%Z
                             then [Registry.chain_recovered c] else []))
                      (Registry.created s))
      by (unfold Registry.probed; rewrite Hc; reflexivity).
    simpl. rewrite Hc. simpl. rewrite <- Hs1.
    assert (Hset : Registry.results_set acc c (negb (probe_failed (probe c)))
                   = acc ++ [(c, negb (probe_failed (probe c)))]).
    { assert (Hc0 : ~ In c (map fst acc)) by (apply Hfresh; left; reflexivity).
      clear -Hc0. induction acc as [|[k v] acc IHa]; simpl; [reflexivity|].
      simpl in Hc0. rewrite decide_False by tauto. rewrite IHa by tauto. reflexivity. }
    rewrite Hset.
    destruct (IH (Registry.probed s (now c) (probe c) c)
                (acc ++ [(c, negb (probe_failed (probe c)))]) Hnd)
      as (s' & Hrun & Hcfg & Hkeys & Hin & Hout & Hwf).
    + intros c' Hc'. rewrite probed_keys. apply Hreg. right. exact Hc'.
    + intros c' Hc'. rewrite map_app, in_app_iff. simpl.
      intros [H|[H|[]]]; [apply (Hfresh c'); [right; exact Hc' | exact H]|].
      subst c'. contradiction.
    + exists s'. rewrite Hrun, <- app_assoc. simpl.
      split; [reflexivity|]. split; [rewrite Hcfg; apply probed_config|].
      split; [rewrite Hkeys; apply probed_keys|]. split; [|split].
      * intros c' [<-|Hc'].
        -- apply Hout. exact Hnot.
        -- rewrite Hin by exact Hc'. apply probed_get_local.
           ++ apply probed_get_ne. intros ->. contradiction.
           ++ apply probed_config.
      * intros c' Hc'. rewrite Hout by tauto. apply probed_get_ne.
        intros ->. apply Hc'. left. reflexivity.
      * intros Hw. apply Hwf. apply probed_well_formed. exact Hw.
Qed.

Lemma registerChain_inv s now init_error c s' :
  Registry.registerChain s now init_error c = Ok s' ->
  c <> Registry.SOLANA /\ init_error = None /\
  s' = Registry.mkState
         (Registry.map_set (Registry.chains s) c
            (Registry.mkChainEntry (Registry.mkAdapter c (Registry.created s))
               (Registry.mkChainStatus c true now 0 None)))
         (Registry.config s)
         (Registry.emitted s ++ [Registry.chain_registered c])
         (N.succ (Registry.created s)).
Proof.
  unfold Registry.registerChain.
  destruct c; simpl; try discriminate;
    (destruct init_error; simpl; [discriminate|]);
    intros [= <-]; (split; [discriminate|]); split; reflexivity.
Qed.

Lemma registerChain_ok s now c :
  c <> Registry.SOLANA ->
  Registry.registerChain s now None c
  = Ok (Registry.mkState
          (Registry.map_set (Registry.chains s) c
             (Registry.mkChainEntry (Registry.mkAdapter c (Registry.created s))
                (Registry.mkChainStatus c true now 0 None)))
          (Registry.config s)
          (Registry.emitted s ++ [Registry.chain_registered c])
          (N.succ (Registry.created s))).
Proof. intros Hc. destruct c; try reflexivity. contradiction. Qed.

Lemma registry_step_well_formed s op :
  registry_well_formed s -> registry_well_formed (registry_step s op).
Proof.
  intros Hwf. destruct op as [p|now init_error c|c|now p c|now probe]; simpl.
  - exact Hwf.
  - destruct (Registry.registerChain s now init_error c) as [s'|err] eqn:Hreg;
      simpl; [|exact Hwf].
    apply registerChain_inv in Hreg as (Hsol & _ & ->).
    destruct Hwf as [Hnd Hall].
    split; simpl; [apply keys_map_set_NoDup; exact Hnd|].
    intros c' e' Hin. apply In_map_set in Hin as [[= -> ->]|Hin].
    + repeat split; simpl; try assumption; try discriminate; lia.
    + apply (entry_well_formed_mono (Registry.created s)); [lia | apply Hall; exact Hin].
  - destruct Hwf as [Hnd Hall]. unfold Registry.unregisterChain.
    destruct (Registry.map_get (Registry.chains s) c); [|split; assumption].
    split; simpl; [apply keys_map_delete_NoDup; exact Hnd|].
    intros c' e' Hin. apply Hall. apply In_map_delete in Hin. exact Hin.
  - apply probed_well_formed. exact Hwf.
  - unfold Registry.checkAllChainsHealth, Registry.getRegisteredChains.
    destruct (check_each_probes now probe (map fst (Registry.chains s)) s [])
      as (s' & Hrun & _ & _ & _ & _ & Hw).
    + destruct Hwf as [Hnd _]. exact Hnd.
    + intros c Hc. exact Hc.
    + intros c _ [].
    + rewrite Hrun. apply Hw. exact Hwf.
Qed.

(** X16.  From the registry as constructed, whatever calls are made
    ([configure], [registerChain], [unregisterChain], [checkChainHealth],
    [checkAllChainsHealth]): no chain is registered twice; every entry's
    status and adapter are those of the chain it is filed under; Solana is
    never registered; failure counts are never negative, and a chain marked
    unhealthy has failed at least once since its last success. *)
Theorem registry_stays_well_formed (ops : list registry_op) :
  registry_well_formed (registry_run Registry.initial ops).
Proof.
  assert (H0 : registry_well_formed Registry.initial).
  { split; simpl; [constructor | intros c e []]. }
  revert H0. generalize Registry.initial.
  induction ops as [|op ops IH]; intros s Hwf; [exact Hwf|].
  simpl. apply IH. apply registry_step_well_formed. exact Hwf.
Qed.

(** X17.  [checkAllChainsHealth] on a well-formed registry never throws;
    it reports one result per registered chain, in the order of
    registration, each being what that chain's probe resolved to; the
    registered chains and the configuration are unchanged, and every chain
    ends with the status a single [checkChainHealth] of it alone would
    leave. *)
Theorem check_all_probes_each_once s (now : Registry.ChainType -> Z)
    (probe : Registry.ChainType -> Registry.Probe) :
  registry_well_formed s ->
  exists s',
    Registry.checkAllChainsHealth s now probe
      = Ok (map (fun c => (c, negb (probe_failed (probe c))))
              (Registry.getRegisteredChains s), s') /\
    Registry.config s' = Registry.config s /\
    Registry.getRegisteredChains s' = Registry.getRegisteredChains s /\
    forall c,
      Registry.getChainStatus s' c
        = Registry.getChainStatus (Registry.probed s (now c) (probe c) c) c.
Proof.
  intros [Hnd Hall]. unfold Registry.checkAllChainsHealth, Registry.getRegisteredChains.
  destruct (check_each_probes now probe (map fst (Registry.chains s)) s [] Hnd)
    as (s' & Hrun & Hcfg & Hkeys & Hin & Hout & _).
  - intros c Hc. exact Hc.
  - intros c _ [].
  - exists s'. split; [exact Hrun|]. split; [exact Hcfg|]. split; [exact Hkeys|].
    intros c. unfold Registry.getChainStatus.
    destruct (in_dec Registry.ChainType_eq_dec c (map fst (Registry.chains s))) as [Hc|Hc].
    + rewrite Hin by exact Hc. reflexivity.
    + rewrite Hout by exact Hc.
      rewrite probed_unregistered by (apply map_get_None; exact Hc). reflexivity.
Qed.

(** Arbitrum, already failed three times, throws again while BNB answers. *)
Lemma check_all_probes_each_once_witness :
  exists s',
    Registry.checkAllChainsHealth registry_ab_down
      (fun c => match c with Registry.ARBITRUM => 40%Z | _ => 41%Z end)
      (fun c => match c with
                | Registry.ARBITRUM => Registry.Throws "timeout"
                | _ => Registry.Resolves true
                end)
      = Ok ([(Registry.ARBITRUM, false); (Registry.BNB, true)], s') /\
    Registry.getRegisteredChains s' = [Registry.ARBITRUM; Registry.BNB] /\
    Registry.getChainStatus s' Registry.ARBITRUM
      = Ok (Registry.mkChainStatus Registry.ARBITRUM false 40 4 (Some "timeout"%string)) /\
    Registry.getChainStatus s' Registry.BNB
      = Ok (Registry.mkChainStatus Registry.BNB true 41 0 None).
Proof.
  assert (Hwf : registry_well_formed registry_ab_down).
  { split.
    - vm_compute. repeat constructor; simpl; intuition discriminate.
    - intros c e Hin. vm_compute in Hin.
      destruct Hin as [[= <- <-]|[[= <- <-]|[]]];
        repeat split; simpl; try discriminate; try reflexivity. }
  destruct (check_all_probes_each_once registry_ab_down
              (fun c => match c with Registry.ARBITRUM => 40%Z | _ => 41%Z end)
              (fun c => match c with
                        | Registry.ARBITRUM => Registry.Throws "timeout"
                        | _ => Registry.Resolves true
                        end) Hwf) as (s' & Hrun & _ & Hkeys & Hst).
  exists s'. split; [exact Hrun|]. split; [rewrite Hkeys; reflexivity|].
  split; rewrite Hst; reflexivity.
Defined.

(** ** Counting chains *)

Lemma In_map_get m k e :
  List.NoDup (map fst m) -> In (k, e) m -> Registry.map_get m k = Some e.
Proof.
  induction m as [|[k0 e0] rest IH]; simpl; [tauto|].
  intros Hnd Hin. apply List.NoDup_cons_iff in Hnd as [Hnot Hnd].
  destruct Hin as [[= -> ->]|Hin].
  - rewrite decide_True by reflexivity. reflexivity.
  - rewrite decide_False.
    + apply IH; assumption.
    + intros ->. apply Hnot. apply (in_map fst) in Hin. exact Hin.
Qed.

Lemma filter_partition_length {A : Type} (f : A -> bool) (l : list A) :
  (length (List.filter f l) + length (List.filter (fun x => negb (f x)) l))%nat = length l.
Proof.
  induction l as [|x l IH]; simpl; [reflexivity|].
  destruct (f x); simpl; lia.
Qed.

Lemma filter_map_length {A B : Type} (g : A -> B) (f : B -> bool) (l : list A) :
  length (List.filter f (map g l)) = length (List.filter (fun x => f (g x)) l).
Proof.
  induction l as [|x l IH]; simpl; [reflexivity|].
  destruct (f (g x)); simpl; rewrite IH; reflexivity.
Qed.

Lemma active_chain_In s c :
  In c (Registry.getActiveChains s) <->
  exists k e, In (k, e) (Registry.chains s) /\
    Registry.isHealthy (Registry.status e) = true /\
    Registry.chainType (Registry.status e) = c.
Proof.
  unfold Registry.getActiveChains. rewrite in_map_iff. split.
  - intros (e & Hc & Hin). apply filter_In in Hin as [Hin Hh].
    apply in_map_iff in Hin as ([k e'] & He & Hin). simpl in He. subst e'.
    exists k, e. repeat split; assumption.
  - intros (k & e & Hin & Hh & Hc). exists e. split; [exact Hc|].
    apply filter_In. split; [|exact Hh].
    apply in_map_iff. exists (k, e). split; [reflexivity | exact Hin].
Qed.

(** X18.  The registry's counts agree with each other on a well-formed
    registry: healthy and unhealthy chains add up to the total, which is the
    number of registered chains and at most four; the healthy count is the
    number of active chains; a chain is listed as registered, or as active,
    exactly when [isChainRegistered], or [isChainHealthy], says so; and a
    healthy adapter can be found exactly when some chain is active. *)
Theorem registry_statistics s :
  registry_well_formed s ->
  (Registry.healthyChains (Registry.getStatistics s)
   + Registry.unhealthyChains (Registry.getStatistics s)
   = Registry.totalChains (Registry.getStatistics s))%Z /\
  Registry.totalChains (Registry.getStatistics s)
    = Z.of_nat (length (Registry.getRegisteredChains s)) /\
  (Registry.totalChains (Registry.getStatistics s) <= 4)%Z /\
  Registry.healthyChains (Registry.getStatistics s)
    = Z.of_nat (length (Registry.getActiveChains s)) /\
  (forall c, In c (Registry.getRegisteredChains s) <-> Registry.isChainRegistered s c = true) /\
  (forall c, In c (Registry.getActiveChains s) <-> Registry.isChainHealthy s c = true) /\
  ((exists a, Registry.getHealthyAdapter s = Ok a) <-> Registry.getActiveChains s <> []).
Proof.
  intros [Hnd Hall].
  unfold Registry.getStatistics, Registry.getRegisteredChains. simpl.
  split; [|split; [|split; [|split; [|split; [|split]]]]].
  - rewrite <- Nat2Z.inj_add, filter_partition_length, !length_map. reflexivity.
  - rewrite length_map. reflexivity.
  - assert (Hlen : (length (map fst (Registry.chains s))
                    <= length Registry.getSupportedChains)%nat).
    { apply List.NoDup_incl_length; [exact Hnd|].
      intros c Hc. apply in_map_iff in Hc as ([k e] & Hk & Hin). simpl in Hk. subst k.
      destruct (Hall c e Hin) as (_ & _ & Hsol & _).
      destruct c; simpl; tauto. }
    rewrite length_map in Hlen. simpl in Hlen. lia.
  - unfold Registry.getActiveChains. rewrite filter_map_length, length_map. reflexivity.
  - intros c. unfold Registry.isChainRegistered. split.
    + intros Hc. apply map_get_is_Some in Hc as (e & ->). reflexivity.
    + destruct (Registry.map_get (Registry.chains s) c) as [e|] eqn:Hg; [|discriminate].
      intros _. apply map_get_In in Hg. apply (in_map fst) in Hg. exact Hg.
  - intros c. rewrite active_chain_In. unfold Registry.isChainHealthy. split.
    + intros (k & e & Hin & Hh & Hc).
      destruct (Hall k e Hin) as (Hk & _). rewrite Hk in Hc. subst k.
      rewrite (In_map_get _ _ _ Hnd Hin). exact Hh.
    + destruct (Registry.map_get (Registry.chains s) c) as [e|] eqn:Hg; [|discriminate].
      intros Hh. apply map_get_In in Hg. exists c, e.
      destruct (Hall c e Hg) as (Hk & _). repeat split; assumption.
  - split.
    + intros (a & Ha). apply getHealthyAdapter_Ok in Ha as (k & e & Hin & Hh & _).
      intros Hnil.
      assert (Hc : In (Registry.chainType (Registry.status e)) (Registry.getActiveChains s))
        by (apply active_chain_In; exists k, e; repeat split; assumption).
      rewrite Hnil in Hc. destruct Hc.
    + intros Hne. destruct (Registry.getActiveChains s) as [|c rest] eqn:Hact; [congruence|].
      assert (Hc : In c (Registry.getActiveChains s)) by (rewrite Hact; left; reflexivity).
      apply active_chain_In in Hc as (k & e & Hin & Hh & _).
      apply (getHealthyAdapter_some_healthy s k e Hin Hh).
Qed.

(** Arbitrum down and BNB up. *)
Lemma registry_statistics_witness :
  Registry.getStatistics registry_ab_down
    = Registry.mkStatistics 2 1 1 (Some Registry.ARBITRUM) Registry.getSupportedChains /\
  Registry.getActiveChains registry_ab_down = [Registry.BNB] /\
  (Registry.healthyChains (Registry.getStatistics registry_ab_down)
   + Registry.unhealthyChains (Registry.getStatistics registry_ab_down)
   = Registry.totalChains (Registry.getStatistics registry_ab_down))%Z /\
  exists a, Registry.getHealthyAdapter registry_ab_down = Ok a.
Proof.
  assert (Hwf : registry_well_formed registry_ab_down).
  { split.
    - vm_compute. repeat constructor; simpl; intuition discriminate.
    - intros c e Hin. vm_compute in Hin.
      destruct Hin as [[= <- <-]|[[= <- <-]|[]]];
        repeat split; simpl; try discriminate; try reflexivity. }
  destruct (registry_statistics registry_ab_down Hwf) as (Hsum & _ & _ & _ & _ & _ & Hfail).
  split; [reflexivity|]. split; [reflexivity|]. split; [exact Hsum|].
  apply Hfail. discriminate.
Defined.

(** ** Failures in a row *)

Lemma failures_in_a_row c : forall (probes : list (Z * Registry.Probe)) s e,
  Registry.map_get (Registry.chains s) c = Some e ->
  forallb (fun p => probe_failed (snd p)) probes = true ->
  exists st,
    Registry.map_get (Registry.chains (probe_repeatedly s probes c)) c
      = Some (Registry.mkChainEntry (Registry.adapter e) st) /\
    Registry.config (probe_repeatedly s probes c) = Registry.config s /\
    Registry.failureCount st
      = (Registry.failureCount (Registry.status e) + Z.of_nat (length probes))%Z /\
    Registry.isHealthy st
      = Registry.isHealthy (Registry.status e)
        && ((Z.of_nat (length probes) =? 0)%Z
            || (Registry.failureCount (Registry.status e) + Z.of_nat (length probes)
                <? Registry.threshold s)%Z) /\
    Registry.emitted (probe_repeatedly s probes c)
      = Registry.emitted s ++
        (if Registry.isHealthy (Registry.status e)
            && (1 <=? Z.of_nat (length probes))%Z
            && (Registry.threshold s
                <=? Registry.failureCount (Registry.status e) + Z.of_nat (length probes))%Z
         then [Registry.chain_unhealthy c] else []).
Proof.
  induction probes as [|[now p] rest IH]; intros s e Hg Hall.
  - exists (Registry.status e). simpl.
    destruct e as [a st]. simpl.
    split; [exact Hg|]. split; [reflexivity|]. split; [lia|].
    split; [rewrite andb_true_r; reflexivity|].
    rewrite andb_false_r. simpl. rewrite app_nil_r. reflexivity.
  - simpl in Hall. apply andb_true_iff in Hall as [Hp Hrest].
    destruct (checkChainHealth_registered s now p c e Hg) as (st1 & Hc & _ & Hfc & Hh).
    rewrite Hp in Hc, Hfc, Hh. simpl in Hc.
    assert (Hs1 : Registry.probed s now p c =
                  Registry.mkState
                    (Registry.map_set (Registry.chains s) c
                       (Registry.mkChainEntry (Registry.adapter e) st1))
                    (Registry.config s)
                    (Registry.emitted s ++
                     (if (Registry.threshold s
                            <=? Registry.failureCount (Registry.status e) + 1)%Z
                         && Registry.isHealthy (Registry.status e)
                      then [Registry.chain_unhealthy c] else []))
                    (Registry.created s))
      by (unfold Registry.probed; rewrite Hc; reflexivity).
    assert (Hg1 : Registry.map_get (Registry.chains (Registry.probed s now p c)) c
                  = Some (Registry.mkChainEntry (Registry.adapter e) st1))
      by (rewrite Hs1; simpl; apply map_get_set_eq).
    destruct (IH (Registry.probed s now p c) _ Hg1 Hrest)
      as (st & Hget & Hcfg & Hcount & Hhealth & Hev).
    assert (Hthr : Registry.threshold (Registry.probed s now p c) = Registry.threshold s)
      by (unfold Registry.threshold; rewrite probed_config; reflexivity).
    rewrite Hthr in Hhealth, Hev. simpl in Hget, Hcount, Hhealth, Hev.
    rewrite Hfc in Hcount, Hhealth, Hev. rewrite Hh in Hhealth, Hev.
    exists st. unfold probe_repeatedly. simpl.
    fold (probe_repeatedly (Registry.probed s now p c) rest c).
    split; [exact Hget|]. split; [rewrite Hcfg; apply probed_config|].
    split; [rewrite Hcount; lia|].
    set (n := Registry.failureCount (Registry.status e)) in *.
    set (T := Registry.threshold s) in *.
    set (h := Registry.isHealthy (Registry.status e)) in *.
    set (k := length rest) in *.
    split.
    + rewrite Hhealth. clear.
      destruct (Z.leb_spec T (n + 1)), h; simpl;
        repeat match goal with
        | |- context [(?a =? ?b)%Z] => destruct (Z.eqb_spec a b); simpl
        | |- context [(?a <? ?b)%Z] => destruct (Z.ltb_spec a b); simpl
        end; try reflexivity; lia.
    + rewrite Hev. rewrite Hs1 at 1. simpl. rewrite <- app_assoc. f_equal. clear.
      destruct (Z.leb_spec T (n + 1)), h; simpl;
        repeat match goal with
        | |- context [(?a <=? ?b)%Z] => destruct (Z.leb_spec a b); simpl
        end; try reflexivity; lia.
Qed.

(** X19.  Failures in a row.  A healthy chain with failure count 0 that
    fails [k >= 1] probes in a row ends with failure count [k]; it is still
    healthy exactly when [k] is below the failure threshold, and the
    "unhealthy" event has been emitted once if the threshold was reached and
    not at all otherwise.  The threshold is [maxFailures], and 3 when that
    is absent or 0. *)
Theorem consecutive_failures s (probes : list (Z * Registry.Probe)) c e :
  Registry.map_get (Registry.chains s) c = Some e ->
  Registry.isHealthy (Registry.status e) = true ->
  Registry.failureCount (Registry.status e) = 0%Z ->
  probes <> [] ->
  forallb (fun p => probe_failed (snd p)) probes = true ->
  exists st,
    Registry.getChainStatus (probe_repeatedly s probes c) c = Ok st /\
    Registry.failureCount st = Z.of_nat (length probes) /\
    Registry.isHealthy st = (Z.of_nat (length probes) <? Registry.threshold s)%Z /\
    Registry.isChainHealthy (probe_repeatedly s probes c) c
      = (Z.of_nat (length probes) <? Registry.threshold s)%Z /\
    Registry.emitted (probe_repeatedly s probes c)
      = Registry.emitted s ++
        (if (Registry.threshold s <=? Z.of_nat (length probes))%Z
         then [Registry.chain_unhealthy c] else []) /\
    Registry.threshold s
      = match Registry.maxFailures (Registry.config s) with
        | Some 0%Z | None => 3%Z
        | Some n => n
        end.
Proof.
  intros Hg Hh Hn Hne Hall.
  destruct (failures_in_a_row c probes s e Hg Hall)
    as (st & Hget & _ & Hcount & Hhealth & Hev).
  rewrite Hn, Hh in *. simpl in Hcount, Hhealth, Hev.
  assert (Hk : (1 <= Z.of_nat (length probes))%Z)
    by (destruct probes; [congruence | simpl length; lia]).
  assert (Hk0 : (Z.of_nat (length probes) =? 0)%Z = false) by (apply Z.eqb_neq; lia).
  assert (Hk1 : (1 <=? Z.of_nat (length probes))%Z = true) by (apply Z.leb_le; lia).
  rewrite Hk0 in Hhealth. rewrite Hk1 in Hev. simpl in Hhealth, Hev.
  exists st. unfold Registry.getChainStatus, Registry.isChainHealthy. rewrite Hget. simpl.
  split; [reflexivity|]. split; [exact Hcount|]. split; [exact Hhealth|].
  split; [exact Hhealth|]. split; [exact Hev|].
  unfold Registry.threshold. destruct (Registry.maxFailures (Registry.config s)) as [[| |]|];
    reflexivity.
Qed.

(** Two failures of Arbitrum leave it healthy under the default threshold
    of 3; four leave it unhealthy with one event. *)
Lemma consecutive_failures_witness :
  Registry.isChainHealthy
    (probe_repeatedly registry_ab
       [(10%Z, Registry.Resolves false); (20%Z, Registry.Throws "timeout")]
       Registry.ARBITRUM) Registry.ARBITRUM = true /\
  Registry.isChainHealthy
    (probe_repeatedly registry_ab
       [(10%Z, Registry.Resolves false); (20%Z, Registry.Throws "timeout");
        (30%Z, Registry.Resolves false); (40%Z, Registry.Resolves false)]
       Registry.ARBITRUM) Registry.ARBITRUM = false /\
  Registry.emitted
    (probe_repeatedly registry_ab
       [(10%Z, Registry.Resolves false); (20%Z, Registry.Throws "timeout");
        (30%Z, Registry.Resolves false); (40%Z, Registry.Resolves false)]
       Registry.ARBITRUM)
  = [Registry.chain_registered Registry.ARBITRUM; Registry.chain_registered Registry.BNB;
     Registry.chain_unhealthy Registry.ARBITRUM].
Proof.
  assert (Hg : Registry.map_get (Registry.chains registry_ab) Registry.ARBITRUM
               = Some (Registry.mkChainEntry (Registry.mkAdapter Registry.ARBITRUM 0)
                         (Registry.mkChainStatus Registry.ARBITRUM true 0 0 None)))
    by reflexivity.
  assert (H2 : [(10%Z, Registry.Resolves false); (20%Z, Registry.Throws "timeout")] <> [])
    by discriminate.
  assert (H4 : [(10%Z, Registry.Resolves false); (20%Z, Registry.Throws "timeout");
                (30%Z, Registry.Resolves false); (40%Z, Registry.Resolves false)] <> [])
    by discriminate.
  split; [|split].
  - destruct (consecutive_failures registry_ab _ _ _ Hg eq_refl eq_refl H2 eq_refl)
      as (st & _ & _ & _ & Hh & _).
    rewrite Hh. reflexivity.
  - destruct (consecutive_failures registry_ab _ _ _ Hg eq_refl eq_refl H4 eq_refl)
      as (st & _ & _ & _ & Hh & _).
    rewrite Hh. reflexivity.
  - destruct (consecutive_failures registry_ab _ _ _ Hg eq_refl eq_refl H4 eq_refl)
      as (st & _ & _ & _ & _ & Hev & _).
    rewrite Hev. reflexivity.
Defined.

(** ** Registering and unregistering *)

(** X20.  Registering a supported chain on a well-formed registry files
    a fresh adapter under it, healthy with failure count 0, which
    [getAdapter] returns; a chain registered before keeps its place in the
    order of the chains and a new one goes last; the other chains are
    untouched.  Unregistering it again makes [getAdapter] throw and leaves
    the other chains as they were before the registration; unregistering a
    chain that is not registered changes nothing.  Solana is refused, and a
    failed initialisation is passed on. *)
Theorem register_round_trip s now c :
  registry_well_formed s ->
  c <> Registry.SOLANA ->
  (exists s',
     Registry.registerChain s now None c = Ok s' /\
     Registry.getAdapter s' c = Ok (Registry.mkAdapter c (Registry.created s)) /\
     Registry.getChainStatus s' c = Ok (Registry.mkChainStatus c true now 0 None) /\
     Registry.getRegisteredChains s'
       = (if Registry.isChainRegistered s c
          then Registry.getRegisteredChains s
          else Registry.getRegisteredChains s ++ [c]) /\
     (forall c', c' <> c ->
        Registry.getChainStatus s' c' = Registry.getChainStatus s c') /\
     Registry.getAdapter (Registry.unregisterChain s' c) c
       = Err (Registry.not_registered c) /\
     Registry.isChainRegistered (Registry.unregisterChain s' c) c = false /\
     (forall c', c' <> c ->
        Registry.getChainStatus (Registry.unregisterChain s' c) c'
          = Registry.getChainStatus s c') /\
     Registry.unregisterChain (Registry.unregisterChain s' c) c
       = Registry.unregisterChain s' c) /\
  (forall init_error,
     Registry.registerChain s now init_error Registry.SOLANA
       = Err "Unsupported chain type: solana"%string) /\
  (forall e, Registry.registerChain s now (Some e) c = Err e).
Proof.
  intros [Hnd Hall] Hsol. split; [|split].
  - eexists. split; [apply registerChain_ok; exact Hsol|].
    assert (Hnd' : List.NoDup (map fst
              (Registry.map_set (Registry.chains s) c
                 (Registry.mkChainEntry (Registry.mkAdapter c (Registry.created s))
                    (Registry.mkChainStatus c true now 0 None)))))
      by (apply keys_map_set_NoDup; exact Hnd).
    unfold Registry.getAdapter, Registry.getChainStatus, Registry.getRegisteredChains,
      Registry.isChainRegistered, Registry.unregisterChain. simpl.
    rewrite !map_get_set_eq. simpl.
    rewrite (map_get_delete_eq _ c Hnd').
    split; [reflexivity|]. split; [reflexivity|]. split.
    { destruct (Registry.map_get (Registry.chains s) c) as [e|] eqn:Hg.
      - apply keys_map_set_present. apply map_get_In in Hg.
        apply (in_map fst) in Hg. exact Hg.
      - apply keys_map_set_absent. apply map_get_None. exact Hg. }
    split; [intros c' Hne; rewrite map_get_set_ne by exact Hne; reflexivity|].
    split; [reflexivity|]. split; [reflexivity|]. split; [|reflexivity].
    intros c' Hne. rewrite map_get_delete_ne, map_get_set_ne by exact Hne. reflexivity.
  - intros init_error. reflexivity.
  - intros e. destruct c; try reflexivity. contradiction.
Qed.

(** Aptos joins the registry of Arbitrum and BNB as its third chain. *)
Lemma register_round_trip_witness :
  exists s',
    Registry.registerChain registry_ab 5 None Registry.APTOS = Ok s' /\
    Registry.getAdapter s' Registry.APTOS = Ok (Registry.mkAdapter Registry.APTOS 2) /\
    Registry.getRegisteredChains s' = [Registry.ARBITRUM; Registry.BNB; Registry.APTOS] /\
    Registry.getAdapter (Registry.unregisterChain s' Registry.APTOS) Registry.APTOS
      = Err "Chain aptos not registered"%string.
Proof.
  assert (Hwf : registry_well_formed registry_ab).
  { split.
    - vm_compute. repeat constructor; simpl; intuition discriminate.
    - intros c e Hin. vm_compute in Hin.
      destruct Hin as [[= <- <-]|[[= <- <-]|[]]];
        repeat split; simpl; try discriminate; try reflexivity. }
  assert (Hsol : Registry.APTOS <> Registry.SOLANA) by discriminate.
  destruct (register_round_trip registry_ab 5 Registry.APTOS Hwf Hsol) as [H _].
  destruct H as (s' & Hreg & Hget & _ & Hkeys & _ & Hgone & _).
  exists s'. split; [exact Hreg|]. split; [exact Hget|]. split; [exact Hkeys|]. exact Hgone.
Defined.

(** ** The adapters' tiers compared *)

(** X21.  The opBNB and Aptos adapters choose the same tier for every
    input.  The Arbitrum adapter agrees with them exactly when: with at
    least 50 runs, there are fewer than 3 wickets and fewer than 3 maiden
    overs; with fewer than 50 runs, there are fewer than 3 wickets or fewer
    than 3 maiden overs.  None of the three ever chooses RUN_MACHINE or
    GOLDEN_ARM. *)
Theorem tier_agreement params :
  OpBNBAdapter.determineCricketTier params = AptosAdapter.determineCricketTier params /\
  (ArbitrumAdapter.recordCricketPerformance_tier params
     = AptosAdapter.determineCricketTier params
   <-> ((50 <= runs params)%Z -> (wickets params < 3)%Z /\ (maidenOvers params < 3)%Z) /\
       ((runs params < 50)%Z -> (wickets params < 3)%Z \/ (maidenOvers params < 3)%Z)) /\
  (forall t,
     t = AptosAdapter.determineCricketTier params \/
     t = OpBNBAdapter.determineCricketTier params \/
     t = ArbitrumAdapter.recordCricketPerformance_tier params ->
     t <> RUN_MACHINE /\ t <> GOLDEN_ARM).
Proof.
  split; [reflexivity|].
  rewrite arbitrum_tier_last_match, opbnb_tier_by_rules, aptos_tier_by_rules.
  unfold cricket_tier_rules.
  destruct (Z.leb_spec 100 (runs params)), (Z.leb_spec 50 (runs params)),
    (Z.leb_spec 5 (wickets params)), (Z.leb_spec 3 (wickets params)),
    (Z.leb_spec 3 (maidenOvers params));
    try lia;
    (split; [split; [intros Heq; try discriminate Heq; split; intros; lia
                    |intros [H50 Hlow]; try reflexivity; exfalso; lia]
            |intros t [->|[->| ->]]; split; discriminate]).
Qed.

(** ** EVM addresses *)

Lemma lower_char_is_hex c :
  AptosAdapter.is_hex c = true -> AptosAdapter.is_hex (AptosAdapter.lower_char c) = true.
Proof. intros H. apply lower_hex_is_hex, lower_char_hex. exact H. Qed.

Lemma toLowerCase_is_hex s :
  forallb AptosAdapter.is_hex s = true ->
  forallb AptosAdapter.is_hex (AptosAdapter.toLowerCase s) = true.
Proof.
  intros H. apply forallb_lower_hex_is_hex, toLowerCase_hex. exact H.
Qed.

Lemma toLowerCase_length s : length (AptosAdapter.toLowerCase s) = length s.
Proof. apply length_map. Qed.

Lemma evm_valid_inv a :
  OpBNBAdapter.validateAddress a = true ->
  exists body, a = "0"%char :: "x"%char :: body /\
    forallb AptosAdapter.is_hex body = true /\ length body = 40%nat.
Proof.
  destruct a as [|c1 [|c2 body]]; try discriminate. simpl.
  rewrite !andb_true_iff. intros [[[H0 Hx] Hh] Hl].
  apply Ascii.eqb_eq in H0, Hx. subst c1 c2.
  apply Nat.eqb_eq in Hl. exists body. repeat split; assumption.
Qed.

(** X22.  EVM addresses on the opBNB and Arbitrum adapters, which share
    the two functions.  A valid address is [0x] followed by 40 hexadecimal
    digits; formatting keeps it valid and is idempotent.  The Aptos adapter
    accepts every valid EVM address too, and pads it with 24 zeros; but no
    address in the Aptos canonical form is a valid EVM address. *)
Theorem evm_addresses a :
  ArbitrumAdapter.validateAddress a = OpBNBAdapter.validateAddress a /\
  ArbitrumAdapter.formatAddress a = OpBNBAdapter.formatAddress a /\
  OpBNBAdapter.formatAddress (OpBNBAdapter.formatAddress a) = OpBNBAdapter.formatAddress a /\
  OpBNBAdapter.validateAddress (AptosAdapter.formatAddress a) = false /\
  (OpBNBAdapter.validateAddress a = true ->
   length a = 42%nat /\
   OpBNBAdapter.validateAddress (OpBNBAdapter.formatAddress a) = true /\
   AptosAdapter.validateAddress a = true /\
   exists body,
     OpBNBAdapter.formatAddress a = "0"%char :: "x"%char :: body /\
     AptosAdapter.formatAddress a
       = "0"%char :: "x"%char :: repeat "0"%char 24 ++ body).
Proof.
  split; [reflexivity|]. split; [reflexivity|].
  split; [apply toLowerCase_idem|]. split.
  - unfold AptosAdapter.formatAddress, OpBNBAdapter.validateAddress.
    pose proof (padStart_at_least 64
                  (AptosAdapter.strip_0x (AptosAdapter.toLowerCase a))) as Hlen.
    destruct (Nat.eqb_spec
                (length (AptosAdapter.padStart 64
                           (AptosAdapter.strip_0x (AptosAdapter.toLowerCase a)))) 40)
      as [Heq|Hne]; [lia|].
    rewrite andb_false_r. reflexivity.
  - intros Hv. apply evm_valid_inv in Hv as (body & -> & Hh & Hl).
    split; [simpl; rewrite Hl; reflexivity|]. split; [|split].
    + unfold OpBNBAdapter.formatAddress, OpBNBAdapter.validateAddress. simpl.
      rewrite toLowerCase_is_hex by exact Hh. fold (AptosAdapter.toLowerCase body).
      rewrite toLowerCase_length, Hl. reflexivity.
    + unfold AptosAdapter.validateAddress. simpl. rewrite Hh, Hl. reflexivity.
    + exists (AptosAdapter.toLowerCase body). split; [reflexivity|].
      unfold AptosAdapter.formatAddress. simpl.
      fold (AptosAdapter.toLowerCase body).
      unfold AptosAdapter.padStart. rewrite toLowerCase_length, Hl. reflexivity.
Qed.

(** The address [0xAB] followed by 38 zeros. *)
Lemma evm_addresses_witness :
  OpBNBAdapter.validateAddress
    ("0" :: "x" :: "A" :: "B" :: repeat "0" 38)%char = true /\
  OpBNBAdapter.validateAddress
    (OpBNBAdapter.formatAddress ("0" :: "x" :: "A" :: "B" :: repeat "0" 38)%char) = true /\
  AptosAdapter.validateAddress ("0" :: "x" :: "A" :: "B" :: repeat "0" 38)%char = true.
Proof.
  destruct (evm_addresses ("0" :: "x" :: "A" :: "B" :: repeat "0" 38)%char)
    as (_ & _ & _ & _ & H).
  destruct H as (_ & Hv & Ha & _); [reflexivity|].
  split; [reflexivity|]. split; [exact Hv | exact Ha].
Defined.

(** ** What the Aptos canonical form identifies *)

Lemma hex_digit_lower c :
  AptosAdapter.is_hex c = true -> hex_digit (AptosAdapter.lower_char c) = hex_digit c.
Proof. each_char c. Qed.

Lemma hex_digit_bound c : hex_digit c < 16.
Proof. destruct c as [[] [] [] [] [] [] [] []]; reflexivity. Qed.

Lemma hex_digit_inv c :
  AptosAdapter.is_lower_hex c = true ->
  ascii_of_N (if hex_digit c <? 10 then hex_digit c + 48 else hex_digit c + 87) = c.
Proof. each_char c. Qed.

Lemma hex_digit_inj c d :
  AptosAdapter.is_lower_hex c = true -> AptosAdapter.is_lower_hex d = true ->
  hex_digit c = hex_digit d -> c = d.
Proof.
  intros Hc Hd Heq. rewrite <- (hex_digit_inv c Hc), <- (hex_digit_inv d Hd), Heq.
  reflexivity.
Qed.

Lemma hex_value_snoc s c : hex_value (s ++ [c]) = hex_value s * 16 + hex_digit c.
Proof. unfold hex_value. rewrite fold_left_app. reflexivity. Qed.

Lemma hex_value_bound (s : list ascii) : hex_value s < 16 ^ N.of_nat (length s).
Proof.
  induction s as [|c s IH] using rev_ind; [reflexivity|].
  rewrite hex_value_snoc, length_app. simpl length.
  replace (N.of_nat (length s + 1)) with (N.succ (N.of_nat (length s))) by lia.
  rewrite N.pow_succ_r'. pose proof (hex_digit_bound c). lia.
Qed.

Lemma hex_value_zeros (n : nat) (s : list ascii) :
  hex_value (repeat "0"%char n ++ s) = hex_value s.
Proof.
  unfold hex_value. rewrite fold_left_app.
  replace (fold_left (fun acc c => acc * 16 + hex_digit c) (repeat "0"%char n) 0) with 0;
    [reflexivity|].
  induction n as [|n IH]; simpl; [reflexivity | exact IH].
Qed.

Lemma hex_value_lower (s : list ascii) :
  forallb AptosAdapter.is_hex s = true ->
  hex_value (AptosAdapter.toLowerCase s) = hex_value s.
Proof.
  induction s as [|c s IH] using rev_ind; [reflexivity|].
  rewrite forallb_app. simpl. rewrite !andb_true_iff. intros (Hs & Hc & _).
  unfold AptosAdapter.toLowerCase in *. rewrite map_app. simpl.
  rewrite !hex_value_snoc, IH by exact Hs. rewrite hex_digit_lower by exact Hc.
  reflexivity.
Qed.

Lemma hex_value_inj : forall (s t : list ascii),
  length s = length t ->
  forallb AptosAdapter.is_lower_hex s = true ->
  forallb AptosAdapter.is_lower_hex t = true ->
  hex_value s = hex_value t -> s = t.
Proof.
  induction s as [|c s IH] using rev_ind; intros t Hlen Hs Ht Hv.
  - destruct t; [reflexivity | discriminate].
  - destruct t as [|d t _] using rev_ind;
      [rewrite length_app in Hlen; simpl in Hlen; lia|].
    rewrite !length_app in Hlen. simpl in Hlen.
    rewrite forallb_app in Hs, Ht. simpl in Hs, Ht.
    apply andb_true_iff in Hs as [Hs Hc]. apply andb_true_iff in Ht as [Ht Hd].
    rewrite andb_true_r in Hc, Hd.
    rewrite !hex_value_snoc in Hv.
    pose proof (hex_digit_bound c). pose proof (hex_digit_bound d).
    assert (Hdig : hex_digit c = hex_digit d) by lia.
    assert (Hpre : hex_value s = hex_value t) by lia.
    rewrite (IH t) by (assumption || lia).
    rewrite (hex_digit_inj c d Hc Hd Hdig). reflexivity.
Qed.

Lemma aptos_valid_inv a :
  AptosAdapter.validateAddress a = true ->
  forallb AptosAdapter.is_hex (AptosAdapter.strip_0x a) = true /\
  (1 <= length (AptosAdapter.strip_0x a) <= 64)%nat.
Proof.
  unfold AptosAdapter.validateAddress. rewrite !andb_true_iff.
  intros [[Hh H1] H64]. apply Nat.leb_le in H1, H64. split; [exact Hh | lia].
Qed.

Lemma aptos_format_valid a :
  AptosAdapter.validateAddress a = true ->
  AptosAdapter.formatAddress a
    = "0"%char :: "x"%char ::
      AptosAdapter.padStart 64 (AptosAdapter.toLowerCase (AptosAdapter.strip_0x a)).
Proof.
  intros Hv. apply aptos_valid_inv in Hv as [Hh _].
  unfold AptosAdapter.formatAddress. rewrite strip_0x_toLowerCase by exact Hh. reflexivity.
Qed.

(** X23.  What the Aptos canonical form identifies.  A valid address
    denotes a number below [2 ^ 256], the range of a 32-byte account
    address, and [formatAddress] keeps that number; two valid addresses have
    the same canonical form exactly when they denote the same number, so
    the prefix, the case of the digits and leading zeros make no
    difference and nothing else is identified. *)
Theorem canonical_form_is_the_number a b :
  AptosAdapter.validateAddress a = true ->
  AptosAdapter.validateAddress b = true ->
  hex_value (AptosAdapter.strip_0x a) < 2 ^ 256 /\
  hex_value (AptosAdapter.strip_0x (AptosAdapter.formatAddress a))
    = hex_value (AptosAdapter.strip_0x a) /\
  (AptosAdapter.formatAddress a = AptosAdapter.formatAddress b <->
   hex_value (AptosAdapter.strip_0x a) = hex_value (AptosAdapter.strip_0x b)).
Proof.
  intros Ha Hb.
  rewrite (aptos_format_valid a Ha), (aptos_format_valid b Hb).
  apply aptos_valid_inv in Ha as [Hah Hal]. apply aptos_valid_inv in Hb as [Hbh Hbl].
  set (sa := AptosAdapter.strip_0x a) in *. set (sb := AptosAdapter.strip_0x b) in *.
  assert (Hpad : forall s : list ascii,
             forallb AptosAdapter.is_hex s = true ->
             hex_value (AptosAdapter.padStart 64 (AptosAdapter.toLowerCase s)) = hex_value s).
  { intros s Hs. unfold AptosAdapter.padStart. rewrite hex_value_zeros.
    apply hex_value_lower. exact Hs. }
  split; [|split].
  - pose proof (hex_value_bound sa) as Hlt.
    assert (Hpow : 16 ^ N.of_nat (length sa) <= 16 ^ 64)
      by (apply N.pow_le_mono_r; lia).
    change (2 ^ 256) with (16 ^ 64). lia.
  - simpl. apply Hpad. exact Hah.
  - split.
    + intros [= Heq]. rewrite <- (Hpad sa Hah), <- (Hpad sb Hbh), Heq. reflexivity.
    + intros Heq. f_equal. f_equal. apply hex_value_inj.
      * rewrite !padStart_length by (rewrite toLowerCase_length; lia). reflexivity.
      * apply padStart_lower_hex, toLowerCase_hex. exact Hah.
      * apply padStart_lower_hex, toLowerCase_hex. exact Hbh.
      * rewrite !Hpad by assumption. exact Heq.
Qed.

(** [0xAB] and [00ab] are the same address, [0xAB] and [0xAB0] are not. *)
Lemma canonical_form_is_the_number_witness :
  AptosAdapter.formatAddress ("0" :: "x" :: "A" :: "B" :: nil)%char
    = AptosAdapter.formatAddress ("0" :: "0" :: "a" :: "b" :: nil)%char /\
  AptosAdapter.formatAddress ("0" :: "x" :: "A" :: "B" :: nil)%char
    <> AptosAdapter.formatAddress ("0" :: "x" :: "A" :: "B" :: "0" :: nil)%char.
Proof.
  split.
  - apply (canonical_form_is_the_number ("0" :: "x" :: "A" :: "B" :: nil)%char
             ("0" :: "0" :: "a" :: "b" :: nil)%char); reflexivity.
  - intros Heq.
    apply (canonical_form_is_the_number ("0" :: "x" :: "A" :: "B" :: nil)%char
             ("0" :: "x" :: "A" :: "B" :: "0" :: nil)%char) in Heq;
      [discriminate Heq | reflexivity | reflexivity].
Defined.

(** ** The Solidity oracle under arbitrary transactions *)

Lemma sol_setOracleAuthorization_inv sender s oracle authorized s' :
  SolOracle.setOracleAuthorization sender s oracle authorized = Ok s' ->
  sender = SolOracle.owner s /\ oracle <> 0 /\
  s' = SolOracle.mkState (SolOracle.owner s) (SolOracle.matches s)
         (SolOracle.performances s) (SolOracle.playerMatchHistory s)
         (SolOracle.totalMatches s)
         (<[oracle := authorized]> (SolOracle.authorizedOracles s)).
Proof.
  unfold SolOracle.setOracleAuthorization.
  destruct (N.eqb_spec sender (SolOracle.owner s)); simpl; [|discriminate].
  destruct (N.eqb_spec oracle 0); [discriminate|].
  intros [= <-]. repeat split; assumption.
Qed.

Lemma sol_registerMatch_inv sender now s matchId s' :
  SolOracle.registerMatch sender now s matchId = Ok s' ->
  SolOracle.onlyAuthorized sender s = true /\
  SolOracle.registeredAt (SolOracle.match_at s matchId) = 0 /\
  s' = SolOracle.mkState (SolOracle.owner s)
         (<[matchId := SolOracle.mkMatchData matchId sender now 0 false 0 0]>
            (SolOracle.matches s))
         (SolOracle.performances s) (SolOracle.playerMatchHistory s)
         (SolOracle.totalMatches s + 1) (SolOracle.authorizedOracles s).
Proof.
  unfold SolOracle.registerMatch.
  destruct (SolOracle.onlyAuthorized sender s); simpl; [|discriminate].
  destruct (N.eqb_spec (SolOracle.registeredAt (SolOracle.match_at s matchId)) 0);
    simpl; [|discriminate].
  destruct (Sol.MAX_UINT256 <? _); [discriminate|].
  intros [= <-]. repeat split; assumption.
Qed.

Lemma sol_finalizeMatch_inv sender now s matchId hash count s' :
  SolOracle.finalizeMatch sender now s matchId hash count = Ok s' ->
  SolOracle.onlyAuthorized sender s = true /\
  SolOracle.registeredAt (SolOracle.match_at s matchId) <> 0 /\
  SolOracle.isFinalized (SolOracle.match_at s matchId) = false /\
  s' = SolOracle.mkState (SolOracle.owner s)
         (<[matchId := SolOracle.mkMatchData
                         (SolOracle.md_matchId (SolOracle.match_at s matchId))
                         (SolOracle.organizer (SolOracle.match_at s matchId))
                         (SolOracle.registeredAt (SolOracle.match_at s matchId))
                         now true count hash]> (SolOracle.matches s))
         (SolOracle.performances s) (SolOracle.playerMatchHistory s)
         (SolOracle.totalMatches s) (SolOracle.authorizedOracles s).
Proof.
  unfold SolOracle.finalizeMatch.
  destruct (SolOracle.onlyAuthorized sender s); simpl; [|discriminate].
  destruct (N.eqb_spec (SolOracle.registeredAt (SolOracle.match_at s matchId)) 0);
    [discriminate|].
  destruct (SolOracle.isFinalized (SolOracle.match_at s matchId)); [discriminate|].
  intros [= <-]. repeat split; assumption.
Qed.

Lemma sol_recordPerformance_inv sender s matchId player runs wickets faced bowled t e s' :
  SolOracle.recordPerformance sender s matchId player runs wickets faced bowled t e = Ok s' ->
  SolOracle.onlyAuthorized sender s = true /\
  SolOracle.registeredAt (SolOracle.match_at s matchId) <> 0 /\
  SolOracle.isFinalized (SolOracle.match_at s matchId) = false /\
  e <= 100 /\ t <= 7 /\
  s' = SolOracle.mkState (SolOracle.owner s) (SolOracle.matches s)
         (<[(matchId, player) :=
              SolOracle.mkPlayerPerformance player runs wickets faced bowled
                (if 0 <? faced then runs * 100 / faced else 0) t e true]>
            (SolOracle.performances s))
         (<[player := default [] (SolOracle.playerMatchHistory s !! player) ++ [matchId]]>
            (SolOracle.playerMatchHistory s))
         (SolOracle.totalMatches s) (SolOracle.authorizedOracles s).
Proof.
  unfold SolOracle.recordPerformance.
  destruct (SolOracle.onlyAuthorized sender s); simpl; [|discriminate].
  destruct (N.eqb_spec (SolOracle.registeredAt (SolOracle.match_at s matchId)) 0);
    [discriminate|].
  destruct (SolOracle.isFinalized (SolOracle.match_at s matchId)); [discriminate|].
  destruct (N.leb_spec e 100); simpl; [|discriminate].
  destruct (N.leb_spec t 7); simpl; [|discriminate].
  destruct ((0 <? faced) && (Sol.MAX_UINT256 <? runs * 100)); [discriminate|].
  intros [= <-]. repeat split; assumption.
Qed.

(** The successful steps, one per entry point. *)
Lemma sol_oracle_step_cases s tx :
  SolOracle.step s tx = s \/
  (exists oracle authorized,
     SolOracle.setOracleAuthorization (fst (fst tx)) s oracle authorized
       = Ok (SolOracle.step s tx)) \/
  (exists matchId,
     SolOracle.registerMatch (fst (fst tx)) (snd (fst tx)) s matchId
       = Ok (SolOracle.step s tx)) \/
  (exists matchId hash count,
     SolOracle.finalizeMatch (fst (fst tx)) (snd (fst tx)) s matchId hash count
       = Ok (SolOracle.step s tx)) \/
  (exists matchId player runs wickets faced bowled t e,
     SolOracle.recordPerformance (fst (fst tx)) s matchId player runs wickets faced bowled t e
       = Ok (SolOracle.step s tx)).
Proof.
  destruct tx as [[sender now] c]. unfold SolOracle.step. simpl.
  destruct c as [oracle authorized|matchId|matchId hash count
                |matchId player runs wickets faced bowled t e].
  - destruct (SolOracle.setOracleAuthorization _ _ _ _) eqn:H; simpl; [|left; reflexivity].
    right; left. repeat eexists. exact H.
  - destruct (SolOracle.registerMatch _ _ _ _) eqn:H; simpl; [|left; reflexivity].
    right; right; left. repeat eexists. exact H.
  - destruct (SolOracle.finalizeMatch _ _ _ _ _ _) eqn:H; simpl; [|left; reflexivity].
    right; right; right; left. repeat eexists. exact H.
  - destruct (SolOracle.recordPerformance _ _ _ _ _ _ _ _ _ _) eqn:H; simpl;
      [|left; reflexivity].
    right; right; right; right. repeat eexists. exact H.
Qed.

Lemma sol_match_at_insert_eq (s : SolOracle.State) matchId m ms :
  SolOracle.matches s = <[matchId := m]> ms -> SolOracle.match_at s matchId = m.
Proof. intros H. unfold SolOracle.match_at. rewrite H, lookup_insert_eq. reflexivity. Qed.

Lemma sol_oracle_step_keeps_finalized s tx matchId :
  SolOracle.isFinalized (SolOracle.match_at s matchId) = true ->
  SolOracle.registeredAt (SolOracle.match_at s matchId) <> 0 ->
  SolOracle.match_at (SolOracle.step s tx) matchId = SolOracle.match_at s matchId /\
  forall player,
    SolOracle.performances (SolOracle.step s tx) !! (matchId, player)
      = SolOracle.performances s !! (matchId, player).
Proof.
  intros Hfin Hreg.
  destruct (sol_oracle_step_cases s tx)
    as [->|[(o & a & H)|[(id & H)|[(id & hash & count & H)
       |(id & p & r & w & f & b & t & e & H)]]]].
  - split; reflexivity.
  - apply sol_setOracleAuthorization_inv in H as (_ & _ & ->). split; reflexivity.
  - apply sol_registerMatch_inv in H as (_ & Hfree & ->).
    assert (Hne : id <> matchId) by (intros ->; contradiction).
    unfold SolOracle.match_at. simpl. rewrite lookup_insert_ne by exact Hne.
    split; reflexivity.
  - apply sol_finalizeMatch_inv in H as (_ & _ & Hopen & ->).
    assert (Hne : id <> matchId) by (intros ->; congruence).
    unfold SolOracle.match_at. simpl. rewrite lookup_insert_ne by exact Hne.
    split; reflexivity.
  - apply sol_recordPerformance_inv in H as (_ & _ & Hopen & _ & _ & ->).
    assert (Hne : id <> matchId) by (intros ->; congruence).
    split; [reflexivity|]. intros player. simpl.
    rewrite lookup_insert_ne by congruence. reflexivity.
Qed.

(** X24.  On the Solidity oracle a finalized match is closed for good:
    after a successful [finalizeMatch], whatever transactions follow, from
    whichever senders, [getMatchProof] and [getMatchDetails] keep returning
    the data hash, player count and finalization time given then, and the
    performances recorded for the match are neither changed nor added
    to. *)
Theorem sol_oracle_finality sender now s matchId hash count s1
    (txs : list (N * N * SolOracle.call)) :
  SolOracle.finalizeMatch sender now s matchId hash count = Ok s1 ->
  SolOracle.getMatchProof (SolOracle.run_all s1 txs) matchId = (hash, true, now) /\
  SolOracle.getMatchDetails (SolOracle.run_all s1 txs) matchId
    = Ok (SolOracle.mkMatchData (SolOracle.md_matchId (SolOracle.match_at s matchId))
            (SolOracle.organizer (SolOracle.match_at s matchId))
            (SolOracle.registeredAt (SolOracle.match_at s matchId)) now true count hash) /\
  forall player,
    SolOracle.getPlayerPerformance (SolOracle.run_all s1 txs) matchId player
      = SolOracle.getPlayerPerformance s matchId player /\
    SolOracle.verifyPerformance (SolOracle.run_all s1 txs) matchId player
      = SolOracle.verifyPerformance s matchId player.
Proof.
  intros Hfin. apply sol_finalizeMatch_inv in Hfin as (_ & Hreg & _ & Hs1).
  set (M := SolOracle.mkMatchData (SolOracle.md_matchId (SolOracle.match_at s matchId))
              (SolOracle.organizer (SolOracle.match_at s matchId))
              (SolOracle.registeredAt (SolOracle.match_at s matchId)) now true count hash)
    in *.
  assert (H1 : SolOracle.match_at s1 matchId = M)
    by (apply (sol_match_at_insert_eq s1 matchId M (SolOracle.matches s)); rewrite Hs1;
        reflexivity).
  assert (Hp1 : forall player, SolOracle.performances s1 !! (matchId, player)
                               = SolOracle.performances s !! (matchId, player))
    by (intros player; rewrite Hs1; reflexivity).
  clear Hs1.
  assert (Hrun : SolOracle.match_at (SolOracle.run_all s1 txs) matchId = M /\
                 forall player,
                   SolOracle.performances (SolOracle.run_all s1 txs) !! (matchId, player)
                     = SolOracle.performances s !! (matchId, player)).
  { revert s1 H1 Hp1. induction txs as [|tx txs IH]; intros s1 H1 Hp1.
    - split; assumption.
    - simpl. destruct (sol_oracle_step_keeps_finalized s1 tx matchId) as [Hm Hp].
      + rewrite H1. reflexivity.
      + rewrite H1. exact Hreg.
      + apply IH.
        * rewrite Hm. exact H1.
        * intros player. rewrite Hp. apply Hp1. }
  destruct Hrun as [Hm Hp].
  split; [|split].
  - unfold SolOracle.getMatchProof. rewrite Hm. reflexivity.
  - unfold SolOracle.getMatchDetails. rewrite Hm. simpl.
    destruct (N.eqb_spec (SolOracle.registeredAt (SolOracle.match_at s matchId)) 0);
      [contradiction | reflexivity].
  - intros player.
    unfold SolOracle.getPlayerPerformance, SolOracle.verifyPerformance,
      SolOracle.performance_at. rewrite Hp. split; reflexivity.
Qed.

(** Match 5 is finalized at time 20; a new performance, a second
    finalization and a second registration follow. *)
Lemma sol_oracle_finality_witness :
  exists s1,
    SolOracle.finalizeMatch 1 20 sol_oracle_open 5 99 11 = Ok s1 /\
    SolOracle.getMatchProof
      (SolOracle.run_all s1
         [(1, 30, SolOracle.CallRecordPerformance 5 7 0 0 0 0 0 0);
          (1, 31, SolOracle.CallFinalizeMatch 5 98 12);
          (1, 32, SolOracle.CallRegisterMatch 5)]) 5 = (99, true, 20) /\
    SolOracle.getPlayerPerformance
      (SolOracle.run_all s1
         [(1, 30, SolOracle.CallRecordPerformance 5 7 0 0 0 0 0 0);
          (1, 31, SolOracle.CallFinalizeMatch 5 98 12);
          (1, 32, SolOracle.CallRegisterMatch 5)]) 5 7
      = Ok (SolOracle.mkPlayerPerformance 7 120 2 80 24 150 1 90 true).
Proof.
  destruct (SolOracle.finalizeMatch 1 20 sol_oracle_open 5 99 11) as [s1|e] eqn:Hfin;
    [|vm_compute in Hfin; discriminate].
  exists s1. split; [reflexivity|].
  destruct (sol_oracle_finality 1 20 sol_oracle_open 5 99 11 s1
              [(1, 30, SolOracle.CallRecordPerformance 5 7 0 0 0 0 0 0);
               (1, 31, SolOracle.CallFinalizeMatch 5 98 12);
               (1, 32, SolOracle.CallRegisterMatch 5)] Hfin) as (Hproof & _ & Hperf).
  split; [exact Hproof|].
  destruct (Hperf 7) as [-> _]. vm_compute. reflexivity.
Defined.

Lemma sol_match_at_registered (s : SolOracle.State) matchId :
  SolOracle.registeredAt (SolOracle.match_at s matchId) <> 0 ->
  SolOracle.matches s !! matchId = Some (SolOracle.match_at s matchId).
Proof.
  unfold SolOracle.match_at.
  destruct (SolOracle.matches s !! matchId); simpl; [reflexivity | congruence].
Qed.

Lemma sol_oracle_step_well_formed s tx :
  snd (fst tx) <> 0 ->
  sol_oracle_well_formed s -> sol_oracle_well_formed (SolOracle.step s tx).
Proof.
  intros Hnow (Hcount & Hmatch & Hperf).
  destruct (sol_oracle_step_cases s tx)
    as [->|[(o & a & H)|[(id & H)|[(id & hash & count & H)
       |(id & p & r & w & f & b & t & e & H)]]]].
  - split; [exact Hcount|]. split; [exact Hmatch | exact Hperf].
  - apply sol_setOracleAuthorization_inv in H as (_ & _ & ->).
    split; [exact Hcount|]. split; [exact Hmatch | exact Hperf].
  - apply sol_registerMatch_inv in H as (_ & Hfree & ->).
    assert (Hnone : SolOracle.matches s !! id = None).
    { destruct (SolOracle.matches s !! id) as [m|] eqn:Hm; [|reflexivity].
      destruct (Hmatch id m Hm) as (_ & Hreg & _).
      unfold SolOracle.match_at in Hfree. rewrite Hm in Hfree. simpl in Hfree.
      contradiction. }
    split; [|split]; simpl.
    + rewrite map_size_insert_None by exact Hnone. rewrite Hcount. lia.
    + intros id' m Hl. destruct (decide (id' = id)) as [->|Hne].
      * rewrite lookup_insert_eq in Hl. injection Hl as <-. simpl.
        split; [reflexivity|]. split; [exact Hnow|]. intros _. repeat split.
      * rewrite lookup_insert_ne in Hl by congruence. apply Hmatch. exact Hl.
    + intros id' pl q Hl. destruct (Hperf id' pl q Hl) as (H1 & H2 & H3 & H4 & H5 & H6).
      repeat split; try assumption.
      apply lookup_insert_is_Some. destruct (decide (id = id'));
        [left; assumption | right; split; assumption].
  - apply sol_finalizeMatch_inv in H as (_ & Hreg & _ & ->).
    pose proof (sol_match_at_registered s id Hreg) as Hm.
    destruct (Hmatch id _ Hm) as (Hid & _ & _).
    split; [|split]; simpl.
    + rewrite map_size_insert_Some by eauto. exact Hcount.
    + intros id' m Hl. destruct (decide (id' = id)) as [->|Hne].
      * rewrite lookup_insert_eq in Hl. injection Hl as <-. simpl.
        split; [exact Hid|]. split; [exact Hreg|]. discriminate.
      * rewrite lookup_insert_ne in Hl by congruence. apply Hmatch. exact Hl.
    + intros id' pl q Hl. destruct (Hperf id' pl q Hl) as (H1 & H2 & H3 & H4 & H5 & H6).
      repeat split; try assumption.
      apply lookup_insert_is_Some. destruct (decide (id = id'));
        [left; assumption | right; split; assumption].
  - apply sol_recordPerformance_inv in H as (_ & Hreg & _ & He & Ht & ->).
    pose proof (sol_match_at_registered s id Hreg) as Hm.
    split; [exact Hcount|]. split; [exact Hmatch|]. simpl.
    intros id' pl q Hl. destruct (decide ((id', pl) = (id, p))) as [[= -> ->]|Hne].
    + rewrite lookup_insert_eq in Hl. injection Hl as <-. simpl.
      repeat split; try assumption; try reflexivity. eauto.
    + rewrite lookup_insert_ne in Hl by congruence. apply Hperf. exact Hl.
Qed.

(** X25.  From deployment, whatever transactions are sent at block times
    other than 0: [getTotalMatches] is the number of matches stored; every
    stored match is filed under its own id and has a registration time, and
    until it is finalized its finalization time, data hash and player count
    are 0; every stored performance is filed under its own player, is
    verified, has a tier of at most 7 and an effort score of at most 100,
    carries the strike rate [runs * 100 / balls faced] (0 when no ball was
    faced), and belongs to a registered match. *)
Theorem sol_oracle_storage_invariant deployer_account (txs : list (N * N * SolOracle.call)) :
  Forall (fun tx => snd (fst tx) <> 0) txs ->
  sol_oracle_well_formed (SolOracle.run_all (SolOracle.constructor deployer_account) txs) /\
  SolOracle.getTotalMatches (SolOracle.run_all (SolOracle.constructor deployer_account) txs)
    = N.of_nat (size (SolOracle.matches
                        (SolOracle.run_all (SolOracle.constructor deployer_account) txs))).
Proof.
  intros Htimes.
  assert (H0 : sol_oracle_well_formed (SolOracle.constructor deployer_account)).
  { split; [reflexivity|]. split.
    - intros id m Hl. simpl in Hl. rewrite lookup_empty in Hl. discriminate.
    - intros id pl q Hl. simpl in Hl. rewrite lookup_empty in Hl. discriminate. }
  assert (Hwf : sol_oracle_well_formed
                  (SolOracle.run_all (SolOracle.constructor deployer_account) txs)).
  { revert H0. generalize (SolOracle.constructor deployer_account).
    induction Htimes as [|tx txs Hnow _ IH]; intros s Hwf; [exact Hwf|].
    simpl. apply IH. apply sol_oracle_step_well_formed; assumption. }
  split; [exact Hwf|]. destruct Hwf as [Hcount _]. exact Hcount.
Qed.

Lemma sol_oracle_storage_invariant_witness :
  SolOracle.getTotalMatches
    (SolOracle.run_all (SolOracle.constructor 1)
       [(1, 10, SolOracle.CallRegisterMatch 5);
        (1, 11, SolOracle.CallRegisterMatch 5);
        (1, 12, SolOracle.CallRegisterMatch 6);
        (2, 13, SolOracle.CallRegisterMatch 8)]) = 2.
Proof.
  destruct (sol_oracle_storage_invariant 1
              [(1, 10, SolOracle.CallRegisterMatch 5);
               (1, 11, SolOracle.CallRegisterMatch 5);
               (1, 12, SolOracle.CallRegisterMatch 6);
               (2, 13, SolOracle.CallRegisterMatch 8)]) as [_ Hcount].
  - repeat constructor; discriminate.
  - rewrite Hcount. vm_compute. reflexivity.
Defined.

(** ** The Solidity engine: records are keyed by a hash *)



(** ** The validator SDKs *)

(** X27.  The BNB SDK's gas price.  There is no gas price when the
    current price is absent or 0; otherwise the result is the current price
    capped by the configured maximum, and is never above either; an absent
    maximum and a maximum of 0 both mean no cap. *)
Theorem gas_price_is_capped (maxGasPrice : option Z) (currentPrice : option Z) :
  (BNBValidatorSDK.getOptimalGasPrice maxGasPrice currentPrice = None <->
   currentPrice = None \/ currentPrice = Some 0%Z) /\
  (forall price,
     currentPrice = Some price -> price <> 0%Z ->
     BNBValidatorSDK.getOptimalGasPrice maxGasPrice currentPrice
       = Some (match maxGasPrice with
               | Some 0%Z | None => price
               | Some cap => Z.min price cap
               end)) /\
  (forall result price,
     BNBValidatorSDK.getOptimalGasPrice maxGasPrice currentPrice = Some result ->
     currentPrice = Some price ->
     (result <= price)%Z /\
     (forall cap, maxGasPrice = Some cap -> cap <> 0%Z -> (result <= cap)%Z)).
Proof.
  unfold BNBValidatorSDK.getOptimalGasPrice.
  destruct currentPrice as [price|].
  - destruct (Z.eqb_spec price 0) as [->|Hp].
    + split; [split; [intros _; right; reflexivity | reflexivity]|].
      split; [intros p [= <-] Hne; contradiction | discriminate].
    + assert (Hcap : match maxGasPrice with
                     | Some cap =>
                         if (cap =? 0)%Z then Some price
                         else if (price <? cap)%Z then Some price else Some cap
                     | None => Some price
                     end
                     = Some (match maxGasPrice with
                             | Some 0%Z | None => price
                             | Some cap => Z.min price cap
                             end)).
      { destruct maxGasPrice as [cap|]; [|reflexivity].
        destruct (Z.eqb_spec cap 0) as [->|Hc]; [reflexivity|].
        destruct (Z.ltb_spec price cap); destruct cap; try contradiction; f_equal; lia. }
      rewrite Hcap. split; [|split].
      * split; [discriminate | intros [H|[= H]]; [discriminate | contradiction]].
      * intros p [= <-] _. reflexivity.
      * intros result p [= <-] [= <-]. split.
        -- destruct maxGasPrice as [[|cap|cap]|]; lia.
        -- intros cap -> Hne. destruct cap; [contradiction | lia | lia].
  - split; [split; [intros _; left; reflexivity | reflexivity]|].
    split; [discriminate | discriminate].
Qed.

(** A price of 7 gwei under a cap of 5 gwei. *)
Lemma gas_price_is_capped_witness :
  BNBValidatorSDK.getOptimalGasPrice (Some 5000000000%Z) (Some 7000000000%Z)
    = Some 5000000000%Z.
Proof.
  destruct (gas_price_is_capped (Some 5000000000%Z) (Some 7000000000%Z)) as (_ & H & _).
  rewrite (H 7000000000%Z); [reflexivity | reflexivity | discriminate].
Defined.

(** X28.  What the Aptos SDK's [executeBurn] does on the Move modules.
    When it succeeds, the performance it read is the one stored for the
    player it was asked about, but the burn is made by the SDK's own
    account: the burn record is filed under that account, whose tallies
    grow by the reward and the burn; unless the player is that account,
    the player's tallies and burn record are what they were.  The result
    reports a burn and a reward of 0 whatever was burned. *)
Theorem sdk_burn_credits_the_signer signer env tiers oracle engine id player_addr
    result engine' :
  AptosValidatorSDK.executeBurn (Some signer) env tiers oracle (Some engine) id player_addr
    = Ok (result, engine') ->
  signer < 2 ^ 256 -> player_addr < 2 ^ 256 ->
  exists perfData r,
    performance_oracle.get_performance oracle id player_addr = Ok perfData /\
    deflatinary_burn.calculate_reward tiers (performance_oracle.reward_tier perfData)
      (performance_oracle.effort_score perfData) = Ok r /\
    deflatinary_burn.get_burn_record (Some engine') id signer
      = Ok (deflatinary_burn.mkBurnRecord id signer (r / 10) r
              (performance_oracle.reward_tier perfData)
              (performance_oracle.effort_score perfData)
              (deflatinary_burn.now_seconds env)) /\
    deflatinary_burn.get_player_rewards (Some engine') signer
      = Ok (get (deflatinary_burn.player_rewards engine) signer + r) /\
    deflatinary_burn.get_player_burned (Some engine') signer
      = Ok (get (deflatinary_burn.player_burned engine) signer + r / 10) /\
    (player_addr <> signer ->
     deflatinary_burn.get_player_rewards (Some engine') player_addr
       = deflatinary_burn.get_player_rewards (Some engine) player_addr /\
     deflatinary_burn.get_player_burned (Some engine') player_addr
       = deflatinary_burn.get_player_burned (Some engine) player_addr /\
     deflatinary_burn.get_burn_record (Some engine') id player_addr
       = deflatinary_burn.get_burn_record (Some engine) id player_addr) /\
    result = AptosValidatorSDK.mkBurnResult 0 0 (performance_oracle.reward_tier perfData)
               player_addr id.
Proof.
  unfold AptosValidatorSDK.executeBurn. intros Hrun Hs Hp.
  destruct (performance_oracle.get_match oracle id); [|discriminate].
  destruct (performance_oracle.get_performance oracle id player_addr) as [perfData|];
    [|discriminate].
  destruct (deflatinary_burn.burn_for_performance _ _ _ _ _ _ _ _) as [st|] eqn:Hburn;
    [|discriminate].
  injection Hrun as <- <-.
  apply move_burn_inv in Hburn
    as (state & r & [= <-] & _ & _ & Hr & _ & _ & _ & _ & ->).
  exists perfData, r. split; [reflexivity|]. split; [exact Hr|].
  unfold deflatinary_burn.get_burn_record, deflatinary_burn.get_player_rewards,
    deflatinary_burn.get_player_burned. simpl. rewrite !lookup_insert_eq.
  split; [reflexivity|]. split; [reflexivity|]. split; [reflexivity|].
  split; [|reflexivity].
  intros Hne. rewrite !lookup_insert_ne by congruence.
  split; [reflexivity|]. split; [reflexivity|].
  rewrite lookup_insert_ne; [reflexivity|].
  intros Hk. apply table_key_inj in Hk as [_ Hk]; [|assumption|assumption]. congruence.
Qed.

(** The SDK of account 9 burns for player 7 of match [M1]: account 9 is
    credited, player 7 is not. *)
Lemma sdk_burn_credits_the_signer_witness :
  exists result engine',
    AptosValidatorSDK.executeBurn (Some 9) generous (Some (tiers_of move_default))
      (Some oracle_with_performance)
      (Some (deflatinary_burn.mkBurnEngineState Move.spp_protocol ∅ 0 0 ∅ ∅))
      [77; 49] 7 = Ok (result, engine') /\
    deflatinary_burn.get_player_rewards (Some engine') 9 = Ok 5625000000 /\
    deflatinary_burn.get_player_rewards (Some engine') 7 = Ok 0 /\
    AptosValidatorSDK.rewardAmount result = 0%Z.
Proof.
  destruct (AptosValidatorSDK.executeBurn (Some 9) generous (Some (tiers_of move_default))
              (Some oracle_with_performance)
              (Some (deflatinary_burn.mkBurnEngineState Move.spp_protocol ∅ 0 0 ∅ ∅))
              [77; 49] 7) as [[result engine']|e] eqn:Hrun;
    [|vm_compute in Hrun; discriminate].
  exists result, engine'. split; [reflexivity|].
  assert (H9 : 9 < 2 ^ 256) by (vm_compute; reflexivity).
  assert (H7 : 7 < 2 ^ 256) by (vm_compute; reflexivity).
  destruct (sdk_burn_credits_the_signer _ _ _ _ _ _ _ _ _ Hrun H9 H7)
    as (perfData & r & Hperf & Hr & _ & Hrew & _ & Hother & ->).
  vm_compute in Hperf. injection Hperf as <-.
  vm_compute in Hr. injection Hr as <-.
  split; [rewrite Hrew; reflexivity|]. split; [|reflexivity].
  destruct Hother as (-> & _); [discriminate | reflexivity].
Defined.

(** ** The two Solidity tier tables *)

Lemma sol_tiers_step_keeps (s : SolRewardTiers.State) tx t :
  SolRewardTiers.totalTiers (SolRewardTiers.step s tx) = SolRewardTiers.totalTiers s /\
  SolRewardTiers.owner (SolRewardTiers.step s tx) = SolRewardTiers.owner s /\
  SolRewardTiers.tierId (SolRewardTiers.tier_at (SolRewardTiers.step s tx) t)
    = SolRewardTiers.tierId (SolRewardTiers.tier_at s t) /\
  SolRewardTiers.name (SolRewardTiers.tier_at (SolRewardTiers.step s tx) t)
    = SolRewardTiers.name (SolRewardTiers.tier_at s t) /\
  SolRewardTiers.minRuns (SolRewardTiers.tier_at (SolRewardTiers.step s tx) t)
    = SolRewardTiers.minRuns (SolRewardTiers.tier_at s t) /\
  SolRewardTiers.minWickets (SolRewardTiers.tier_at (SolRewardTiers.step s tx) t)
    = SolRewardTiers.minWickets (SolRewardTiers.tier_at s t).
Proof.
  destruct tx as [sender [t' m b|t' active]]; unfold SolRewardTiers.step; simpl;
    unfold SolRewardTiers.updateTier, SolRewardTiers.setTierActive;
    (destruct (negb (sender =? SolRewardTiers.owner s)); simpl;
       [repeat split; reflexivity|]);
    (destruct (SolRewardTiers.totalTiers s <=? t'); simpl; [repeat split; reflexivity|]);
    unfold SolRewardTiers.tier_at; simpl;
    (destruct (N.eq_dec t t') as [->|Hne];
       [rewrite lookup_insert_eq | rewrite lookup_insert_ne by congruence]);
    repeat split; reflexivity.
Qed.

(** X29.  The tier table of RewardTiers.sol.  At deployment it gives,
    for every tier, the multiplier and base reward the burn engine's own
    table gives, and both refuse a tier above 7.  Whatever [updateTier] and
    [setTierActive] transactions follow, from whichever senders, there are
    still 8 tiers, the owner is the deployer, and every tier keeps its id,
    its name and its run and wicket requirements.  A sender other than the
    owner changes nothing; the owner switching a tier off makes
    [getTierMultiplier] fail with [TierNotActive], and switching it on
    again brings back the values it had. *)
Theorem sol_tier_tables deployer_account :
  (forall env tok orc s0 t,
     Sol.constructor env tok orc = Ok s0 ->
     SolRewardTiers.getTierMultiplier (SolRewardTiers.constructor deployer_account) t
       = match Sol.getRewardTier s0 t with
         | Ok values => Ok values
         | Err _ => Err SolRewardTiers.InvalidTier
         end) /\
  (forall (txs : list (N * SolRewardTiers.call)) t,
     let s := SolRewardTiers.run_all (SolRewardTiers.constructor deployer_account) txs in
     SolRewardTiers.getTotalTiers s = 8 /\
     SolRewardTiers.owner s = deployer_account /\
     (t <= 7 ->
      SolRewardTiers.tierId (SolRewardTiers.tier_at s t) = t /\
      SolRewardTiers.getTierName s t
        = SolRewardTiers.getTierName (SolRewardTiers.constructor deployer_account) t /\
      SolRewardTiers.getTierRequirements s t
        = SolRewardTiers.getTierRequirements
            (SolRewardTiers.constructor deployer_account) t)) /\
  (forall s sender c,
     sender <> SolRewardTiers.owner s -> SolRewardTiers.step s (sender, c) = s) /\
  (forall s t values,
     SolRewardTiers.getTierMultiplier s t = Ok values ->
     exists s1 s2,
       SolRewardTiers.setTierActive (SolRewardTiers.owner s) s t false = Ok s1 /\
       SolRewardTiers.getTierMultiplier s1 t = Err SolRewardTiers.TierNotActive /\
       SolRewardTiers.setTierActive (SolRewardTiers.owner s) s1 t true = Ok s2 /\
       SolRewardTiers.getTierMultiplier s2 t = Ok values).
Proof.
  split; [|split; [|split]].
  - intros env tok orc s0 t Hc. unfold Sol.constructor in Hc.
    destruct (tok =? 0); [discriminate|]. destruct (orc =? 0); [discriminate|].
    injection Hc as <-.
    unfold Sol.getRewardTier, SolRewardTiers.getTierMultiplier, Sol.TIER_ALL_ROUNDER.
    change (SolRewardTiers.totalTiers (SolRewardTiers.constructor deployer_account)) with 8.
    destruct (N.leb_spec 8 t) as [Hbig|Ht].
    + destruct (N.ltb_spec 7 t); [reflexivity | lia].
    + destruct (N.ltb_spec 7 t); [lia|].
      assert (Hc : t = 0 \/ t = 1 \/ t = 2 \/ t = 3 \/ t = 4 \/ t = 5 \/ t = 6 \/ t = 7)
        by lia.
      destruct Hc as [->|[->|[->|[->|[->|[->|[->| ->]]]]]]]; vm_compute; reflexivity.
  - intros txs t. simpl.
    assert (H : forall s,
               SolRewardTiers.totalTiers (SolRewardTiers.run_all s txs)
                 = SolRewardTiers.totalTiers s /\
               SolRewardTiers.owner (SolRewardTiers.run_all s txs) = SolRewardTiers.owner s /\
               SolRewardTiers.tierId (SolRewardTiers.tier_at (SolRewardTiers.run_all s txs) t)
                 = SolRewardTiers.tierId (SolRewardTiers.tier_at s t) /\
               SolRewardTiers.name (SolRewardTiers.tier_at (SolRewardTiers.run_all s txs) t)
                 = SolRewardTiers.name (SolRewardTiers.tier_at s t) /\
               SolRewardTiers.minRuns (SolRewardTiers.tier_at (SolRewardTiers.run_all s txs) t)
                 = SolRewardTiers.minRuns (SolRewardTiers.tier_at s t) /\
               SolRewardTiers.minWickets
                 (SolRewardTiers.tier_at (SolRewardTiers.run_all s txs) t)
                 = SolRewardTiers.minWickets (SolRewardTiers.tier_at s t)).
    { induction txs as [|tx txs IH]; intros s; [repeat split; reflexivity|].
      simpl. destruct (IH (SolRewardTiers.step s tx)) as (H1 & H2 & H3 & H4 & H5 & H6).
      destruct (sol_tiers_step_keeps s tx t) as (K1 & K2 & K3 & K4 & K5 & K6).
      repeat split; congruence. }
    destruct (H (SolRewardTiers.constructor deployer_account))
      as (H1 & H2 & H3 & H4 & H5 & H6).
    split; [exact H1|]. split; [exact H2|]. intros Ht.
    unfold SolRewardTiers.getTierName, SolRewardTiers.getTierRequirements.
    rewrite H1, H3, H4, H5, H6. split; [|split; reflexivity].
    assert (Hc : t = 0 \/ t = 1 \/ t = 2 \/ t = 3 \/ t = 4 \/ t = 5 \/ t = 6 \/ t = 7)
      by lia.
    destruct Hc as [->|[->|[->|[->|[->|[->|[->| ->]]]]]]]; reflexivity.
  - intros s sender c Hne. unfold SolRewardTiers.step. simpl.
    destruct c as [t m b|t active];
      unfold SolRewardTiers.updateTier, SolRewardTiers.setTierActive;
      destruct (N.eqb_spec sender (SolRewardTiers.owner s)); try contradiction;
      reflexivity.
  - intros s t values Hget. unfold SolRewardTiers.getTierMultiplier in Hget.
    destruct (SolRewardTiers.totalTiers s <=? t) eqn:Ht; [discriminate|].
    destruct (SolRewardTiers.isActive (SolRewardTiers.tier_at s t)) eqn:Ha;
      [|discriminate].
    simpl in Hget. injection Hget as <-.
    set (T := SolRewardTiers.tier_at s t) in *.
    set (off := SolRewardTiers.mkTierConfig (SolRewardTiers.tierId T)
                  (SolRewardTiers.name T) (SolRewardTiers.description T)
                  (SolRewardTiers.multiplier T) (SolRewardTiers.baseReward T)
                  (SolRewardTiers.minRuns T) (SolRewardTiers.minWickets T) false).
    set (on := SolRewardTiers.mkTierConfig (SolRewardTiers.tierId T)
                 (SolRewardTiers.name T) (SolRewardTiers.description T)
                 (SolRewardTiers.multiplier T) (SolRewardTiers.baseReward T)
                 (SolRewardTiers.minRuns T) (SolRewardTiers.minWickets T) true).
    set (s1 := SolRewardTiers.mkState (SolRewardTiers.owner s)
                 (<[t := off]> (SolRewardTiers.tiers s)) (SolRewardTiers.totalTiers s)).
    set (s2 := SolRewardTiers.mkState (SolRewardTiers.owner s)
                 (<[t := on]> (SolRewardTiers.tiers s1)) (SolRewardTiers.totalTiers s)).
    assert (H1 : SolRewardTiers.tier_at s1 t = off)
      by (unfold SolRewardTiers.tier_at, s1; simpl; rewrite lookup_insert_eq; reflexivity).
    assert (H2 : SolRewardTiers.tier_at s2 t = on)
      by (unfold SolRewardTiers.tier_at, s2; simpl; rewrite lookup_insert_eq; reflexivity).
    exists s1, s2. split; [|split; [|split]].
    + unfold SolRewardTiers.setTierActive. rewrite N.eqb_refl, Ht. reflexivity.
    + unfold SolRewardTiers.getTierMultiplier. rewrite H1. simpl. rewrite Ht. reflexivity.
    + unfold SolRewardTiers.setTierActive. rewrite H1. simpl.
      rewrite N.eqb_refl, Ht. reflexivity.
    + unfold SolRewardTiers.getTierMultiplier. rewrite H2. simpl. rewrite Ht. reflexivity.
Qed.

(** Tier 5 at deployment, switched off and on again by the owner. *)
Lemma sol_tier_tables_witness :
  SolRewardTiers.getTierMultiplier (SolRewardTiers.constructor 1) 5
    = Ok (40, 250000000000000000000) /\
  exists s1 s2,
    SolRewardTiers.setTierActive 1 (SolRewardTiers.constructor 1) 5 false = Ok s1 /\
    SolRewardTiers.getTierMultiplier s1 5 = Err SolRewardTiers.TierNotActive /\
    SolRewardTiers.setTierActive 1 s1 5 true = Ok s2 /\
    SolRewardTiers.getTierMultiplier s2 5 = Ok (40, 250000000000000000000).
Proof.
  destruct (sol_tier_tables 1) as (Hagree & _ & _ & Hround).
  assert (Hget : SolRewardTiers.getTierMultiplier (SolRewardTiers.constructor 1) 5
                 = Ok (40, 250000000000000000000)).
  { rewrite (Hagree deployer 2 3 (state_of sol_default) 5) by (vm_compute; reflexivity).
    vm_compute. reflexivity. }
  split; [exact Hget|].
  exact (Hround (SolRewardTiers.constructor 1) 5 _ Hget).
Defined.
